(** * ESPN depth-chart scraper: parser, backup resolver and TTL cache

    A shallow embedding of [espn-depth-scraper.js] (the table parser
    [scrapeESPNDepthChart] and the resolver [getBackupForPlayer]) and of
    [depth-chart-integration.js] (the cache [getTeamDepthChart]), followed
    by the properties of these three components.

    Conventions of the embedding:
    - a JavaScript string is a [string] holding its UTF-8 encoding (a
      string with an unpaired surrogate has none and is not covered);
      [trim] and the case mappings follow ECMAScript and the Unicode
      Character Database, version 14.0;
    - a JavaScript number that holds a count, an index or a millisecond
      timestamp is a [Z] (or a [nat] where it is a loop index);
    - a plain object used as a dictionary is a [JsObject]: the list of its
      own properties in creation order;
    - the [Map] that backs the cache is a [gmap string CacheRecord];
    - [Date.now()], [new Date()] and the HTTP request are the effects of a
      small state monad over the process state [Proc]. *)

From Stdlib Require Import ZArith List String Ascii Bool Lia Sorted.
From stdpp Require Import gmap strings list.

(** ** JavaScript string primitives *)

Module Js.

(** [String.prototype.startsWith], used for the literal parts of the
    link pattern. *)
Fixpoint startsWith (s p : string) {struct p} : bool :=
  match p, s with
  | EmptyString, _ => true
  | String b p', String a s' => bool_decide (a = b) && startsWith s' p'
  | String _ _, EmptyString => false
  end.

(** [String.prototype.includes]: [t] occurs in [s] at some offset. *)
Fixpoint includes (s t : string) : bool :=
  startsWith s t ||
  match s with
  | EmptyString => false
  | String _ s' => includes s' t
  end.

(** Strings hold text in UTF-8: a [string] is the sequence of bytes that
    encodes the JavaScript string. On well-formed text, searching and
    cutting by bytes agrees with searching and cutting by code units. *)

Fixpoint dropChars (n : nat) (s : string) : string :=
  match n, s with
  | O, _ => s
  | S n', String _ s' => dropChars n' s'
  | S _, EmptyString => EmptyString
  end.

Fixpoint ofBytes (l : list N) : string :=
  match l with
  | [] => EmptyString
  | b :: l' => String (ascii_of_N b) (ofBytes l')
  end.

(** The encodings of the code points that [trim] removes: WhiteSpace
    (U+0009, U+000B, U+000C, U+FEFF and the category Zs: U+0020, U+00A0,
    U+1680, U+2000 to U+200A, U+202F, U+205F, U+3000) and LineTerminator
    (U+000A, U+000D, U+2028, U+2029). *)
Definition whiteSpace : list string :=
  ofBytes <$>
    [[9]; [10]; [11]; [12]; [13]; [32];
     [194; 160];
     [225; 154; 128];
     [226; 128; 128]; [226; 128; 129]; [226; 128; 130]; [226; 128; 131];
     [226; 128; 132]; [226; 128; 133]; [226; 128; 134]; [226; 128; 135];
     [226; 128; 136]; [226; 128; 137]; [226; 128; 138];
     [226; 128; 168]; [226; 128; 169]; [226; 128; 175];
     [226; 129; 159];
     [227; 128; 128];
     [239; 187; 191]]%N.

(** What follows the first of the tokens [ws] that [s] starts with. *)
Fixpoint stripOne (ws : list string) (s : string) : option string :=
  match ws with
  | [] => None
  | w :: ws' =>
      if startsWith s w then Some (dropChars (String.length w) s)
      else stripOne ws' s
  end.

(** [s] without its leading tokens; [n] bounds the number of tokens
    removed, and the length of [s] is always enough. *)
Fixpoint stripAll (ws : list string) (n : nat) (s : string) : string :=
  match n with
  | O => s
  | S n' =>
      match stripOne ws s with
      | Some r => stripAll ws n' r
      | None => s
      end
  end.

Definition trimStart (s : string) : string :=
  stripAll whiteSpace (String.length s) s.

Definition trimEnd (s : string) : string :=
  String.rev (stripAll (String.rev <$> whiteSpace) (String.length s) (String.rev s)).

(** [String.prototype.trim]. *)
Definition trim (s : string) : string := trimEnd (trimStart s).

(** *** Case mapping

    [toLowerCase] and [toUpperCase] follow the Unicode default case
    conversion on code points: the simple mappings of UnicodeData.txt,
    the unconditional mappings of SpecialCasing.txt, and for the capital
    sigma the condition Final_Sigma. *)

Definition caseRange (first last step : N) (delta : Z) : N * N * N * Z :=
  (first, last, step, delta).

Definition span (first last : N) : N * N := (first, last).

(** The simple lower-case mappings of the Unicode Character Database
    (version 14.0): every code point from [first] to [last] in steps of
    [step] is mapped to itself plus [delta]. *)
Definition lowerTable : list (N * N * N * Z) :=
  [
   caseRange 0x41 0x5a 1 32; caseRange 0xc0 0xd6 1 32; caseRange 0xd8 0xde 1 32;
   caseRange 0x100 0x12e 2 1; caseRange 0x132 0x136 2 1; caseRange 0x139 0x147 2 1;
   caseRange 0x14a 0x176 2 1; caseRange 0x178 0x178 1 (-121); caseRange 0x179 0x17d 2 1;
   caseRange 0x181 0x181 1 210; caseRange 0x182 0x184 2 1; caseRange 0x186 0x186 1 206;
   caseRange 0x187 0x187 1 1; caseRange 0x189 0x18a 1 205; caseRange 0x18b 0x18b 1 1;
   caseRange 0x18e 0x18e 1 79; caseRange 0x18f 0x18f 1 202; caseRange 0x190 0x190 1 203;
   caseRange 0x191 0x191 1 1; caseRange 0x193 0x193 1 205; caseRange 0x194 0x194 1 207;
   caseRange 0x196 0x196 1 211; caseRange 0x197 0x197 1 209; caseRange 0x198 0x198 1 1;
   caseRange 0x19c 0x19c 1 211; caseRange 0x19d 0x19d 1 213; caseRange 0x19f 0x19f 1 214;
   caseRange 0x1a0 0x1a4 2 1; caseRange 0x1a6 0x1a6 1 218; caseRange 0x1a7 0x1a7 1 1;
   caseRange 0x1a9 0x1a9 1 218; caseRange 0x1ac 0x1ac 1 1; caseRange 0x1ae 0x1ae 1 218;
   caseRange 0x1af 0x1af 1 1; caseRange 0x1b1 0x1b2 1 217; caseRange 0x1b3 0x1b5 2 1;
   caseRange 0x1b7 0x1b7 1 219; caseRange 0x1b8 0x1b8 1 1; caseRange 0x1bc 0x1bc 1 1;
   caseRange 0x1c4 0x1c4 1 2; caseRange 0x1c5 0x1c5 1 1; caseRange 0x1c7 0x1c7 1 2;
   caseRange 0x1c8 0x1c8 1 1; caseRange 0x1ca 0x1ca 1 2; caseRange 0x1cb 0x1db 2 1;
   caseRange 0x1de 0x1ee 2 1; caseRange 0x1f1 0x1f1 1 2; caseRange 0x1f2 0x1f4 2 1;
   caseRange 0x1f6 0x1f6 1 (-97); caseRange 0x1f7 0x1f7 1 (-56); caseRange 0x1f8 0x21e 2 1;
   caseRange 0x220 0x220 1 (-130); caseRange 0x222 0x232 2 1; caseRange 0x23a 0x23a 1 10795;
   caseRange 0x23b 0x23b 1 1; caseRange 0x23d 0x23d 1 (-163); caseRange 0x23e 0x23e 1 10792;
   caseRange 0x241 0x241 1 1; caseRange 0x243 0x243 1 (-195); caseRange 0x244 0x244 1 69;
   caseRange 0x245 0x245 1 71; caseRange 0x246 0x24e 2 1; caseRange 0x370 0x372 2 1;
   caseRange 0x376 0x376 1 1; caseRange 0x37f 0x37f 1 116; caseRange 0x386 0x386 1 38;
   caseRange 0x388 0x38a 1 37; caseRange 0x38c 0x38c 1 64; caseRange 0x38e 0x38f 1 63;
   caseRange 0x391 0x3a1 1 32; caseRange 0x3a3 0x3ab 1 32; caseRange 0x3cf 0x3cf 1 8;
   caseRange 0x3d8 0x3ee 2 1; caseRange 0x3f4 0x3f4 1 (-60); caseRange 0x3f7 0x3f7 1 1;
   caseRange 0x3f9 0x3f9 1 (-7); caseRange 0x3fa 0x3fa 1 1; caseRange 0x3fd 0x3ff 1 (-130);
   caseRange 0x400 0x40f 1 80; caseRange 0x410 0x42f 1 32; caseRange 0x460 0x480 2 1;
   caseRange 0x48a 0x4be 2 1; caseRange 0x4c0 0x4c0 1 15; caseRange 0x4c1 0x4cd 2 1;
   caseRange 0x4d0 0x52e 2 1; caseRange 0x531 0x556 1 48; caseRange 0x10a0 0x10c5 1 7264;
   caseRange 0x10c7 0x10c7 1 7264; caseRange 0x10cd 0x10cd 1 7264; caseRange 0x13a0 0x13ef 1 38864;
   caseRange 0x13f0 0x13f5 1 8; caseRange 0x1c90 0x1cba 1 (-3008); caseRange 0x1cbd 0x1cbf 1 (-3008);
   caseRange 0x1e00 0x1e94 2 1; caseRange 0x1e9e 0x1e9e 1 (-7615); caseRange 0x1ea0 0x1efe 2 1;
   caseRange 0x1f08 0x1f0f 1 (-8); caseRange 0x1f18 0x1f1d 1 (-8); caseRange 0x1f28 0x1f2f 1 (-8);
   caseRange 0x1f38 0x1f3f 1 (-8); caseRange 0x1f48 0x1f4d 1 (-8); caseRange 0x1f59 0x1f5f 2 (-8);
   caseRange 0x1f68 0x1f6f 1 (-8); caseRange 0x1f88 0x1f8f 1 (-8); caseRange 0x1f98 0x1f9f 1 (-8);
   caseRange 0x1fa8 0x1faf 1 (-8); caseRange 0x1fb8 0x1fb9 1 (-8); caseRange 0x1fba 0x1fbb 1 (-74);
   caseRange 0x1fbc 0x1fbc 1 (-9); caseRange 0x1fc8 0x1fcb 1 (-86); caseRange 0x1fcc 0x1fcc 1 (-9);
   caseRange 0x1fd8 0x1fd9 1 (-8); caseRange 0x1fda 0x1fdb 1 (-100); caseRange 0x1fe8 0x1fe9 1 (-8);
   caseRange 0x1fea 0x1feb 1 (-112); caseRange 0x1fec 0x1fec 1 (-7); caseRange 0x1ff8 0x1ff9 1 (-128);
   caseRange 0x1ffa 0x1ffb 1 (-126); caseRange 0x1ffc 0x1ffc 1 (-9); caseRange 0x2126 0x2126 1 (-7517);
   caseRange 0x212a 0x212a 1 (-8383); caseRange 0x212b 0x212b 1 (-8262); caseRange 0x2132 0x2132 1 28;
   caseRange 0x2160 0x216f 1 16; caseRange 0x2183 0x2183 1 1; caseRange 0x24b6 0x24cf 1 26;
   caseRange 0x2c00 0x2c2f 1 48; caseRange 0x2c60 0x2c60 1 1; caseRange 0x2c62 0x2c62 1 (-10743);
   caseRange 0x2c63 0x2c63 1 (-3814); caseRange 0x2c64 0x2c64 1 (-10727); caseRange 0x2c67 0x2c6b 2 1;
   caseRange 0x2c6d 0x2c6d 1 (-10780); caseRange 0x2c6e 0x2c6e 1 (-10749); caseRange 0x2c6f 0x2c6f 1 (-10783);
   caseRange 0x2c70 0x2c70 1 (-10782); caseRange 0x2c72 0x2c72 1 1; caseRange 0x2c75 0x2c75 1 1;
   caseRange 0x2c7e 0x2c7f 1 (-10815); caseRange 0x2c80 0x2ce2 2 1; caseRange 0x2ceb 0x2ced 2 1;
   caseRange 0x2cf2 0x2cf2 1 1; caseRange 0xa640 0xa66c 2 1; caseRange 0xa680 0xa69a 2 1;
   caseRange 0xa722 0xa72e 2 1; caseRange 0xa732 0xa76e 2 1; caseRange 0xa779 0xa77b 2 1;
   caseRange 0xa77d 0xa77d 1 (-35332); caseRange 0xa77e 0xa786 2 1; caseRange 0xa78b 0xa78b 1 1;
   caseRange 0xa78d 0xa78d 1 (-42280); caseRange 0xa790 0xa792 2 1; caseRange 0xa796 0xa7a8 2 1;
   caseRange 0xa7aa 0xa7aa 1 (-42308); caseRange 0xa7ab 0xa7ab 1 (-42319); caseRange 0xa7ac 0xa7ac 1 (-42315);
   caseRange 0xa7ad 0xa7ad 1 (-42305); caseRange 0xa7ae 0xa7ae 1 (-42308); caseRange 0xa7b0 0xa7b0 1 (-42258);
   caseRange 0xa7b1 0xa7b1 1 (-42282); caseRange 0xa7b2 0xa7b2 1 (-42261); caseRange 0xa7b3 0xa7b3 1 928;
   caseRange 0xa7b4 0xa7c2 2 1; caseRange 0xa7c4 0xa7c4 1 (-48); caseRange 0xa7c5 0xa7c5 1 (-42307);
   caseRange 0xa7c6 0xa7c6 1 (-35384); caseRange 0xa7c7 0xa7c9 2 1; caseRange 0xa7d0 0xa7d0 1 1;
   caseRange 0xa7d6 0xa7d8 2 1; caseRange 0xa7f5 0xa7f5 1 1; caseRange 0xff21 0xff3a 1 32;
   caseRange 0x10400 0x10427 1 40; caseRange 0x104b0 0x104d3 1 40; caseRange 0x10570 0x10594 2 39;
   caseRange 0x10571 0x10579 2 39; caseRange 0x1057d 0x10589 2 39; caseRange 0x1058d 0x10591 2 39;
   caseRange 0x10595 0x10595 1 39; caseRange 0x10c80 0x10cb2 1 64; caseRange 0x118a0 0x118bf 1 32;
   caseRange 0x16e40 0x16e5f 1 32; caseRange 0x1e900 0x1e921 1 34
  ].

(** The simple upper-case mappings. *)
Definition upperTable : list (N * N * N * Z) :=
  [
   caseRange 0x61 0x7a 1 (-32); caseRange 0xb5 0xb5 1 743; caseRange 0xe0 0xf6 1 (-32);
   caseRange 0xf8 0xfe 1 (-32); caseRange 0xff 0xff 1 121; caseRange 0x101 0x12f 2 (-1);
   caseRange 0x131 0x131 1 (-232); caseRange 0x133 0x137 2 (-1); caseRange 0x13a 0x148 2 (-1);
   caseRange 0x14b 0x177 2 (-1); caseRange 0x17a 0x17e 2 (-1); caseRange 0x17f 0x17f 1 (-300);
   caseRange 0x180 0x180 1 195; caseRange 0x183 0x185 2 (-1); caseRange 0x188 0x188 1 (-1);
   caseRange 0x18c 0x18c 1 (-1); caseRange 0x192 0x192 1 (-1); caseRange 0x195 0x195 1 97;
   caseRange 0x199 0x199 1 (-1); caseRange 0x19a 0x19a 1 163; caseRange 0x19e 0x19e 1 130;
   caseRange 0x1a1 0x1a5 2 (-1); caseRange 0x1a8 0x1a8 1 (-1); caseRange 0x1ad 0x1ad 1 (-1);
   caseRange 0x1b0 0x1b0 1 (-1); caseRange 0x1b4 0x1b6 2 (-1); caseRange 0x1b9 0x1b9 1 (-1);
   caseRange 0x1bd 0x1bd 1 (-1); caseRange 0x1bf 0x1bf 1 56; caseRange 0x1c5 0x1c5 1 (-1);
   caseRange 0x1c6 0x1c6 1 (-2); caseRange 0x1c8 0x1c8 1 (-1); caseRange 0x1c9 0x1c9 1 (-2);
   caseRange 0x1cb 0x1cb 1 (-1); caseRange 0x1cc 0x1cc 1 (-2); caseRange 0x1ce 0x1dc 2 (-1);
   caseRange 0x1dd 0x1dd 1 (-79); caseRange 0x1df 0x1ef 2 (-1); caseRange 0x1f2 0x1f2 1 (-1);
   caseRange 0x1f3 0x1f3 1 (-2); caseRange 0x1f5 0x1f5 1 (-1); caseRange 0x1f9 0x21f 2 (-1);
   caseRange 0x223 0x233 2 (-1); caseRange 0x23c 0x23c 1 (-1); caseRange 0x23f 0x240 1 10815;
   caseRange 0x242 0x242 1 (-1); caseRange 0x247 0x24f 2 (-1); caseRange 0x250 0x250 1 10783;
   caseRange 0x251 0x251 1 10780; caseRange 0x252 0x252 1 10782; caseRange 0x253 0x253 1 (-210);
   caseRange 0x254 0x254 1 (-206); caseRange 0x256 0x257 1 (-205); caseRange 0x259 0x259 1 (-202);
   caseRange 0x25b 0x25b 1 (-203); caseRange 0x25c 0x25c 1 42319; caseRange 0x260 0x260 1 (-205);
   caseRange 0x261 0x261 1 42315; caseRange 0x263 0x263 1 (-207); caseRange 0x265 0x265 1 42280;
   caseRange 0x266 0x266 1 42308; caseRange 0x268 0x268 1 (-209); caseRange 0x269 0x269 1 (-211);
   caseRange 0x26a 0x26a 1 42308; caseRange 0x26b 0x26b 1 10743; caseRange 0x26c 0x26c 1 42305;
   caseRange 0x26f 0x26f 1 (-211); caseRange 0x271 0x271 1 10749; caseRange 0x272 0x272 1 (-213);
   caseRange 0x275 0x275 1 (-214); caseRange 0x27d 0x27d 1 10727; caseRange 0x280 0x280 1 (-218);
   caseRange 0x282 0x282 1 42307; caseRange 0x283 0x283 1 (-218); caseRange 0x287 0x287 1 42282;
   caseRange 0x288 0x288 1 (-218); caseRange 0x289 0x289 1 (-69); caseRange 0x28a 0x28b 1 (-217);
   caseRange 0x28c 0x28c 1 (-71); caseRange 0x292 0x292 1 (-219); caseRange 0x29d 0x29d 1 42261;
   caseRange 0x29e 0x29e 1 42258; caseRange 0x345 0x345 1 84; caseRange 0x371 0x373 2 (-1);
   caseRange 0x377 0x377 1 (-1); caseRange 0x37b 0x37d 1 130; caseRange 0x3ac 0x3ac 1 (-38);
   caseRange 0x3ad 0x3af 1 (-37); caseRange 0x3b1 0x3c1 1 (-32); caseRange 0x3c2 0x3c2 1 (-31);
   caseRange 0x3c3 0x3cb 1 (-32); caseRange 0x3cc 0x3cc 1 (-64); caseRange 0x3cd 0x3ce 1 (-63);
   caseRange 0x3d0 0x3d0 1 (-62); caseRange 0x3d1 0x3d1 1 (-57); caseRange 0x3d5 0x3d5 1 (-47);
   caseRange 0x3d6 0x3d6 1 (-54); caseRange 0x3d7 0x3d7 1 (-8); caseRange 0x3d9 0x3ef 2 (-1);
   caseRange 0x3f0 0x3f0 1 (-86); caseRange 0x3f1 0x3f1 1 (-80); caseRange 0x3f2 0x3f2 1 7;
   caseRange 0x3f3 0x3f3 1 (-116); caseRange 0x3f5 0x3f5 1 (-96); caseRange 0x3f8 0x3f8 1 (-1);
   caseRange 0x3fb 0x3fb 1 (-1); caseRange 0x430 0x44f 1 (-32); caseRange 0x450 0x45f 1 (-80);
   caseRange 0x461 0x481 2 (-1); caseRange 0x48b 0x4bf 2 (-1); caseRange 0x4c2 0x4ce 2 (-1);
   caseRange 0x4cf 0x4cf 1 (-15); caseRange 0x4d1 0x52f 2 (-1); caseRange 0x561 0x586 1 (-48);
   caseRange 0x10d0 0x10fa 1 3008; caseRange 0x10fd 0x10ff 1 3008; caseRange 0x13f8 0x13fd 1 (-8);
   caseRange 0x1c80 0x1c80 1 (-6254); caseRange 0x1c81 0x1c81 1 (-6253); caseRange 0x1c82 0x1c82 1 (-6244);
   caseRange 0x1c83 0x1c84 1 (-6242); caseRange 0x1c85 0x1c85 1 (-6243); caseRange 0x1c86 0x1c86 1 (-6236);
   caseRange 0x1c87 0x1c87 1 (-6181); caseRange 0x1c88 0x1c88 1 35266; caseRange 0x1d79 0x1d79 1 35332;
   caseRange 0x1d7d 0x1d7d 1 3814; caseRange 0x1d8e 0x1d8e 1 35384; caseRange 0x1e01 0x1e95 2 (-1);
   caseRange 0x1e9b 0x1e9b 1 (-59); caseRange 0x1ea1 0x1eff 2 (-1); caseRange 0x1f00 0x1f07 1 8;
   caseRange 0x1f10 0x1f15 1 8; caseRange 0x1f20 0x1f27 1 8; caseRange 0x1f30 0x1f37 1 8;
   caseRange 0x1f40 0x1f45 1 8; caseRange 0x1f51 0x1f57 2 8; caseRange 0x1f60 0x1f67 1 8;
   caseRange 0x1f70 0x1f71 1 74; caseRange 0x1f72 0x1f75 1 86; caseRange 0x1f76 0x1f77 1 100;
   caseRange 0x1f78 0x1f79 1 128; caseRange 0x1f7a 0x1f7b 1 112; caseRange 0x1f7c 0x1f7d 1 126;
   caseRange 0x1fb0 0x1fb1 1 8; caseRange 0x1fbe 0x1fbe 1 (-7205); caseRange 0x1fd0 0x1fd1 1 8;
   caseRange 0x1fe0 0x1fe1 1 8; caseRange 0x1fe5 0x1fe5 1 7; caseRange 0x214e 0x214e 1 (-28);
   caseRange 0x2170 0x217f 1 (-16); caseRange 0x2184 0x2184 1 (-1); caseRange 0x24d0 0x24e9 1 (-26);
   caseRange 0x2c30 0x2c5f 1 (-48); caseRange 0x2c61 0x2c61 1 (-1); caseRange 0x2c65 0x2c65 1 (-10795);
   caseRange 0x2c66 0x2c66 1 (-10792); caseRange 0x2c68 0x2c6c 2 (-1); caseRange 0x2c73 0x2c73 1 (-1);
   caseRange 0x2c76 0x2c76 1 (-1); caseRange 0x2c81 0x2ce3 2 (-1); caseRange 0x2cec 0x2cee 2 (-1);
   caseRange 0x2cf3 0x2cf3 1 (-1); caseRange 0x2d00 0x2d25 1 (-7264); caseRange 0x2d27 0x2d27 1 (-7264);
   caseRange 0x2d2d 0x2d2d 1 (-7264); caseRange 0xa641 0xa66d 2 (-1); caseRange 0xa681 0xa69b 2 (-1);
   caseRange 0xa723 0xa72f 2 (-1); caseRange 0xa733 0xa76f 2 (-1); caseRange 0xa77a 0xa77c 2 (-1);
   caseRange 0xa77f 0xa787 2 (-1); caseRange 0xa78c 0xa78c 1 (-1); caseRange 0xa791 0xa793 2 (-1);
   caseRange 0xa794 0xa794 1 48; caseRange 0xa797 0xa7a9 2 (-1); caseRange 0xa7b5 0xa7c3 2 (-1);
   caseRange 0xa7c8 0xa7ca 2 (-1); caseRange 0xa7d1 0xa7d1 1 (-1); caseRange 0xa7d7 0xa7d9 2 (-1);
   caseRange 0xa7f6 0xa7f6 1 (-1); caseRange 0xab53 0xab53 1 (-928); caseRange 0xab70 0xabbf 1 (-38864);
   caseRange 0xff41 0xff5a 1 (-32); caseRange 0x10428 0x1044f 1 (-40); caseRange 0x104d8 0x104fb 1 (-40);
   caseRange 0x10597 0x105bb 2 (-39); caseRange 0x10598 0x105a0 2 (-39); caseRange 0x105a4 0x105b0 2 (-39);
   caseRange 0x105b4 0x105b8 2 (-39); caseRange 0x105bc 0x105bc 1 (-39); caseRange 0x10cc0 0x10cf2 1 (-64);
   caseRange 0x118c0 0x118df 1 (-32); caseRange 0x16e60 0x16e7f 1 (-32); caseRange 0x1e922 0x1e943 1 (-34)
  ].

(** The unconditional mappings of SpecialCasing.txt to more than one
    code point. *)
Definition lowerSpecial : list (N * list N) :=
  [
   (0x130, [0x69; 0x307])
  ]%N.

Definition upperSpecial : list (N * list N) :=
  [
   (0xdf, [0x53; 0x53]); (0x149, [0x2bc; 0x4e]);
   (0x1f0, [0x4a; 0x30c]); (0x390, [0x399; 0x308; 0x301]);
   (0x3b0, [0x3a5; 0x308; 0x301]); (0x587, [0x535; 0x552]);
   (0x1e96, [0x48; 0x331]); (0x1e97, [0x54; 0x308]);
   (0x1e98, [0x57; 0x30a]); (0x1e99, [0x59; 0x30a]);
   (0x1e9a, [0x41; 0x2be]); (0x1f50, [0x3a5; 0x313]);
   (0x1f52, [0x3a5; 0x313; 0x300]); (0x1f54, [0x3a5; 0x313; 0x301]);
   (0x1f56, [0x3a5; 0x313; 0x342]); (0x1f80, [0x1f08; 0x399]);
   (0x1f81, [0x1f09; 0x399]); (0x1f82, [0x1f0a; 0x399]);
   (0x1f83, [0x1f0b; 0x399]); (0x1f84, [0x1f0c; 0x399]);
   (0x1f85, [0x1f0d; 0x399]); (0x1f86, [0x1f0e; 0x399]);
   (0x1f87, [0x1f0f; 0x399]); (0x1f88, [0x1f08; 0x399]);
   (0x1f89, [0x1f09; 0x399]); (0x1f8a, [0x1f0a; 0x399]);
   (0x1f8b, [0x1f0b; 0x399]); (0x1f8c, [0x1f0c; 0x399]);
   (0x1f8d, [0x1f0d; 0x399]); (0x1f8e, [0x1f0e; 0x399]);
   (0x1f8f, [0x1f0f; 0x399]); (0x1f90, [0x1f28; 0x399]);
   (0x1f91, [0x1f29; 0x399]); (0x1f92, [0x1f2a; 0x399]);
   (0x1f93, [0x1f2b; 0x399]); (0x1f94, [0x1f2c; 0x399]);
   (0x1f95, [0x1f2d; 0x399]); (0x1f96, [0x1f2e; 0x399]);
   (0x1f97, [0x1f2f; 0x399]); (0x1f98, [0x1f28; 0x399]);
   (0x1f99, [0x1f29; 0x399]); (0x1f9a, [0x1f2a; 0x399]);
   (0x1f9b, [0x1f2b; 0x399]); (0x1f9c, [0x1f2c; 0x399]);
   (0x1f9d, [0x1f2d; 0x399]); (0x1f9e, [0x1f2e; 0x399]);
   (0x1f9f, [0x1f2f; 0x399]); (0x1fa0, [0x1f68; 0x399]);
   (0x1fa1, [0x1f69; 0x399]); (0x1fa2, [0x1f6a; 0x399]);
   (0x1fa3, [0x1f6b; 0x399]); (0x1fa4, [0x1f6c; 0x399]);
   (0x1fa5, [0x1f6d; 0x399]); (0x1fa6, [0x1f6e; 0x399]);
   (0x1fa7, [0x1f6f; 0x399]); (0x1fa8, [0x1f68; 0x399]);
   (0x1fa9, [0x1f69; 0x399]); (0x1faa, [0x1f6a; 0x399]);
   (0x1fab, [0x1f6b; 0x399]); (0x1fac, [0x1f6c; 0x399]);
   (0x1fad, [0x1f6d; 0x399]); (0x1fae, [0x1f6e; 0x399]);
   (0x1faf, [0x1f6f; 0x399]); (0x1fb2, [0x1fba; 0x399]);
   (0x1fb3, [0x391; 0x399]); (0x1fb4, [0x386; 0x399]);
   (0x1fb6, [0x391; 0x342]); (0x1fb7, [0x391; 0x342; 0x399]);
   (0x1fbc, [0x391; 0x399]); (0x1fc2, [0x1fca; 0x399]);
   (0x1fc3, [0x397; 0x399]); (0x1fc4, [0x389; 0x399]);
   (0x1fc6, [0x397; 0x342]); (0x1fc7, [0x397; 0x342; 0x399]);
   (0x1fcc, [0x397; 0x399]); (0x1fd2, [0x399; 0x308; 0x300]);
   (0x1fd3, [0x399; 0x308; 0x301]); (0x1fd6, [0x399; 0x342]);
   (0x1fd7, [0x399; 0x308; 0x342]); (0x1fe2, [0x3a5; 0x308; 0x300]);
   (0x1fe3, [0x3a5; 0x308; 0x301]); (0x1fe4, [0x3a1; 0x313]);
   (0x1fe6, [0x3a5; 0x342]); (0x1fe7, [0x3a5; 0x308; 0x342]);
   (0x1ff2, [0x1ffa; 0x399]); (0x1ff3, [0x3a9; 0x399]);
   (0x1ff4, [0x38f; 0x399]); (0x1ff6, [0x3a9; 0x342]);
   (0x1ff7, [0x3a9; 0x342; 0x399]); (0x1ffc, [0x3a9; 0x399]);
   (0xfb00, [0x46; 0x46]); (0xfb01, [0x46; 0x49]);
   (0xfb02, [0x46; 0x4c]); (0xfb03, [0x46; 0x46; 0x49]);
   (0xfb04, [0x46; 0x46; 0x4c]); (0xfb05, [0x53; 0x54]);
   (0xfb06, [0x53; 0x54]); (0xfb13, [0x544; 0x546]);
   (0xfb14, [0x544; 0x535]); (0xfb15, [0x544; 0x53b]);
   (0xfb16, [0x54e; 0x546]); (0xfb17, [0x544; 0x53d])
  ]%N.

(** The code points with the property Case_Ignorable. *)
Definition caseIgnorableTable : list (N * N) :=
  [
   span 0x27 0x27; span 0x2e 0x2e; span 0x3a 0x3a; span 0x5e 0x5e;
   span 0x60 0x60; span 0xa8 0xa8; span 0xad 0xad; span 0xaf 0xaf;
   span 0xb4 0xb4; span 0xb7 0xb8; span 0x2b0 0x36f; span 0x374 0x375;
   span 0x37a 0x37a; span 0x384 0x385; span 0x387 0x387; span 0x483 0x489;
   span 0x559 0x559; span 0x55f 0x55f; span 0x591 0x5bd; span 0x5bf 0x5bf;
   span 0x5c1 0x5c2; span 0x5c4 0x5c5; span 0x5c7 0x5c7; span 0x5f4 0x5f4;
   span 0x600 0x605; span 0x610 0x61a; span 0x61c 0x61c; span 0x640 0x640;
   span 0x64b 0x65f; span 0x670 0x670; span 0x6d6 0x6dd; span 0x6df 0x6e8;
   span 0x6ea 0x6ed; span 0x70f 0x70f; span 0x711 0x711; span 0x730 0x74a;
   span 0x7a6 0x7b0; span 0x7eb 0x7f5; span 0x7fa 0x7fa; span 0x7fd 0x7fd;
   span 0x816 0x82d; span 0x859 0x85b; span 0x888 0x888; span 0x890 0x891;
   span 0x898 0x89f; span 0x8c9 0x902; span 0x93a 0x93a; span 0x93c 0x93c;
   span 0x941 0x948; span 0x94d 0x94d; span 0x951 0x957; span 0x962 0x963;
   span 0x971 0x971; span 0x981 0x981; span 0x9bc 0x9bc; span 0x9c1 0x9c4;
   span 0x9cd 0x9cd; span 0x9e2 0x9e3; span 0x9fe 0x9fe; span 0xa01 0xa02;
   span 0xa3c 0xa3c; span 0xa41 0xa42; span 0xa47 0xa48; span 0xa4b 0xa4d;
   span 0xa51 0xa51; span 0xa70 0xa71; span 0xa75 0xa75; span 0xa81 0xa82;
   span 0xabc 0xabc; span 0xac1 0xac5; span 0xac7 0xac8; span 0xacd 0xacd;
   span 0xae2 0xae3; span 0xafa 0xaff; span 0xb01 0xb01; span 0xb3c 0xb3c;
   span 0xb3f 0xb3f; span 0xb41 0xb44; span 0xb4d 0xb4d; span 0xb55 0xb56;
   span 0xb62 0xb63; span 0xb82 0xb82; span 0xbc0 0xbc0; span 0xbcd 0xbcd;
   span 0xc00 0xc00; span 0xc04 0xc04; span 0xc3c 0xc3c; span 0xc3e 0xc40;
   span 0xc46 0xc48; span 0xc4a 0xc4d; span 0xc55 0xc56; span 0xc62 0xc63;
   span 0xc81 0xc81; span 0xcbc 0xcbc; span 0xcbf 0xcbf; span 0xcc6 0xcc6;
   span 0xccc 0xccd; span 0xce2 0xce3; span 0xd00 0xd01; span 0xd3b 0xd3c;
   span 0xd41 0xd44; span 0xd4d 0xd4d; span 0xd62 0xd63; span 0xd81 0xd81;
   span 0xdca 0xdca; span 0xdd2 0xdd4; span 0xdd6 0xdd6; span 0xe31 0xe31;
   span 0xe34 0xe3a; span 0xe46 0xe4e; span 0xeb1 0xeb1; span 0xeb4 0xebc;
   span 0xec6 0xec6; span 0xec8 0xecd; span 0xf18 0xf19; span 0xf35 0xf35;
   span 0xf37 0xf37; span 0xf39 0xf39; span 0xf71 0xf7e; span 0xf80 0xf84;
   span 0xf86 0xf87; span 0xf8d 0xf97; span 0xf99 0xfbc; span 0xfc6 0xfc6;
   span 0x102d 0x1030; span 0x1032 0x1037; span 0x1039 0x103a; span 0x103d 0x103e;
   span 0x1058 0x1059; span 0x105e 0x1060; span 0x1071 0x1074; span 0x1082 0x1082;
   span 0x1085 0x1086; span 0x108d 0x108d; span 0x109d 0x109d; span 0x10fc 0x10fc;
   span 0x135d 0x135f; span 0x1712 0x1714; span 0x1732 0x1733; span 0x1752 0x1753;
   span 0x1772 0x1773; span 0x17b4 0x17b5; span 0x17b7 0x17bd; span 0x17c6 0x17c6;
   span 0x17c9 0x17d3; span 0x17d7 0x17d7; span 0x17dd 0x17dd; span 0x180b 0x180f;
   span 0x1843 0x1843; span 0x1885 0x1886; span 0x18a9 0x18a9; span 0x1920 0x1922;
   span 0x1927 0x1928; span 0x1932 0x1932; span 0x1939 0x193b; span 0x1a17 0x1a18;
   span 0x1a1b 0x1a1b; span 0x1a56 0x1a56; span 0x1a58 0x1a5e; span 0x1a60 0x1a60;
   span 0x1a62 0x1a62; span 0x1a65 0x1a6c; span 0x1a73 0x1a7c; span 0x1a7f 0x1a7f;
   span 0x1aa7 0x1aa7; span 0x1ab0 0x1ace; span 0x1b00 0x1b03; span 0x1b34 0x1b34;
   span 0x1b36 0x1b3a; span 0x1b3c 0x1b3c; span 0x1b42 0x1b42; span 0x1b6b 0x1b73;
   span 0x1b80 0x1b81; span 0x1ba2 0x1ba5; span 0x1ba8 0x1ba9; span 0x1bab 0x1bad;
   span 0x1be6 0x1be6; span 0x1be8 0x1be9; span 0x1bed 0x1bed; span 0x1bef 0x1bf1;
   span 0x1c2c 0x1c33; span 0x1c36 0x1c37; span 0x1c78 0x1c7d; span 0x1cd0 0x1cd2;
   span 0x1cd4 0x1ce0; span 0x1ce2 0x1ce8; span 0x1ced 0x1ced; span 0x1cf4 0x1cf4;
   span 0x1cf8 0x1cf9; span 0x1d2c 0x1d6a; span 0x1d78 0x1d78; span 0x1d9b 0x1dff;
   span 0x1fbd 0x1fbd; span 0x1fbf 0x1fc1; span 0x1fcd 0x1fcf; span 0x1fdd 0x1fdf;
   span 0x1fed 0x1fef; span 0x1ffd 0x1ffe; span 0x200b 0x200f; span 0x2018 0x2019;
   span 0x2024 0x2024; span 0x2027 0x2027; span 0x202a 0x202e; span 0x2060 0x2064;
   span 0x2066 0x206f; span 0x2071 0x2071; span 0x207f 0x207f; span 0x2090 0x209c;
   span 0x20d0 0x20f0; span 0x2c7c 0x2c7d; span 0x2cef 0x2cf1; span 0x2d6f 0x2d6f;
   span 0x2d7f 0x2d7f; span 0x2de0 0x2dff; span 0x2e2f 0x2e2f; span 0x3005 0x3005;
   span 0x302a 0x302d; span 0x3031 0x3035; span 0x303b 0x303b; span 0x3099 0x309e;
   span 0x30fc 0x30fe; span 0xa015 0xa015; span 0xa4f8 0xa4fd; span 0xa60c 0xa60c;
   span 0xa66f 0xa672; span 0xa674 0xa67d; span 0xa67f 0xa67f; span 0xa69c 0xa69f;
   span 0xa6f0 0xa6f1; span 0xa700 0xa721; span 0xa770 0xa770; span 0xa788 0xa78a;
   span 0xa7f2 0xa7f4; span 0xa7f8 0xa7f9; span 0xa802 0xa802; span 0xa806 0xa806;
   span 0xa80b 0xa80b; span 0xa825 0xa826; span 0xa82c 0xa82c; span 0xa8c4 0xa8c5;
   span 0xa8e0 0xa8f1; span 0xa8ff 0xa8ff; span 0xa926 0xa92d; span 0xa947 0xa951;
   span 0xa980 0xa982; span 0xa9b3 0xa9b3; span 0xa9b6 0xa9b9; span 0xa9bc 0xa9bd;
   span 0xa9cf 0xa9cf; span 0xa9e5 0xa9e6; span 0xaa29 0xaa2e; span 0xaa31 0xaa32;
   span 0xaa35 0xaa36; span 0xaa43 0xaa43; span 0xaa4c 0xaa4c; span 0xaa70 0xaa70;
   span 0xaa7c 0xaa7c; span 0xaab0 0xaab0; span 0xaab2 0xaab4; span 0xaab7 0xaab8;
   span 0xaabe 0xaabf; span 0xaac1 0xaac1; span 0xaadd 0xaadd; span 0xaaec 0xaaed;
   span 0xaaf3 0xaaf4; span 0xaaf6 0xaaf6; span 0xab5b 0xab5f; span 0xab69 0xab6b;
   span 0xabe5 0xabe5; span 0xabe8 0xabe8; span 0xabed 0xabed; span 0xfb1e 0xfb1e;
   span 0xfbb2 0xfbc2; span 0xfe00 0xfe0f; span 0xfe13 0xfe13; span 0xfe20 0xfe2f;
   span 0xfe52 0xfe52; span 0xfe55 0xfe55; span 0xfeff 0xfeff; span 0xff07 0xff07;
   span 0xff0e 0xff0e; span 0xff1a 0xff1a; span 0xff3e 0xff3e; span 0xff40 0xff40;
   span 0xff70 0xff70; span 0xff9e 0xff9f; span 0xffe3 0xffe3; span 0xfff9 0xfffb;
   span 0x101fd 0x101fd; span 0x102e0 0x102e0; span 0x10376 0x1037a; span 0x10780 0x10785;
   span 0x10787 0x107b0; span 0x107b2 0x107ba; span 0x10a01 0x10a03; span 0x10a05 0x10a06;
   span 0x10a0c 0x10a0f; span 0x10a38 0x10a3a; span 0x10a3f 0x10a3f; span 0x10ae5 0x10ae6;
   span 0x10d24 0x10d27; span 0x10eab 0x10eac; span 0x10f46 0x10f50; span 0x10f82 0x10f85;
   span 0x11001 0x11001; span 0x11038 0x11046; span 0x11070 0x11070; span 0x11073 0x11074;
   span 0x1107f 0x11081; span 0x110b3 0x110b6; span 0x110b9 0x110ba; span 0x110bd 0x110bd;
   span 0x110c2 0x110c2; span 0x110cd 0x110cd; span 0x11100 0x11102; span 0x11127 0x1112b;
   span 0x1112d 0x11134; span 0x11173 0x11173; span 0x11180 0x11181; span 0x111b6 0x111be;
   span 0x111c9 0x111cc; span 0x111cf 0x111cf; span 0x1122f 0x11231; span 0x11234 0x11234;
   span 0x11236 0x11237; span 0x1123e 0x1123e; span 0x112df 0x112df; span 0x112e3 0x112ea;
   span 0x11300 0x11301; span 0x1133b 0x1133c; span 0x11340 0x11340; span 0x11366 0x1136c;
   span 0x11370 0x11374; span 0x11438 0x1143f; span 0x11442 0x11444; span 0x11446 0x11446;
   span 0x1145e 0x1145e; span 0x114b3 0x114b8; span 0x114ba 0x114ba; span 0x114bf 0x114c0;
   span 0x114c2 0x114c3; span 0x115b2 0x115b5; span 0x115bc 0x115bd; span 0x115bf 0x115c0;
   span 0x115dc 0x115dd; span 0x11633 0x1163a; span 0x1163d 0x1163d; span 0x1163f 0x11640;
   span 0x116ab 0x116ab; span 0x116ad 0x116ad; span 0x116b0 0x116b5; span 0x116b7 0x116b7;
   span 0x1171d 0x1171f; span 0x11722 0x11725; span 0x11727 0x1172b; span 0x1182f 0x11837;
   span 0x11839 0x1183a; span 0x1193b 0x1193c; span 0x1193e 0x1193e; span 0x11943 0x11943;
   span 0x119d4 0x119d7; span 0x119da 0x119db; span 0x119e0 0x119e0; span 0x11a01 0x11a0a;
   span 0x11a33 0x11a38; span 0x11a3b 0x11a3e; span 0x11a47 0x11a47; span 0x11a51 0x11a56;
   span 0x11a59 0x11a5b; span 0x11a8a 0x11a96; span 0x11a98 0x11a99; span 0x11c30 0x11c36;
   span 0x11c38 0x11c3d; span 0x11c3f 0x11c3f; span 0x11c92 0x11ca7; span 0x11caa 0x11cb0;
   span 0x11cb2 0x11cb3; span 0x11cb5 0x11cb6; span 0x11d31 0x11d36; span 0x11d3a 0x11d3a;
   span 0x11d3c 0x11d3d; span 0x11d3f 0x11d45; span 0x11d47 0x11d47; span 0x11d90 0x11d91;
   span 0x11d95 0x11d95; span 0x11d97 0x11d97; span 0x11ef3 0x11ef4; span 0x13430 0x13438;
   span 0x16af0 0x16af4; span 0x16b30 0x16b36; span 0x16b40 0x16b43; span 0x16f4f 0x16f4f;
   span 0x16f8f 0x16f9f; span 0x16fe0 0x16fe1; span 0x16fe3 0x16fe4; span 0x1aff0 0x1aff3;
   span 0x1aff5 0x1affb; span 0x1affd 0x1affe; span 0x1bc9d 0x1bc9e; span 0x1bca0 0x1bca3;
   span 0x1cf00 0x1cf2d; span 0x1cf30 0x1cf46; span 0x1d167 0x1d169; span 0x1d173 0x1d182;
   span 0x1d185 0x1d18b; span 0x1d1aa 0x1d1ad; span 0x1d242 0x1d244; span 0x1da00 0x1da36;
   span 0x1da3b 0x1da6c; span 0x1da75 0x1da75; span 0x1da84 0x1da84; span 0x1da9b 0x1da9f;
   span 0x1daa1 0x1daaf; span 0x1e000 0x1e006; span 0x1e008 0x1e018; span 0x1e01b 0x1e021;
   span 0x1e023 0x1e024; span 0x1e026 0x1e02a; span 0x1e130 0x1e13d; span 0x1e2ae 0x1e2ae;
   span 0x1e2ec 0x1e2ef; span 0x1e8d0 0x1e8d6; span 0x1e944 0x1e94b; span 0x1f3fb 0x1f3ff;
   span 0xe0001 0xe0001; span 0xe0020 0xe007f; span 0xe0100 0xe01ef
  ].

(** The code points with the property Cased that are not
    Case_Ignorable. *)
Definition casedTable : list (N * N) :=
  [
   span 0x41 0x5a; span 0x61 0x7a; span 0xaa 0xaa; span 0xb5 0xb5;
   span 0xba 0xba; span 0xc0 0xd6; span 0xd8 0xf6; span 0xf8 0x1ba;
   span 0x1bc 0x1bf; span 0x1c4 0x293; span 0x295 0x2af; span 0x370 0x373;
   span 0x376 0x377; span 0x37b 0x37d; span 0x37f 0x37f; span 0x386 0x386;
   span 0x388 0x38a; span 0x38c 0x38c; span 0x38e 0x3a1; span 0x3a3 0x3f5;
   span 0x3f7 0x481; span 0x48a 0x52f; span 0x531 0x556; span 0x560 0x588;
   span 0x10a0 0x10c5; span 0x10c7 0x10c7; span 0x10cd 0x10cd; span 0x10d0 0x10fa;
   span 0x10fd 0x10ff; span 0x13a0 0x13f5; span 0x13f8 0x13fd; span 0x1c80 0x1c88;
   span 0x1c90 0x1cba; span 0x1cbd 0x1cbf; span 0x1d00 0x1d2b; span 0x1d6b 0x1d77;
   span 0x1d79 0x1d9a; span 0x1e00 0x1f15; span 0x1f18 0x1f1d; span 0x1f20 0x1f45;
   span 0x1f48 0x1f4d; span 0x1f50 0x1f57; span 0x1f59 0x1f59; span 0x1f5b 0x1f5b;
   span 0x1f5d 0x1f5d; span 0x1f5f 0x1f7d; span 0x1f80 0x1fb4; span 0x1fb6 0x1fbc;
   span 0x1fbe 0x1fbe; span 0x1fc2 0x1fc4; span 0x1fc6 0x1fcc; span 0x1fd0 0x1fd3;
   span 0x1fd6 0x1fdb; span 0x1fe0 0x1fec; span 0x1ff2 0x1ff4; span 0x1ff6 0x1ffc;
   span 0x2102 0x2102; span 0x2107 0x2107; span 0x210a 0x2113; span 0x2115 0x2115;
   span 0x2119 0x211d; span 0x2124 0x2124; span 0x2126 0x2126; span 0x2128 0x2128;
   span 0x212a 0x212d; span 0x212f 0x2134; span 0x2139 0x2139; span 0x213c 0x213f;
   span 0x2145 0x2149; span 0x214e 0x214e; span 0x2160 0x217f; span 0x2183 0x2184;
   span 0x24b6 0x24e9; span 0x2c00 0x2c7b; span 0x2c7e 0x2ce4; span 0x2ceb 0x2cee;
   span 0x2cf2 0x2cf3; span 0x2d00 0x2d25; span 0x2d27 0x2d27; span 0x2d2d 0x2d2d;
   span 0xa640 0xa66d; span 0xa680 0xa69b; span 0xa722 0xa76f; span 0xa771 0xa787;
   span 0xa78b 0xa78e; span 0xa790 0xa7ca; span 0xa7d0 0xa7d1; span 0xa7d3 0xa7d3;
   span 0xa7d5 0xa7d9; span 0xa7f5 0xa7f6; span 0xa7fa 0xa7fa; span 0xab30 0xab5a;
   span 0xab60 0xab68; span 0xab70 0xabbf; span 0xfb00 0xfb06; span 0xfb13 0xfb17;
   span 0xff21 0xff3a; span 0xff41 0xff5a; span 0x10400 0x1044f; span 0x104b0 0x104d3;
   span 0x104d8 0x104fb; span 0x10570 0x1057a; span 0x1057c 0x1058a; span 0x1058c 0x10592;
   span 0x10594 0x10595; span 0x10597 0x105a1; span 0x105a3 0x105b1; span 0x105b3 0x105b9;
   span 0x105bb 0x105bc; span 0x10c80 0x10cb2; span 0x10cc0 0x10cf2; span 0x118a0 0x118df;
   span 0x16e40 0x16e7f; span 0x1d400 0x1d454; span 0x1d456 0x1d49c; span 0x1d49e 0x1d49f;
   span 0x1d4a2 0x1d4a2; span 0x1d4a5 0x1d4a6; span 0x1d4a9 0x1d4ac; span 0x1d4ae 0x1d4b9;
   span 0x1d4bb 0x1d4bb; span 0x1d4bd 0x1d4c3; span 0x1d4c5 0x1d505; span 0x1d507 0x1d50a;
   span 0x1d50d 0x1d514; span 0x1d516 0x1d51c; span 0x1d51e 0x1d539; span 0x1d53b 0x1d53e;
   span 0x1d540 0x1d544; span 0x1d546 0x1d546; span 0x1d54a 0x1d550; span 0x1d552 0x1d6a5;
   span 0x1d6a8 0x1d6c0; span 0x1d6c2 0x1d6da; span 0x1d6dc 0x1d6fa; span 0x1d6fc 0x1d714;
   span 0x1d716 0x1d734; span 0x1d736 0x1d74e; span 0x1d750 0x1d76e; span 0x1d770 0x1d788;
   span 0x1d78a 0x1d7a8; span 0x1d7aa 0x1d7c2; span 0x1d7c4 0x1d7cb; span 0x1df00 0x1df09;
   span 0x1df0b 0x1df1e; span 0x1e900 0x1e943; span 0x1f130 0x1f149; span 0x1f150 0x1f169;
   span 0x1f170 0x1f189
  ].

Fixpoint mapRange (t : list (N * N * N * Z)) (c : N) : N :=
  match t with
  | [] => c
  | (first, last, step, delta) :: t' =>
      if ((first <=? c) && (c <=? last) && ((c - first) mod step =? 0))%N
      then Z.to_N (Z.of_N c + delta)
      else mapRange t' c
  end.

Fixpoint inSpans (t : list (N * N)) (c : N) : bool :=
  match t with
  | [] => false
  | (first, last) :: t' => ((first <=? c) && (c <=? last))%N || inSpans t' c
  end.

Fixpoint special (t : list (N * list N)) (c : N) : option (list N) :=
  match t with
  | [] => None
  | (k, l) :: t' => if (k =? c)%N then Some l else special t' c
  end.

Definition lowerPoint (c : N) : list N :=
  match special lowerSpecial c with
  | Some l => l
  | None => [mapRange lowerTable c]
  end.

Definition upperPoint (c : N) : list N :=
  match special upperSpecial c with
  | Some l => l
  | None => [mapRange upperTable c]
  end.

(** The first code point that is not Case_Ignorable is a cased letter. *)
Fixpoint casedNext (l : list N) : bool :=
  match l with
  | [] => false
  | c :: l' => if inSpans caseIgnorableTable c then casedNext l' else inSpans casedTable c
  end.

(** Final_Sigma: a cased letter before (closest first in [before]), none
    after, case-ignorable code points aside. *)
Definition finalSigma (before after : list N) : bool :=
  casedNext before && negb (casedNext after).

Fixpoint lowerAll (before : list N) (l : list N) : list N :=
  match l with
  | [] => []
  | c :: rest =>
      (if (c =? 0x3a3)%N
       then [if finalSigma before rest then 0x3c2 else 0x3c3]%N
       else lowerPoint c) ++ lowerAll (c :: before) rest
  end.

Definition continuation (y : N) : bool := ((128 <=? y) && (y <=? 191))%N.

(** The code points of a UTF-8 string. A byte that starts no well-formed
    sequence is kept apart as the number [0x110000 + byte], which is no
    code point and which no table mentions. *)
Fixpoint decode (s : string) : list N :=
  match s with
  | EmptyString => []
  | String a s1 =>
      let x := N_of_ascii a in
      if (x <? 128)%N then x :: decode s1
      else
        match s1 with
        | String b s2 =>
            let y := N_of_ascii b in
            if (x <? 224)%N then
              let cp := ((x - 192) * 64 + (y - 128))%N in
              if ((192 <=? x) && continuation y && (128 <=? cp))%N
              then cp :: decode s2 else (0x110000 + x)%N :: decode s1
            else
              match s2 with
              | String c s3 =>
                  let z := N_of_ascii c in
                  if (x <? 240)%N then
                    let cp := ((x - 224) * 4096 + (y - 128) * 64 + (z - 128))%N in
                    if (continuation y && continuation z && (2048 <=? cp)
                        && negb ((55296 <=? cp) && (cp <=? 57343)))%N
                    then cp :: decode s3 else (0x110000 + x)%N :: decode s1
                  else
                    match s3 with
                    | String d s4 =>
                        let u := N_of_ascii d in
                        let cp := ((x - 240) * 262144 + (y - 128) * 4096
                                   + (z - 128) * 64 + (u - 128))%N in
                        if ((x <? 248) && continuation y && continuation z
                            && continuation u && (65536 <=? cp)
                            && (cp <=? 1114111))%N
                        then cp :: decode s4 else (0x110000 + x)%N :: decode s1
                    | EmptyString => (0x110000 + x)%N :: decode s1
                    end
              | EmptyString => (0x110000 + x)%N :: decode s1
              end
        | EmptyString => (0x110000 + x)%N :: decode s1
        end
  end.

Definition encodePoint (c : N) : string :=
  (if c <? 0x80 then ofBytes [c]
   else if c <? 0x800 then ofBytes [192 + c / 64; 128 + c mod 64]
   else if c <? 0x10000 then
     ofBytes [224 + c / 4096; 128 + (c / 64) mod 64; 128 + c mod 64]
   else if c <? 0x110000 then
     ofBytes [240 + c / 262144; 128 + (c / 4096) mod 64;
              128 + (c / 64) mod 64; 128 + c mod 64]
   else ofBytes [c - 0x110000])%N.

Fixpoint encode (l : list N) : string :=
  match l with
  | [] => EmptyString
  | c :: l' => encodePoint c +:+ encode l'
  end.

(** [String.prototype.toLowerCase] and [toUpperCase]. *)
Definition toLowerCase (s : string) : string :=
  encode (lowerAll [] (decode s)).

Definition toUpperCase (s : string) : string :=
  encode (flat_map upperPoint (decode s)).

Definition isDigit (a : ascii) : bool :=
  let n := N_of_ascii a in ((48 <=? n) && (n <=? 57))%N.

(** The longest prefix of decimal digits, and what follows it. *)
Fixpoint spanDigits (s : string) : string * string :=
  match s with
  | String a s' =>
      if isDigit a
      then let '(d, r) := spanDigits s' in (String a d, r)
      else (EmptyString, s)
  | EmptyString => (EmptyString, EmptyString)
  end.

(** One attempt of the pattern [/\/id\/(\d+)\//] anchored at the start of
    [s]: the group is the whole run of digits, because a shorter run
    would be followed by a digit and not by the closing slash. *)
Definition matchIdAt (s : string) : option string :=
  if startsWith s "/id/" then
    let '(d, r) := spanDigits (dropChars 4 s) in
    match d with
    | EmptyString => None
    | String _ _ => if startsWith r "/" then Some d else None
    end
  else None.

(** [url.match(/\/id\/(\d+)\//)?.[1]]: the group of the leftmost match;
    [None] stands for the [undefined] of a failed match. *)
Fixpoint matchId (s : string) : option string :=
  match matchIdAt s with
  | Some d => Some d
  | None =>
      match s with
      | EmptyString => None
      | String _ s' => matchId s'
      end
  end.

(** Truthiness of a string value. *)
Definition truthy (s : string) : bool :=
  match s with EmptyString => false | String _ _ => true end.

End Js.

(** ** Plain objects as dictionaries *)

Module JsObject.

(** Own properties in creation order; keys are pairwise distinct. *)
Definition t (V : Type) : Type := list (string * V).

Definition empty {V} : t V := [].

(** The value of the own property [k], if there is one. *)
Fixpoint get {V} (o : t V) (k : string) : option V :=
  match o with
  | [] => None
  | (k', v) :: o' => if decide (k' = k) then Some v else get o' k
  end.

Fixpoint define {V} (o : t V) (k : string) (v : V) : t V :=
  match o with
  | [] => [(k, v)]
  | (k', v') :: o' =>
      if decide (k' = k) then (k', v) :: o' else (k', v') :: define o' k v
  end.

(** [o[k] = v] on an object literal: an existing property keeps its
    place, a new one is created last. The key [__proto__] is the
    inherited accessor: assigning to it creates no own property. *)
Definition set {V} (o : t V) (k : string) (v : V) : t V :=
  if decide (k = "__proto__") then o else define o k v.

(** [o[k].push(x)] seen from the object: the array held by the own
    property [k] grows by one element at its end. *)
Fixpoint push {V} (o : t (list V)) (k : string) (x : V) : t (list V) :=
  match o with
  | [] => []
  | (k', l) :: o' =>
      if decide (k' = k) then (k', l ++ [x]) :: o' else (k', l) :: push o' k x
  end.

Fixpoint parseDigits (acc : N) (s : string) : option N :=
  match s with
  | EmptyString => Some acc
  | String a s' =>
      if Js.isDigit a
      then parseDigits (acc * 10 + (N_of_ascii a - 48)) s'
      else None
  end.

(** A property key is an array index when it is the canonical decimal
    form of an integer between 0 and 2^32 - 2. *)
Definition arrayIndex (k : string) : option N :=
  match k with
  | EmptyString => None
  | String a rest =>
      if bool_decide (a = "0"%char) && Js.truthy rest then None
      else match parseDigits 0 k with
           | Some n => if (n <=? 4294967294)%N then Some n else None
           | None => None
           end
  end.

Fixpoint insertByIndex {V} (n : N) (kv : string * V)
    (l : list (N * (string * V))) : list (N * (string * V)) :=
  match l with
  | [] => [(n, kv)]
  | (m, kv') :: l' =>
      if (n <? m)%N then (n, kv) :: l else (m, kv') :: insertByIndex n kv l'
  end.

Fixpoint indexProps {V} (o : t V) : list (N * (string * V)) :=
  match o with
  | [] => []
  | (k, v) :: o' =>
      match arrayIndex k with
      | Some n => insertByIndex n (k, v) (indexProps o')
      | None => indexProps o'
      end
  end.

Fixpoint nameProps {V} (o : t V) : list (string * V) :=
  match o with
  | [] => []
  | (k, v) :: o' =>
      match arrayIndex k with
      | Some _ => nameProps o'
      | None => (k, v) :: nameProps o'
      end
  end.

(** [Object.entries(o)]: array-index keys in ascending numeric order,
    then the other keys in creation order. *)
Definition entries {V} (o : t V) : list (string * V) :=
  map snd (indexProps o) ++ nameProps o.

End JsObject.

(** ** The document as the selectors see it *)

Module Dom.

(** The content of a table cell, in document order: text, and anchors
    with their [href] attribute (if any) and their text. *)
Inductive Inline :=
| Text (s : string)
| Anchor (href : option string) (s : string).

Definition Cell := list Inline.

Definition inlineText (i : Inline) : string :=
  match i with Text s => s | Anchor _ s => s end.

(** [$cell.text()]: the text of everything inside the cell. *)
Fixpoint cellText (c : Cell) : string :=
  match c with
  | [] => ""
  | i :: c' => inlineText i +:+ cellText c'
  end.

(** [$cell.find('a')]. *)
Fixpoint findA (c : Cell) : list (option string * string) :=
  match c with
  | [] => []
  | Text _ :: c' => findA c'
  | Anchor h s :: c' => (h, s) :: findA c'
  end.

(** [$link.text()]: the texts of all selected anchors, joined. *)
Fixpoint linkText (l : list (option string * string)) : string :=
  match l with
  | [] => ""
  | (_, s) :: l' => s +:+ linkText l'
  end.

(** [$link.attr('href')]: the attribute of the first selected anchor;
    [None] is [undefined]. *)
Definition attrHref (l : list (option string * string)) : option string :=
  match l with
  | [] => None
  | (h, _) :: _ => h
  end.

(** An element of class [Table]: the [th] texts of each of its
    [thead tr] rows and the [td] cells of each of its [tbody tr] rows. *)
Record Table := {
  theadRows : list (list string);
  tbodyRows : list (list Cell)
}.

(** What [cheerio.load] leaves for the selector [$('.Table')]. *)
Definition Page := list Table.

(** [table.find('thead tr').first().find('th')]. *)
Definition firstHeaderCells (table : Page) : list string :=
  match flat_map theadRows table with
  | [] => []
  | r :: _ => r
  end.

(** [table.find('tbody tr')]. *)
Definition bodyRows (table : Page) : list (list Cell) :=
  flat_map tbodyRows table.

End Dom.

(** ** Effects: the clock and the network *)

Module Runtime.

(** What the outside world answers: the value of the [n]-th reading of
    the clock (milliseconds), and the document obtained by the [n]-th
    HTTP request for a URL ([None] when the request fails). *)
Record World := {
  clock : nat -> Z;
  fetch : nat -> string -> option Dom.Page
}.

(** What the process has done so far: the number of clock readings and
    the URLs requested, oldest first. *)
Record Io := {
  clockReads : nat;
  requests : list string
}.

Definition M (S A : Type) : Type := S -> A * S.

Definition ret {S A} (a : A) : M S A := fun s => (a, s).

Definition bind {S A B} (m : M S A) (k : A -> M S B) : M S B :=
  fun s => let '(a, s') := m s in k a s'.

(** [Date.now()] and [new Date()]. *)
Definition now (w : World) : M Io Z :=
  fun s => (clock w (clockReads s),
            {| clockReads := S (clockReads s); requests := requests s |}).

(** [axios.get(url, ...)], already passed through [cheerio.load]. *)
Definition axiosGet (w : World) (url : string) : M Io (option Dom.Page) :=
  fun s => (fetch w (length (requests s)) url,
            {| clockReads := clockReads s; requests := requests s ++ [url] |}).

End Runtime.

Notation "'let*' x ':=' m 'in' k" := (Runtime.bind m (fun x => k))
  (at level 10, x name, m at level 100, k at level 200).

(** ** espn-depth-scraper.js *)

Module Scraper.
Import Runtime.

Inductive EspnId :=
| IdString (s : string)
| IdNull
| IdUndefined.

Record DepthEntry := {
  depth : Z;
  name : string;
  espnId : EspnId;
  injuryStatus : option string
}.

(** [timestamp] is the instant that the source renders with
    [toISOString], kept in milliseconds. *)
Record DepthChart := {
  team : string;
  timestamp : Z;
  positions : JsObject.t (list DepthEntry)
}.

Record BackupInfo := {
  position : string;
  injuredPlayer : option DepthEntry;
  primaryBackup : option DepthEntry;
  allBackups : list DepthEntry
}.

(** A thrown value: the rejection of the HTTP request, or
    [new Error(message)]. *)
Inductive JsError :=
| RequestFailed
| Error (message : string).

(** The callback of the header loop, lines 45-50. *)
Fixpoint eachTh (ths : list string) (positions : list string) : list string :=
  match ths with
  | [] => positions
  | el :: rest =>
      let text := Js.trim el in
      if Js.truthy text
         && negb (bool_decide (text = "Starter"))
         && negb (bool_decide (text = "2nd"))
         && negb (bool_decide (text = "3rd"))
         && negb (bool_decide (text = "4th"))
         && negb (bool_decide (text = "5th"))
      then eachTh rest (positions ++ [text])
      else eachTh rest positions
  end.

(** Lines 64-70: the entry read from a cell that holds a link. *)
Definition playerOfCell (colIndex : nat) (cell : Dom.Cell)
    (link : list (option string * string)) : DepthEntry :=
  let playerName := Js.trim (Dom.linkText link) in
  let playerUrl := Dom.attrHref link in
  let playerId :=
    match playerUrl with
    | Some u =>
        if Js.truthy u
        then match Js.matchId u with
             | Some d => IdString d
             | None => IdUndefined
             end
        else IdNull
    | None => IdNull
    end in
  let injuryStatus :=
    if Js.includes (Dom.cellText cell) "O" then Some "OUT"
    else if Js.includes (Dom.cellText cell) "DD" then Some "DAY-TO-DAY"
    else None in
  {| depth := Z.of_nat colIndex + 1;
     name := playerName;
     espnId := playerId;
     injuryStatus := injuryStatus |}.

(** The callback of the cell loop, lines 59-79, on the positions object. *)
Fixpoint eachTd (colIndex : nat) (cells : list Dom.Cell) (position : string)
    (o : JsObject.t (list DepthEntry)) : JsObject.t (list DepthEntry) :=
  match cells with
  | [] => o
  | cell :: rest =>
      let link := Dom.findA cell in
      match link with
      | _ :: _ =>
          eachTd (S colIndex) rest position
            (JsObject.push o position (playerOfCell colIndex cell link))
      | [] => eachTd (S colIndex) rest position o
      end
  end.

(** The callback of the row loop, lines 53-80. *)
Fixpoint eachTr (rowIndex : nat) (rows : list (list Dom.Cell))
    (positions : list string) (o : JsObject.t (list DepthEntry))
    : JsObject.t (list DepthEntry) :=
  match rows with
  | [] => o
  | row :: rest =>
      match positions !! rowIndex with
      | Some position =>
          if Js.truthy position
          then eachTr (S rowIndex) rest positions
                 (eachTd 0 row position (JsObject.set o position []))
          else eachTr (S rowIndex) rest positions o
      | None => eachTr (S rowIndex) rest positions o
      end
  end.

Definition depthUrl (teamAbbr : string) : string :=
  "https://www.espn.com/nba/team/depth/_/name/" +:+ teamAbbr.

(** [scrapeESPNDepthChart]: a thrown error is the left injection (the
    [catch] block logs and rethrows). *)
Definition scrapeESPNDepthChart (w : World) (teamAbbr : string)
    : M Io (JsError + DepthChart) :=
  let* response := axiosGet w (depthUrl teamAbbr) in
  match response with
  | None => ret (inl RequestFailed)
  | Some table =>
      let* date := now w in
      match table with
      | [] => ret (inl (Error "Could not find depth chart table"))
      | _ :: _ =>
          let positions := eachTh (Dom.firstHeaderCells table) [] in
          ret (inr {| team := Js.toUpperCase teamAbbr;
                      timestamp := date;
                      positions := eachTr 0 (Dom.bodyRows table) positions
                                     JsObject.empty |})
      end
  end.

(** [players.findIndex(pred)]; [None] is the result -1. *)
Fixpoint findIndex {A} (pred : A -> bool) (l : list A) : option nat :=
  match l with
  | [] => None
  | x :: l' =>
      if pred x then Some O
      else match findIndex pred l' with
           | Some i => Some (S i)
           | None => None
           end
  end.

(** [players.slice(from, to)] for [0 <= from <= to]. *)
Definition slice {A} (l : list A) (from to : nat) : list A :=
  take (to - from) (drop from l).

(** The predicate given to [findIndex], line 114. *)
Definition nameMatches (playerName : string) (p : DepthEntry) : bool :=
  Js.includes (Js.toLowerCase (name p)) (Js.toLowerCase playerName).

(** The loop of [getBackupForPlayer] over [Object.entries]. *)
Fixpoint scanEntries (entries : list (string * list DepthEntry))
    (playerName : string) : option BackupInfo :=
  match entries with
  | [] => None
  | (position, players) :: rest =>
      match findIndex (nameMatches playerName) players with
      | Some playerIndex =>
          let player := players !! playerIndex in
          let backup := players !! (playerIndex + 1)%nat in
          Some {| position := position;
                  injuredPlayer := player;
                  primaryBackup := backup;
                  allBackups := slice players (playerIndex + 1) (playerIndex + 4) |}
      | None => scanEntries rest playerName
      end
  end.

(** [getBackupForPlayer]; [None] is [null]. *)
Definition getBackupForPlayer (depthChart : DepthChart) (playerName : string)
    : option BackupInfo :=
  scanEntries (JsObject.entries (positions depthChart)) playerName.

(** The table [TEAMS], lines 9-16: abbreviation to ESPN code, in the
    order of the literal. *)
Definition TEAMS : JsObject.t string :=
  [("ATL", "atl"); ("BOS", "bos"); ("BKN", "bkn"); ("CHA", "cha"); ("CHI", "chi");
   ("CLE", "cle"); ("DAL", "dal"); ("DEN", "den"); ("DET", "det"); ("GSW", "gs");
   ("HOU", "hou"); ("IND", "ind"); ("LAC", "lac"); ("LAL", "lal"); ("MEM", "mem");
   ("MIA", "mia"); ("MIL", "mil"); ("MIN", "min"); ("NOP", "no"); ("NYK", "ny");
   ("OKC", "okc"); ("ORL", "orl"); ("PHI", "phi"); ("PHX", "phx"); ("POR", "por");
   ("SAC", "sac"); ("SAS", "sa"); ("TOR", "tor"); ("UTA", "utah"); ("WAS", "wsh")].

(** The trace of a bulk run: the clock and the network as before, and
    the delays awaited with [setTimeout], oldest first. *)
Record Bulk := {
  bulkIo : Io;
  timers : list Z
}.

Definition liftBulk {A} (m : M Io A) : M Bulk A :=
  fun s => let '(a, i) := m (bulkIo s) in
           (a, {| bulkIo := i; timers := timers s |}).

(** [await new Promise(resolve => setTimeout(resolve, ms))]. *)
Definition sleep (ms : Z) : M Bulk unit :=
  fun s => (tt, {| bulkIo := bulkIo s; timers := timers s ++ [ms] |}).

(** The loop of [scrapeAllTeams], lines 93-105. The object
    [{ error: error.message }] stored for a team whose scrape threw is
    the left injection of the thrown error. *)
Fixpoint eachTeam (w : World) (teams : list (string * string))
    (allDepthCharts : JsObject.t (JsError + DepthChart))
    : M Bulk (JsObject.t (JsError + DepthChart)) :=
  match teams with
  | [] => ret allDepthCharts
  | (abbr, espnCode) :: rest =>
      let* result := liftBulk (scrapeESPNDepthChart w espnCode) in
      match result with
      | inr depthChart =>
          let stored := JsObject.set allDepthCharts abbr (inr depthChart) in
          let* _ := sleep 2000 in
          eachTeam w rest stored
      | inl error =>
          eachTeam w rest (JsObject.set allDepthCharts abbr (inl error))
      end
  end.

(** [scrapeAllTeams]. *)
Definition scrapeAllTeams (w : World)
    : M Bulk (JsObject.t (JsError + DepthChart)) :=
  eachTeam w (JsObject.entries TEAMS) JsObject.empty.

End Scraper.

(** ** depth-chart-integration.js *)

Module Integration.
Import Runtime.

(** The table [TEAM_ID_TO_ESPN], keyed by the numeric team id. *)
Definition TEAM_ID_TO_ESPN (teamId : Z) : option string :=
  match teamId with
  | 1 => Some "atl" | 2 => Some "bos" | 3 => Some "bkn" | 4 => Some "cha"
  | 5 => Some "chi" | 6 => Some "cle" | 7 => Some "dal" | 8 => Some "den"
  | 9 => Some "det" | 10 => Some "gs" | 11 => Some "hou" | 12 => Some "ind"
  | 13 => Some "lac" | 14 => Some "lal" | 15 => Some "mem" | 16 => Some "mia"
  | 17 => Some "mil" | 18 => Some "min" | 19 => Some "no" | 20 => Some "ny"
  | 21 => Some "okc" | 22 => Some "orl" | 23 => Some "phi" | 24 => Some "phx"
  | 25 => Some "por" | 26 => Some "sac" | 27 => Some "sa" | 28 => Some "tor"
  | 29 => Some "utah" | 30 => Some "wsh"
  | _ => None
  end%Z.

Definition CACHE_TTL : Z := 6 * 60 * 60 * 1000.

Record CacheRecord := {
  data : Scraper.DepthChart;
  timestamp : Z
}.

(** The state of the process: the module-level [depthChartCache] and
    the trace of effects. *)
Record Proc := {
  depthChartCache : gmap string CacheRecord;
  io : Io
}.

Definition liftIo {A} (m : M Io A) : M Proc A :=
  fun s => let '(a, i) := m (io s) in
           (a, {| depthChartCache := depthChartCache s; io := i |}).

Definition cacheGet (cacheKey : string) : M Proc (option CacheRecord) :=
  fun s => (depthChartCache s !! cacheKey, s).

Definition cacheSet (cacheKey : string) (r : CacheRecord) : M Proc unit :=
  fun s => (tt, {| depthChartCache := <[cacheKey := r]> (depthChartCache s);
                   io := io s |}).

(** The miss branch, lines 28-38. *)
Definition refresh (w : World) (espnCode : string)
    : M Proc (option Scraper.DepthChart) :=
  let* result := liftIo (Scraper.scrapeESPNDepthChart w espnCode) in
  match result with
  | inr depthChart =>
      let* t := liftIo (now w) in
      let* _ := cacheSet espnCode {| data := depthChart; timestamp := t |} in
      ret (Some depthChart)
  | inl _ => ret None
  end.

(** [getTeamDepthChart]; [None] is [null]. The clock is read only when
    the key has a record ([cached && ...]). *)
Definition getTeamDepthChart (w : World) (teamId : Z)
    : M Proc (option Scraper.DepthChart) :=
  match TEAM_ID_TO_ESPN teamId with
  | None => ret None
  | Some espnCode =>
      let cacheKey := espnCode in
      let* cached := cacheGet cacheKey in
      match cached with
      | Some c =>
          let* t := liftIo (now w) in
          if (t - timestamp c <? CACHE_TTL)%Z
          then ret (Some (data c))
          else refresh w espnCode
      | None => refresh w espnCode
      end
  end.

End Integration.

(** ** depth-chart-integration.js: the backup lookup for a player *)

Module Backups.
Import Runtime.

(** The fields of a balldontlie player that the lookup reads; a missing
    [team_id] is [None]. *)
Record Player := {
  team_id : option Z;
  first_name : string;
  last_name : string
}.

(** The object [{ name, depth, espnId }] built for a backup. *)
Record BackupRef := {
  name : string;
  depth : Z;
  espnId : Scraper.EspnId
}.

(** The object returned by [getBackupsFromDepthChart]; its field [depth]
    is [injuredDepth] here. *)
Record Summary := {
  position : string;
  injuredDepth : Z;
  primaryBackup : option BackupRef;
  allBackups : list BackupRef
}.

Definition refOf (b : Scraper.DepthEntry) : BackupRef :=
  {| name := Scraper.name b;
     depth := Scraper.depth b;
     espnId := Scraper.espnId b |}.

(** [getBackupsFromDepthChart], lines 42-73; [None] is [null]. Reading
    [depth] of an undefined [injuredPlayer] throws, and the [catch] block
    turns that into [null]. *)
Definition getBackupsFromDepthChart (w : World) (player : Player)
    : M Integration.Proc (option Summary) :=
  match team_id player with
  | None => ret None
  | Some teamId =>
      if (teamId =? 0)%Z then ret None
      else
        let* depthChart := Integration.getTeamDepthChart w teamId in
        match depthChart with
        | None => ret None
        | Some chart =>
            let playerName := first_name player +:+ " " +:+ last_name player in
            match Scraper.getBackupForPlayer chart playerName with
            | None => ret None
            | Some backupInfo =>
                match Scraper.injuredPlayer backupInfo with
                | Some injured =>
                    ret (Some {| position := Scraper.position backupInfo;
                                 injuredDepth := Scraper.depth injured;
                                 primaryBackup :=
                                   refOf <$> Scraper.primaryBackup backupInfo;
                                 allBackups :=
                                   refOf <$> Scraper.allBackups backupInfo |})
                | None => ret None
                end
            end
        end
  end.

End Backups.

(** * Vocabulary of the statements *)

Import Scraper.

(** [t] occurs in [s]. *)
Definition Substring (t s : string) : Prop :=
  ∃ a b : string, s = a +:+ t +:+ b.

(** The name of [e] contains [playerName], case aside. *)
Definition Matches (playerName : string) (e : DepthEntry) : Prop :=
  Substring (Js.toLowerCase playerName) (Js.toLowerCase (name e)).

(** The case mapping of the ASCII letters, byte by byte, and the strings
    made of ASCII bytes only. *)
Definition lowerChar (a : ascii) : ascii :=
  let n := N_of_ascii a in
  if ((65 <=? n) && (n <=? 90))%N then ascii_of_N (n + 32) else a.

Definition upperChar (a : ascii) : ascii :=
  let n := N_of_ascii a in
  if ((97 <=? n) && (n <=? 122))%N then ascii_of_N (n - 32) else a.

Fixpoint mapChars (f : ascii -> ascii) (s : string) : string :=
  match s with
  | EmptyString => EmptyString
  | String a s' => String (f a) (mapChars f s')
  end.

Fixpoint isAscii (s : string) : bool :=
  match s with
  | EmptyString => true
  | String a s' => (N_of_ascii a <? 128)%N && isAscii s'
  end.

(** A run of the tokens [ws], and a run of white-space code points. *)
Inductive Run (ws : list string) : string → Prop :=
| Run_nil : Run ws ""
| Run_cons (w s : string) : w ∈ ws → Run ws s → Run ws (w +:+ s).

Definition AllWhite : string → Prop := Run Js.whiteSpace.

(** [t] is [s] without the white space at its two ends. *)
Definition Trimmed (t s : string) : Prop :=
  (∃ pre post, s = pre +:+ t +:+ post ∧ AllWhite pre ∧ AllWhite post) ∧
  ∀ w, w ∈ Js.whiteSpace → (¬ ∃ r, t = w +:+ r) ∧ (¬ ∃ r, t = r +:+ w).

(** The rank labels of the header, which are not position labels. *)
Definition rankTokens : list string := ["Starter"; "2nd"; "3rd"; "4th"; "5th"].

Definition PositionLabel (text : string) : Prop :=
  text ≠ "" ∧ text ∉ rankTokens.

(** The entries of a row: one for each cell that holds a link, in cell
    order, numbered by the column of the cell ([colIndex] is the column of
    the first cell). *)
Fixpoint rowEntries (colIndex : nat) (cells : list Dom.Cell) : list DepthEntry :=
  match cells with
  | [] => []
  | cell :: rest =>
      match Dom.findA cell with
      | _ :: _ =>
          playerOfCell colIndex cell (Dom.findA cell) :: rowEntries (S colIndex) rest
      | [] => rowEntries (S colIndex) rest
      end
  end.

(** The row callback applied to a labelled row. *)
Definition rowStep (o : JsObject.t (list DepthEntry))
    (lr : string * list Dom.Cell) : JsObject.t (list DepthEntry) :=
  eachTd 0 lr.2 lr.1 (JsObject.set o lr.1 []).

(** Consecutive ranks 1, 2, 3, ... *)
Definition ConsecutiveFromOne (es : list DepthEntry) : Prop :=
  depth <$> es = Z.of_nat <$> seq 1 (length es).

(** ** Sample documents and charts *)

Definition playerCell (id text : string) : Dom.Cell :=
  [Dom.Anchor (Some ("https://www.espn.com/nba/player/_/id/" +:+ id +:+ "/p")) text].

(** A row whose second slot is empty. *)
Definition gapRow : list Dom.Cell :=
  [playerCell "4869342" "Dyson Daniels"; [];
   playerCell "4279118" "Keaton Wallace"].

Definition gapPage : Dom.Page :=
  [{| Dom.theadRows := [["PG"]]; Dom.tbodyRows := [gapRow] |}].


(** A world whose clock starts at [t] and advances by one millisecond per
    reading, and whose every request is answered by [answer]. *)
Definition steadyWorld (t : Z) (answer : option Dom.Page) : Runtime.World :=
  {| Runtime.clock := λ n, (t + Z.of_nat n)%Z;
     Runtime.fetch := λ _ _, answer |}.

Definition freshIo : Runtime.Io :=
  {| Runtime.clockReads := 0; Runtime.requests := [] |}.

Definition entryOf (d : Z) (n : string) : DepthEntry :=
  {| depth := d; name := n; espnId := IdNull; injuryStatus := None |}.

(** The point guards of the end-to-end scenario, and one more position. *)
Definition sampleChart : DepthChart :=
  {| team := "ATL";
     timestamp := 0;
     positions :=
       [("PG", [entryOf 1 "Dyson Daniels"; entryOf 2 "Keaton Wallace";
                entryOf 5 "Trae Young"]);
        ("SG", [entryOf 1 "Nickeil Alexander-Walker"])] |}.

(** The trace after one more reading of the clock. *)
Definition afterClockRead (i : Runtime.Io) : Runtime.Io :=
  {| Runtime.clockReads := S (Runtime.clockReads i);
     Runtime.requests := Runtime.requests i |}.

(** A process whose cache holds [sampleChart] for Atlanta, stored at
    instant 1000, and which has done nothing else yet. *)
Definition cachedProc : Integration.Proc :=
  {| Integration.depthChartCache :=
       {[ "atl" := {| Integration.data := sampleChart;
                      Integration.timestamp := 1000 |} ]};
     Integration.io := freshIo |}.

(** ** Vocabulary of the further properties *)

(** The body rows that the row loop reads, each with its label. *)
Definition labelledRows (table : Dom.Page) : list (string * list Dom.Cell) :=
  zip (filter PositionLabel (Js.trim <$> Dom.firstHeaderCells table))
      (Dom.bodyRows table).

(** A table with two rows under the same label and a row without links. *)
Definition repeatedLabelPage : Dom.Page :=
  [{| Dom.theadRows := [["PG"; "C"; "PG"]];
      Dom.tbodyRows :=
        [gapRow; [[]; []]; [playerCell "4277905" "Trae Young"]] |}].

(** A table whose labels are distinct names. *)
Definition twoPositionPage : Dom.Page :=
  [{| Dom.theadRows := [["PG"; "SG"; "Starter"]];
      Dom.tbodyRows :=
        [gapRow; [playerCell "4278039" "Nickeil Alexander-Walker"]] |}].

(** Every character of [s] is a decimal digit. *)
Fixpoint allDigits (s : string) : bool :=
  match s with
  | EmptyString => true
  | String a s' => Js.isDigit a && allDigits s'
  end.

(** The character [c] occurs in [s]. *)
Fixpoint hasChar (c : ascii) (s : string) : bool :=
  match s with
  | EmptyString => false
  | String a s' => bool_decide (a = c) || hasChar c s'
  end.

(** A healthy player whose name has a capital O. *)
Definition capitalOPage : Dom.Page :=
  [{| Dom.theadRows := [["C"]];
      Dom.tbodyRows := [[playerCell "4431680" "Onyeka Okongwu"]] |}].

(** What the scraper returns for [gapPage] at instant 0, and the trace it
    leaves behind. *)
Definition gapStarter : DepthEntry :=
  {| depth := 1; name := "Dyson Daniels";
     espnId := IdString "4869342"; injuryStatus := None |}.

Definition gapThird : DepthEntry :=
  {| depth := 3; name := "Keaton Wallace";
     espnId := IdString "4279118"; injuryStatus := None |}.

Definition gapChart : DepthChart :=
  {| team := "ATL";
     timestamp := 0;
     positions := [("PG", [gapStarter; gapThird])] |}.

Definition oneScrapeIo : Runtime.Io :=
  {| Runtime.clockReads := 1; Runtime.requests := [depthUrl "atl"] |}.

(** The depths of every sequence of the chart are strictly increasing. *)
Definition SortedChart (chart : DepthChart) : Prop :=
  ∀ pos es, (pos, es) ∈ positions chart → StronglySorted Z.lt (depth <$> es).

(** Every record of the cache holds, under an ESPN code, a chart of that
    team with sorted sequences. *)
Definition CacheOfScrapes (cache : gmap string Integration.CacheRecord) : Prop :=
  ∀ k c, cache !! k = Some c →
         team (Integration.data c) = Js.toUpperCase k ∧
         SortedChart (Integration.data c).

(** A process that has done nothing yet: empty cache, empty trace. *)
Definition freshProc : Integration.Proc :=
  {| Integration.depthChartCache := ∅; Integration.io := freshIo |}.

(** [freshProc] after one successful lookup of Atlanta in the world
    [steadyWorld 0 (Some gapPage)]. *)
Definition gapProc : Integration.Proc :=
  {| Integration.depthChartCache :=
       {[ "atl" := {| Integration.data := gapChart;
                      Integration.timestamp := 1 |} ]};
     Integration.io :=
       {| Runtime.clockReads := 2; Runtime.requests := [depthUrl "atl"] |} |}.

(** The name under which [getBackupsFromDepthChart] looks a player up. *)
Definition fullName (player : Backups.Player) : string :=
  Backups.first_name player +:+ " " +:+ Backups.last_name player.

Definition dysonDaniels : Backups.Player :=
  {| Backups.team_id := Some 1%Z;
     Backups.first_name := "Dyson";
     Backups.last_name := "Daniels" |}.

(** What the lookup answers for [dysonDaniels] on [gapChart]. *)
Definition dysonSummary : Backups.Summary :=
  {| Backups.position := "PG";
     Backups.injuredDepth := 1;
     Backups.primaryBackup := Some (Backups.refOf gapThird);
     Backups.allBackups := [Backups.refOf gapThird] |}.

(** The charts among the outcomes of a bulk run. *)
Fixpoint chartsOf (outcomes : list (JsError + DepthChart)) : list DepthChart :=
  match outcomes with
  | [] => []
  | inr chart :: rest => chart :: chartsOf rest
  | inl _ :: rest => chartsOf rest
  end.

(** A bulk run that has done nothing yet. *)
Definition freshBulk : Bulk := {| bulkIo := freshIo; timers := [] |}.

(** The chart stored for Golden State by a bulk run in the world
    [steadyWorld 0 (Some gapPage)]: the tenth scrape, at instant 9. *)
Definition goldenStateChart : DepthChart :=
  {| team := "GS"; timestamp := 9; positions := positions gapChart |}.

(** A chart with a name outside ASCII, and a header whose cells are
    padded with white space, some of it outside ASCII. *)
Definition dallasChart : DepthChart :=
  {| team := "DAL";
     timestamp := 0;
     positions :=
       [("PG", [entryOf 1 "Luka Dončić"; entryOf 2 "Kyrie Irving"])] |}.

Definition nbsp : string := Js.ofBytes [194; 160]%N.

Definition tab : string := Js.ofBytes [9]%N.


(** * Properties *)

(** ** Substrings *)

Lemma append_cons (c : ascii) (s t : string) :
  String c s +:+ t = String c (s +:+ t).
Proof. reflexivity. Qed.

Lemma append_empty_l (s : string) : "" +:+ s = s.
Proof. reflexivity. Qed.

Lemma startsWith_spec (s p : string) :
  Js.startsWith s p = true ↔ ∃ b, s = p +:+ b.
Proof.
  revert s. induction p as [|c p IH]; intros s; simpl.
  - split; [intros _; by exists s | done].
  - destruct s as [|a s].
    + split; [done | intros [b Hb]; by rewrite append_cons in Hb].
    + rewrite andb_true_iff, bool_decide_eq_true, IH. split.
      * intros [-> [b ->]]. by exists b.
      * intros [b Hb]. rewrite append_cons in Hb.
        injection Hb as -> ->. eauto.
Qed.

Lemma includes_spec (s t : string) :
  Js.includes s t = true ↔ Substring t s.
Proof.
  unfold Substring. induction s as [|c s IH]; simpl.
  - rewrite orb_false_r, startsWith_spec. split.
    + intros [b Hb]. by exists "", b.
    + intros [[|a0 a] [b Hb]]; [by exists b | by rewrite append_cons in Hb].
  - rewrite orb_true_iff, startsWith_spec, IH. split.
    + intros [[b Hb] | (a & b & ->)].
      * by exists "", b.
      * by exists (String c a), b.
    + intros [[|a0 a] [b Hb]].
      * left. by exists b.
      * right. rewrite append_cons in Hb. injection Hb as -> ->. eauto.
Qed.

Lemma includes_empty (s : string) : Js.includes s "" = true.
Proof. destruct s; reflexivity. Qed.

(** ** Strings: reversal, trimming and the ASCII letters *)

Lemma append_nil_r (s : string) : s +:+ "" = s.
Proof. induction s as [|a s IH]; [done|]. by rewrite append_cons, IH. Qed.

Lemma append_assoc (a b c : string) : (a +:+ b) +:+ c = a +:+ b +:+ c.
Proof. induction a as [|x a IH]; [done|]. by rewrite !append_cons, IH. Qed.

Lemma length_append (s t : string) :
  String.length (s +:+ t) = (String.length s + String.length t)%nat.
Proof. induction s as [|a s IH]; [done|]. rewrite append_cons. simpl. by rewrite IH. Qed.

Lemma rev_app_eq (s t : string) : String.rev_app s t = String.rev s +:+ t.
Proof.
  unfold String.rev. revert t. induction s as [|a s IH]; intros t; simpl; [done|].
  rewrite (IH (String a t)), (IH (String a "")). by rewrite append_assoc.
Qed.

Lemma rev_cons (a : ascii) (s : string) :
  String.rev (String a s) = String.rev s +:+ String a "".
Proof. unfold String.rev at 1. simpl. apply rev_app_eq. Qed.

Lemma rev_append (s t : string) :
  String.rev (s +:+ t) = String.rev t +:+ String.rev s.
Proof.
  induction s as [|a s IH].
  - by rewrite append_empty_l, append_nil_r.
  - by rewrite append_cons, !rev_cons, IH, append_assoc.
Qed.

Lemma rev_involutive (s : string) : String.rev (String.rev s) = s.
Proof.
  induction s as [|a s IH]; [done|].
  by rewrite rev_cons, rev_append, IH.
Qed.

Lemma rev_length (s : string) : String.length (String.rev s) = String.length s.
Proof.
  induction s as [|a s IH]; [done|].
  rewrite rev_cons, length_append, IH. simpl. lia.
Qed.

Lemma dropChars_append (w b : string) :
  Js.dropChars (String.length w) (w +:+ b) = b.
Proof. induction w as [|a w IH]; [done|]. by rewrite append_cons. Qed.

Lemma stripOne_Some (ws : list string) (s r : string) :
  Js.stripOne ws s = Some r → ∃ w, w ∈ ws ∧ s = w +:+ r.
Proof.
  induction ws as [|w ws IH]; simpl; [done|].
  destruct (Js.startsWith s w) eqn:Hw.
  - intros [= <-]. apply startsWith_spec in Hw as [b ->].
    exists w. split; [apply list_elem_of_here|]. by rewrite dropChars_append.
  - intros (w' & Hin & ->)%IH. exists w'. split; [|done].
    apply elem_of_cons. by right.
Qed.

Lemma stripOne_None (ws : list string) (s : string) :
  Js.stripOne ws s = None → ∀ w, w ∈ ws → ¬ ∃ r, s = w +:+ r.
Proof.
  induction ws as [|w ws IH]; simpl.
  - by intros _ w ?%elem_of_nil.
  - destruct (Js.startsWith s w) eqn:Hw; [done|].
    intros Hn w' [->|Hin]%elem_of_cons Hr.
    + apply startsWith_spec in Hr. congruence.
    + by apply (IH Hn w').
Qed.

Lemma Run_snoc (ws : list string) (a w : string) :
  Run ws a → w ∈ ws → Run ws (a +:+ w).
Proof.
  intros Ha Hw. induction Ha as [|w' s Hw' Hs IH].
  - rewrite append_empty_l, <- (append_nil_r w). by repeat constructor.
  - rewrite append_assoc. by constructor.
Qed.

Lemma Run_rev (ws : list string) (a : string) :
  Run (String.rev <$> ws) a → Run ws (String.rev a).
Proof.
  induction 1 as [|w' s Hw' Hs IH]; [constructor|].
  apply list_elem_of_fmap in Hw' as (w & -> & Hw).
  rewrite rev_append, rev_involutive. by apply Run_snoc.
Qed.

(** The bound of [stripAll] is enough once it reaches the length, and
    what is cut off is a run of tokens. *)
Lemma stripAll_spec (ws : list string) (n : nat) (s : string) :
  Forall (λ w, w ≠ "") ws →
  (String.length s ≤ n)%nat →
  ∃ pre, s = pre +:+ Js.stripAll ws n s ∧ Run ws pre ∧
         Js.stripOne ws (Js.stripAll ws n s) = None.
Proof.
  intros Hne. revert s. induction n as [|n IH]; intros s Hlen; simpl.
  - destruct s; [|simpl in Hlen; lia]. exists "". repeat split; [constructor|].
    clear Hlen. induction Hne as [|w ws Hw _ IHws]; simpl; [done|].
    by destruct w.
  - destruct (Js.stripOne ws s) as [r|] eqn:Hs.
    + apply stripOne_Some in Hs as (w & Hin & ->).
      assert (Hw : w ≠ "") by (by apply (proj1 (Forall_forall _ _) Hne)).
      destruct (IH r) as (pre & Hr & Hpre & Hnone).
      { rewrite length_append in Hlen. destruct w; [done|]. simpl in Hlen. lia. }
      exists (w +:+ pre). rewrite append_assoc, <- Hr. repeat split; [|done].
      by constructor.
    + exists "". repeat split; [constructor | done].
Qed.

Lemma whiteSpace_nonempty : Forall (λ w, w ≠ "") Js.whiteSpace.
Proof. unfold Js.whiteSpace. simpl. repeat constructor; discriminate. Qed.

Lemma whiteSpace_rev_nonempty : Forall (λ w, w ≠ "") (String.rev <$> Js.whiteSpace).
Proof.
  apply Forall_fmap. eapply Forall_impl; [apply whiteSpace_nonempty|].
  intros w Hw Hrev. apply Hw. simpl in Hrev.
  apply (f_equal String.length) in Hrev. rewrite rev_length in Hrev. by destruct w.
Qed.

Lemma trimStart_spec (s : string) :
  ∃ pre, s = pre +:+ Js.trimStart s ∧ AllWhite pre ∧
         ∀ w, w ∈ Js.whiteSpace → ¬ ∃ r, Js.trimStart s = w +:+ r.
Proof.
  destruct (stripAll_spec Js.whiteSpace (String.length s) s whiteSpace_nonempty)
    as (pre & Hs & Hpre & Hnone); [done|].
  exists pre. repeat split; [done..|]. by apply stripOne_None.
Qed.

Lemma trimEnd_spec (s : string) :
  ∃ post, s = Js.trimEnd s +:+ post ∧ AllWhite post ∧
          ∀ w, w ∈ Js.whiteSpace → ¬ ∃ r, Js.trimEnd s = r +:+ w.
Proof.
  unfold Js.trimEnd.
  destruct (stripAll_spec (String.rev <$> Js.whiteSpace) (String.length s)
              (String.rev s) whiteSpace_rev_nonempty)
    as (pre & Hs & Hpre & Hnone); [by rewrite rev_length|].
  exists (String.rev pre). split; [|split].
  - rewrite <- rev_append, <- Hs. by rewrite rev_involutive.
  - by apply Run_rev.
  - intros w Hw [r Hr].
    apply (stripOne_None _ _ Hnone (String.rev w)).
    + by apply list_elem_of_fmap_2.
    + exists (String.rev r).
      rewrite <- rev_append, <- Hr. by rewrite rev_involutive.
Qed.

(** [Js.trim] cuts off a run of white space at each end and leaves none
    there. *)
Lemma trim_spec (s : string) : Trimmed (Js.trim s) s.
Proof.
  unfold Js.trim.
  destruct (trimStart_spec s) as (pre & Hs & Hpre & Hstart).
  destruct (trimEnd_spec (Js.trimStart s)) as (post & Ht & Hpost & Hend).
  split.
  - exists pre, post. by rewrite <- Ht.
  - intros w Hw. split; [|by apply Hend].
    intros [r Hr]. apply (Hstart w Hw). exists (r +:+ post).
    by rewrite Ht, Hr, append_assoc.
Qed.

(** The code points of a string of ASCII bytes are its bytes, and on
    them the case mappings are the mappings of the ASCII letters. *)
Lemma decode_ascii (s : string) :
  isAscii s = true → Js.decode s = N_of_ascii <$> list_ascii_of_string s.
Proof.
  induction s as [|a s IH]; [done|]. cbn [isAscii].
  intros [Ha Hs]%andb_true_iff. cbn [Js.decode list_ascii_of_string].
  by rewrite Ha, fmap_cons, IH.
Qed.

Lemma encode_ascii (s : string) :
  isAscii s = true → Js.encode (N_of_ascii <$> list_ascii_of_string s) = s.
Proof.
  induction s as [|a s IH]; [done|]. cbn [isAscii].
  intros [Ha Hs]%andb_true_iff. cbn [list_ascii_of_string].
  rewrite fmap_cons. cbn [Js.encode]. rewrite IH by done.
  unfold Js.encodePoint. rewrite Ha. cbn [Js.ofBytes].
  by rewrite ascii_N_embedding.
Qed.

Lemma lowerPoint_ascii (a : ascii) :
  (N_of_ascii a <? 128)%N = true →
  (N_of_ascii a =? 0x3a3)%N = false ∧
  Js.lowerPoint (N_of_ascii a) = [N_of_ascii (lowerChar a)].
Proof.
  destruct a as [b0 b1 b2 b3 b4 b5 b6 [|]]; [by destruct b0, b1, b2, b3, b4, b5, b6|].
  intros _. destruct b0, b1, b2, b3, b4, b5, b6; vm_compute; done.
Qed.

Lemma upperPoint_ascii (a : ascii) :
  (N_of_ascii a <? 128)%N = true →
  Js.upperPoint (N_of_ascii a) = [N_of_ascii (upperChar a)].
Proof.
  destruct a as [b0 b1 b2 b3 b4 b5 b6 [|]]; [by destruct b0, b1, b2, b3, b4, b5, b6|].
  intros _. destruct b0, b1, b2, b3, b4, b5, b6; vm_compute; done.
Qed.

Lemma isAscii_mapChars (f : ascii → ascii) (s : string) :
  (∀ a, (N_of_ascii a <? 128)%N = true → (N_of_ascii (f a) <? 128)%N = true) →
  isAscii s = true → isAscii (mapChars f s) = true.
Proof.
  intros Hf. induction s as [|a s IH]; [done|]. simpl.
  intros [Ha Hs]%andb_true_iff. by rewrite (Hf a Ha), IH.
Qed.

Lemma lowerChar_ascii (a : ascii) :
  (N_of_ascii a <? 128)%N = true → (N_of_ascii (lowerChar a) <? 128)%N = true.
Proof. by destruct a as [[] [] [] [] [] [] [] []]. Qed.

Lemma upperChar_ascii (a : ascii) :
  (N_of_ascii a <? 128)%N = true → (N_of_ascii (upperChar a) <? 128)%N = true.
Proof. by destruct a as [[] [] [] [] [] [] [] []]. Qed.

Lemma list_ascii_mapChars (f : ascii → ascii) (s : string) :
  list_ascii_of_string (mapChars f s) = f <$> list_ascii_of_string s.
Proof. induction s as [|a s IH]; [done|]. simpl. by rewrite IH. Qed.

Lemma lowerAll_ascii (before : list N) (s : string) :
  isAscii s = true →
  Js.lowerAll before (N_of_ascii <$> list_ascii_of_string s)
  = N_of_ascii <$> list_ascii_of_string (mapChars lowerChar s).
Proof.
  revert before. induction s as [|a s IH]; intros before; [done|]. cbn [isAscii].
  intros [Ha Hs]%andb_true_iff.
  destruct (lowerPoint_ascii a Ha) as [Hsigma Hlow].
  cbn [list_ascii_of_string mapChars]. rewrite !fmap_cons. cbn [Js.lowerAll].
  by rewrite Hsigma, Hlow, IH.
Qed.

Lemma toLowerCase_ascii (s : string) :
  isAscii s = true → Js.toLowerCase s = mapChars lowerChar s.
Proof.
  intros Hs. unfold Js.toLowerCase.
  rewrite decode_ascii, lowerAll_ascii by done.
  apply encode_ascii. by apply isAscii_mapChars; [apply lowerChar_ascii|].
Qed.

Lemma toUpperCase_ascii (s : string) :
  isAscii s = true → Js.toUpperCase s = mapChars upperChar s.
Proof.
  intros Hs. unfold Js.toUpperCase. rewrite decode_ascii by done.
  rewrite <- (encode_ascii (mapChars upperChar s))
    by (by apply isAscii_mapChars; [apply upperChar_ascii|]).
  f_equal. clear -Hs.
  induction s as [|a s IH]; [done|]. cbn [isAscii] in Hs.
  apply andb_true_iff in Hs as [Ha Hs].
  cbn [list_ascii_of_string mapChars]. rewrite !fmap_cons. cbn [flat_map].
  by rewrite (upperPoint_ascii a Ha), IH.
Qed.

Lemma lower_upper_char (a : ascii) : lowerChar (upperChar a) = lowerChar a.
Proof. by destruct a as [[] [] [] [] [] [] [] []]. Qed.

Lemma lower_lower_char (a : ascii) : lowerChar (lowerChar a) = lowerChar a.
Proof. by destruct a as [[] [] [] [] [] [] [] []]. Qed.

(** ** The resolver *)

Lemma nameMatches_true (q : string) (e : DepthEntry) :
  nameMatches q e = true ↔ Matches q e.
Proof. apply includes_spec. Qed.

Lemma nameMatches_false (q : string) (e : DepthEntry) :
  nameMatches q e = false ↔ ¬ Matches q e.
Proof. rewrite <- nameMatches_true. by destruct (nameMatches q e). Qed.

Lemma findIndex_Some {A} (pred : A → bool) (l : list A) (i : nat) :
  findIndex pred l = Some i →
  ∃ earlier x later,
    l = earlier ++ x :: later ∧ length earlier = i ∧ pred x = true ∧
    ∀ y, y ∈ earlier → pred y = false.
Proof.
  revert i. induction l as [|x l IH]; intros i; simpl; [done|].
  destruct (pred x) eqn:Hx.
  - intros [= <-]. exists [], x, l. repeat split; auto.
    intros y Hy. by apply elem_of_nil in Hy.
  - destruct (findIndex pred l) as [j|]; [|done].
    intros [= <-]. destruct (IH j eq_refl) as (ea & y & la & -> & <- & Hy & Hea).
    exists (x :: ea), y, la. repeat split; auto.
    intros z [->|Hz]%elem_of_cons; auto.
Qed.

Lemma findIndex_None {A} (pred : A → bool) (l : list A) :
  findIndex pred l = None → ∀ y, y ∈ l → pred y = false.
Proof.
  induction l as [|x l IH]; simpl.
  - intros _ y Hy. by apply elem_of_nil in Hy.
  - destruct (pred x) eqn:Hx; [done|].
    destruct (findIndex pred l); [done|].
    intros _ y [->|Hy]%elem_of_cons; auto.
Qed.

(** What the loop of the resolver returns: the place of the first match
    and the record built there. *)
Lemma scanEntries_Some (es : list (string * list DepthEntry)) (q : string)
    (r : BackupInfo) :
  scanEntries es q = Some r →
  ∃ before players after i,
    es = before ++ (position r, players) :: after ∧
    (∀ p l e, (p, l) ∈ before → e ∈ l → nameMatches q e = false) ∧
    findIndex (nameMatches q) players = Some i ∧
    injuredPlayer r = players !! i ∧
    primaryBackup r = players !! (i + 1)%nat ∧
    allBackups r = slice players (i + 1) (i + 4).
Proof.
  induction es as [|[pos players] es IH]; simpl; [done|].
  destruct (findIndex (nameMatches q) players) as [i|] eqn:Hi.
  - intros [= <-]. exists [], players, es, i. simpl. repeat split; auto.
    intros p l e Hin. by apply elem_of_nil in Hin.
  - intros Hr. destruct (IH Hr) as (bf & pl & af & i & -> & Hbf & Hf & H1 & H2 & H3).
    exists ((pos, players) :: bf), pl, af, i. repeat split; auto.
    intros p l e [[= -> ->]|Hin]%elem_of_cons He.
    + by eapply findIndex_None.
    + by eapply Hbf.
Qed.

Lemma scanEntries_None (es : list (string * list DepthEntry)) (q : string) :
  scanEntries es q = None →
  ∀ p l e, (p, l) ∈ es → e ∈ l → nameMatches q e = false.
Proof.
  induction es as [|[pos players] es IH]; simpl.
  - intros _ p l e Hin. by apply elem_of_nil in Hin.
  - destruct (findIndex (nameMatches q) players) eqn:Hi; [done|].
    intros Hr p l e [[= -> ->]|Hin]%elem_of_cons He.
    + by eapply findIndex_None.
    + by eapply IH.
Qed.

Lemma slice_lookup {A} (l : list A) (i k : nat) :
  slice l (i + 1) (i + 4) !! k =
  if decide (k < 3)%nat then l !! (i + 1 + k)%nat else None.
Proof.
  unfold slice. replace (i + 4 - (i + 1))%nat with 3%nat by lia.
  case_decide.
  - by rewrite lookup_take_lt, lookup_drop.
  - apply lookup_take_ge. lia.
Qed.

(** C2. [getBackupForPlayer] walks the positions in the order of
    [Object.entries] and the entries of a position in their stored order;
    its result is built at the first entry whose name contains the query
    as a substring, case aside, and it is [null] exactly when no entry of
    any position does. Case aside means after [toLowerCase]; for a query
    and a name of ASCII characters this is containment up to the case of
    the letters A to Z. *)
Theorem resolve_first_match (chart : DepthChart) (playerName : string) :
  match getBackupForPlayer chart playerName with
  | Some r =>
      ∃ before players after earlier e later,
        JsObject.entries (positions chart)
          = before ++ (position r, players) :: after ∧
        players = earlier ++ e :: later ∧
        injuredPlayer r = Some e ∧
        Matches playerName e ∧
        (∀ e', e' ∈ earlier → ¬ Matches playerName e') ∧
        (∀ p l e', (p, l) ∈ before → e' ∈ l → ¬ Matches playerName e')
  | None =>
      ∀ p l e', (p, l) ∈ JsObject.entries (positions chart) → e' ∈ l →
        ¬ Matches playerName e'
  end ∧
  ∀ e, isAscii playerName = true → isAscii (name e) = true →
       (Matches playerName e ↔
        Substring (mapChars lowerChar playerName) (mapChars lowerChar (name e))).
Proof.
  split; [|intros e Hq He; unfold Matches; by rewrite !toLowerCase_ascii].
  unfold getBackupForPlayer.
  destruct (scanEntries _ playerName) as [r|] eqn:Hr.
  - apply scanEntries_Some in Hr
      as (bf & players & af & i & Hes & Hbf & Hi & Hinj & _ & _).
    apply findIndex_Some in Hi as (ea & e & la & -> & <- & He & Hea).
    exists bf, (ea ++ e :: la), af, ea, e, la. repeat split; auto.
    + by rewrite Hinj, list_lookup_middle.
    + by apply nameMatches_true.
    + intros e' He'. by apply nameMatches_false, Hea.
    + intros p l e' Hin He'. by eapply nameMatches_false, Hbf.
  - intros p l e' Hin He'. by eapply nameMatches_false, scanEntries_None.
Qed.

Lemma resolve_first_match_witness :
  let r := {| position := "PG";
              injuredPlayer := Some (entryOf 1 "Luka Dončić");
              primaryBackup := Some (entryOf 2 "Kyrie Irving");
              allBackups := [entryOf 2 "Kyrie Irving"] |} in
  getBackupForPlayer dallasChart "DONČIĆ" = Some r ∧
  (∃ before players after earlier e later,
     JsObject.entries (positions dallasChart)
       = before ++ (position r, players) :: after ∧
     players = earlier ++ e :: later ∧
     injuredPlayer r = Some e ∧
     Matches "DONČIĆ" e ∧
     (∀ e', e' ∈ earlier → ¬ Matches "DONČIĆ" e') ∧
     (∀ p l e', (p, l) ∈ before → e' ∈ l → ¬ Matches "DONČIĆ" e')) ∧
  (Matches "kyrie IRV" (entryOf 2 "Kyrie Irving") ↔
   Substring "kyrie irv" "kyrie irving").
Proof.
  intros r.
  assert (Hr : getBackupForPlayer dallasChart "DONČIĆ" = Some r)
    by (vm_compute; reflexivity).
  split; [exact Hr|]. split.
  - destruct (resolve_first_match dallasChart "DONČIĆ") as [Hm _].
    rewrite Hr in Hm. exact Hm.
  - destruct (resolve_first_match dallasChart "kyrie IRV") as [_ Hc].
    apply (Hc (entryOf 2 "Kyrie Irving")); reflexivity.
Defined.

(** C3. When the match is at index [i] of its position, [primaryBackup]
    is the entry at [i+1] (or [null]), [allBackups] holds the entries at
    [i+1], [i+2], [i+3] that exist, in that order; so [primaryBackup] is
    the head of [allBackups], which has at most 3 elements and at most as
    many as follow the match. *)
Theorem backup_selection (chart : DepthChart) (playerName : string)
    (r : BackupInfo) :
  getBackupForPlayer chart playerName = Some r →
  ∃ players i e,
    (position r, players) ∈ JsObject.entries (positions chart) ∧
    players !! i = Some e ∧
    injuredPlayer r = Some e ∧
    Matches playerName e ∧
    (∀ j e', (j < i)%nat → players !! j = Some e' → ¬ Matches playerName e') ∧
    primaryBackup r = players !! (i + 1)%nat ∧
    (∀ k, allBackups r !! k
          = if decide (k < 3)%nat then players !! (i + 1 + k)%nat else None) ∧
    primaryBackup r = allBackups r !! 0%nat ∧
    (length (allBackups r) ≤ 3)%nat ∧
    (length (allBackups r) ≤ length players - (i + 1))%nat.
Proof.
  unfold getBackupForPlayer. intros Hr.
  apply scanEntries_Some in Hr
    as (bf & players & af & i & Hes & _ & Hi & Hinj & Hpb & Hall).
  apply findIndex_Some in Hi as (ea & e & la & Hpl & Hlen & He & Hea).
  assert (Hie : players !! i = Some e)
    by (subst players i; apply list_lookup_middle; done).
  exists players, i, e. rewrite Hes, Hall, Hpb, Hinj.
  split; [|split; [|split; [|split; [|split; [|split; [|split; [|split; [|split]]]]]]]]; auto.
  - apply elem_of_app. right. apply elem_of_cons. by left.
  - by apply nameMatches_true.
  - intros j e' Hj Hje'. apply nameMatches_false, Hea.
    subst players i. rewrite lookup_app_l in Hje' by done.
    by eapply list_elem_of_lookup_2.
  - intros k. apply slice_lookup.
  - rewrite slice_lookup. case_decide; [|lia]. f_equal. lia.
  - unfold slice. rewrite length_take. lia.
  - unfold slice. rewrite length_take, length_drop. lia.
Qed.

Lemma nameMatches_empty (e : DepthEntry) : nameMatches "" e = true.
Proof. apply includes_empty. Qed.

(** C9. With the empty query every entry matches: the result is built at
    the first entry of the first position, in the order of
    [Object.entries], that has an entry, and it is [null] exactly when
    every position is empty. *)
Theorem resolve_empty_query (chart : DepthChart) :
  match getBackupForPlayer chart "" with
  | Some r =>
      ∃ before e rest after,
        JsObject.entries (positions chart)
          = before ++ (position r, e :: rest) :: after ∧
        (∀ p l, (p, l) ∈ before → l = []) ∧
        injuredPlayer r = Some e
  | None =>
      ∀ p l, (p, l) ∈ JsObject.entries (positions chart) → l = []
  end.
Proof.
  assert (Hall : ∀ (l : list DepthEntry),
            (∀ e, e ∈ l → nameMatches "" e = false) → l = []).
  { intros [|e l] H; [done|].
    specialize (H e (list_elem_of_here _ _)). by rewrite nameMatches_empty in H. }
  unfold getBackupForPlayer.
  destruct (scanEntries _ "") as [r|] eqn:Hr.
  - apply scanEntries_Some in Hr
      as (bf & players & af & i & Hes & Hbf & Hi & Hinj & _ & _).
    apply findIndex_Some in Hi as (ea & e & la & -> & <- & _ & Hea).
    apply Hall in Hea as ->. simpl in *.
    exists bf, e, la, af. repeat split; eauto.
  - intros p l Hin. apply Hall. intros e He. by eapply scanEntries_None.
Qed.

(** ** The parser *)

Lemma isLabel_spec (text : string) :
  Js.truthy text
    && negb (bool_decide (text = "Starter"))
    && negb (bool_decide (text = "2nd"))
    && negb (bool_decide (text = "3rd"))
    && negb (bool_decide (text = "4th"))
    && negb (bool_decide (text = "5th"))
  = bool_decide (PositionLabel text).
Proof.
  unfold PositionLabel, rankTokens. symmetry.
  destruct (Js.truthy text) eqn:Ht; simpl.
  - repeat case_bool_decide; simpl; try reflexivity;
      rewrite ?elem_of_cons, elem_of_nil in *; try tauto.
    all: exfalso; destruct text; [discriminate | intuition congruence].
  - destruct text; [|discriminate]. apply bool_decide_eq_false. tauto.
Qed.

Lemma eachTh_filter (ths acc : list string) :
  eachTh ths acc = acc ++ filter PositionLabel (Js.trim <$> ths).
Proof.
  revert acc. induction ths as [|el ths IH]; intros acc; cbn [eachTh].
  - by rewrite app_nil_r.
  - rewrite isLabel_spec, fmap_cons, filter_cons.
    case_bool_decide; rewrite IH.
    + rewrite decide_True by done. by rewrite <- app_assoc.
    + by rewrite decide_False by done.
Qed.

(** *** Reads and writes of the positions object *)

Section ObjectLemmas.
Context {V : Type}.
Implicit Types (o : JsObject.t V) (k : string) (v : V).

Lemma get_define_eq o k v : JsObject.get (JsObject.define o k v) k = Some v.
Proof.
  induction o as [|[k' v'] o IH]; simpl.
  - by rewrite decide_True.
  - destruct (decide (k' = k)) as [->|Hne]; simpl.
    + by rewrite decide_True.
    + by rewrite decide_False.
Qed.

Lemma get_define_ne o k k' v :
  k ≠ k' → JsObject.get (JsObject.define o k v) k' = JsObject.get o k'.
Proof.
  intros Hne. induction o as [|[k0 v0] o IH]; simpl.
  - by rewrite decide_False.
  - case_decide; simpl; subst.
    + by rewrite !decide_False.
    + case_decide; auto.
Qed.

Lemma define_define o k v v' :
  JsObject.define (JsObject.define o k v) k v' = JsObject.define o k v'.
Proof.
  induction o as [|[k0 v0] o IH]; simpl.
  - by rewrite decide_True.
  - case_decide; simpl.
    + by rewrite decide_True.
    + rewrite decide_False by done. by rewrite IH.
Qed.

Lemma define_get o k v :
  JsObject.get o k = Some v → JsObject.define o k v = o.
Proof.
  induction o as [|[k0 v0] o IH]; simpl; [done|].
  case_decide; [by intros [= ->] | intros H'; f_equal; auto].
Qed.

Lemma get_set o k k' v :
  JsObject.get (JsObject.set o k v) k' =
  if decide (k = k' ∧ k ≠ "__proto__") then Some v else JsObject.get o k'.
Proof.
  unfold JsObject.set. destruct (decide (k = "__proto__")) as [->|Hp].
  - rewrite decide_False; tauto.
  - destruct (decide (k = k')) as [->|Hne].
    + rewrite decide_True by done. apply get_define_eq.
    + rewrite decide_False by tauto. by apply get_define_ne.
Qed.

End ObjectLemmas.

Lemma push_present {V} (o : JsObject.t (list V)) (k : string) (l : list V) (x : V) :
  JsObject.get o k = Some l →
  JsObject.push o k x = JsObject.define o k (l ++ [x]).
Proof.
  induction o as [|[k0 l0] o IH]; simpl; [done|].
  case_decide; [by intros [= ->] | intros H'; by rewrite IH].
Qed.

Lemma push_absent {V} (o : JsObject.t (list V)) (k : string) (x : V) :
  JsObject.get o k = None → JsObject.push o k x = o.
Proof.
  induction o as [|[k0 l0] o IH]; simpl; [done|].
  case_decide; [done | intros H'; by rewrite IH].
Qed.

(** *** The cell loop and the row loop *)

Lemma eachTd_present (colIndex : nat) (cells : list Dom.Cell) (pos : string)
    (o : JsObject.t (list DepthEntry)) (l : list DepthEntry) :
  JsObject.get o pos = Some l →
  eachTd colIndex cells pos o
  = JsObject.define o pos (l ++ rowEntries colIndex cells).
Proof.
  revert colIndex o l.
  induction cells as [|cell rest IH]; intros colIndex o l Hget; simpl.
  - rewrite app_nil_r. by rewrite define_get.
  - destruct (Dom.findA cell) as [|a link] eqn:Hlink.
    + by apply IH.
    + rewrite (push_present _ _ l) by done.
      rewrite (IH _ _ (l ++ [playerOfCell colIndex cell (a :: link)]))
        by apply get_define_eq.
      by rewrite define_define, <- app_assoc.
Qed.

Lemma eachTd_absent (colIndex : nat) (cells : list Dom.Cell) (pos : string)
    (o : JsObject.t (list DepthEntry)) :
  JsObject.get o pos = None → eachTd colIndex cells pos o = o.
Proof.
  revert colIndex.
  induction cells as [|cell rest IH]; intros colIndex Hget; simpl; [done|].
  destruct (Dom.findA cell); [by apply IH|].
  rewrite push_absent by done. by apply IH.
Qed.

(** One run of the row callback writes the entries of the row under the
    label. *)
Lemma eachTd_set (row : list Dom.Cell) (pos : string)
    (o : JsObject.t (list DepthEntry)) :
  JsObject.get o "__proto__" = None →
  eachTd 0 row pos (JsObject.set o pos [])
  = JsObject.set o pos (rowEntries 0 row).
Proof.
  intros Hproto. unfold JsObject.set. case_decide as Hp.
  - subst. by apply eachTd_absent.
  - rewrite (eachTd_present _ _ _ _ []) by apply get_define_eq.
    by rewrite define_define.
Qed.

Lemma rowStep_set (o : JsObject.t (list DepthEntry)) (lr : string * list Dom.Cell) :
  JsObject.get o "__proto__" = None →
  rowStep o lr = JsObject.set o lr.1 (rowEntries 0 lr.2).
Proof. apply eachTd_set. Qed.

Lemma rowStep_proto (o : JsObject.t (list DepthEntry)) (lr : string * list Dom.Cell) :
  JsObject.get o "__proto__" = None →
  JsObject.get (rowStep o lr) "__proto__" = None.
Proof.
  intros H. rewrite rowStep_set, get_set by done.
  rewrite decide_False; [done | intros [? ?]; congruence].
Qed.

(** The row loop pairs row [r] with label [r] and passes over the rows
    that have no label. *)
Lemma eachTr_foldl (rowIndex : nat) (rows : list (list Dom.Cell))
    (labels : list string) (o : JsObject.t (list DepthEntry)) :
  Forall (λ p, Js.truthy p = true) labels →
  eachTr rowIndex rows labels o
  = foldl rowStep o (zip (drop rowIndex labels) rows).
Proof.
  intros Hlab. revert rowIndex o.
  induction rows as [|row rows IH]; intros rowIndex o; simpl.
  - by rewrite zip_with_nil_r.
  - destruct (labels !! rowIndex) as [p|] eqn:Hp.
    + rewrite (drop_S _ p) by done. simpl.
      rewrite (proj1 (Forall_lookup _ _) Hlab _ _ Hp). apply IH.
    + rewrite IH. apply lookup_ge_None in Hp.
      by rewrite !drop_ge by lia.
Qed.

Lemma foldl_rowStep_proto (l : list (string * list Dom.Cell))
    (o : JsObject.t (list DepthEntry)) :
  JsObject.get o "__proto__" = None →
  JsObject.get (foldl rowStep o l) "__proto__" = None.
Proof.
  revert o. induction l as [|lr l IH]; intros o Ho; simpl; [done|].
  by apply IH, rowStep_proto.
Qed.

(** Whatever a position holds at the end was written by one labelled row. *)
Lemma get_foldl_rowStep (l : list (string * list Dom.Cell))
    (o : JsObject.t (list DepthEntry)) (pos : string) (es : list DepthEntry) :
  JsObject.get o "__proto__" = None →
  JsObject.get (foldl rowStep o l) pos = Some es →
  JsObject.get o pos = Some es ∨
  ∃ r row, l !! r = Some (pos, row) ∧ es = rowEntries 0 row.
Proof.
  revert o. induction l as [|[p row] l IH]; intros o Ho; simpl; [by left|].
  intros Hget. apply IH in Hget; [|by apply rowStep_proto].
  destruct Hget as [Hget|(r & row' & Hr & ->)].
  - rewrite rowStep_set, get_set in Hget by done. simpl in Hget.
    case_decide as Hd.
    + destruct Hd as [-> _]. injection Hget as <-.
      right. by exists 0%nat, row.
    + by left.
  - right. by exists (S r), row'.
Qed.

Lemma elem_of_rowEntries (colIndex : nat) (cells : list Dom.Cell) (e : DepthEntry) :
  e ∈ rowEntries colIndex cells ↔
  ∃ c cell, cells !! c = Some cell ∧ Dom.findA cell ≠ [] ∧
            e = playerOfCell (colIndex + c) cell (Dom.findA cell).
Proof.
  revert colIndex. induction cells as [|cell rest IH]; intros colIndex; simpl.
  - split; [by intros ?%elem_of_nil | by intros (c & cell & ? & _)].
  - assert (Hshift : (∃ c cell0, rest !! c = Some cell0 ∧ Dom.findA cell0 ≠ [] ∧
                e = playerOfCell (S colIndex + c) cell0 (Dom.findA cell0)) ↔
              (∃ c cell0, (cell :: rest) !! S c = Some cell0 ∧ Dom.findA cell0 ≠ [] ∧
                e = playerOfCell (colIndex + S c) cell0 (Dom.findA cell0))).
    { split; intros (c & cell0 & H1 & H2 & H3); exists c, cell0;
        (split; [done|split; [done|]]);
        [replace (colIndex + S c)%nat with (S colIndex + c)%nat by lia
        |replace (S colIndex + c)%nat with (colIndex + S c)%nat by lia]; done. }
    destruct (Dom.findA cell) as [|a link] eqn:Hlink.
    + rewrite IH, Hshift. split.
      * intros (c & cell0 & ?). by exists (S c), cell0.
      * intros ([|c] & cell0 & H1 & H2 & H3).
        -- simpl in H1. injection H1 as <-. by rewrite Hlink in H2.
        -- by exists c, cell0.
    + rewrite elem_of_cons, IH, Hshift. split.
      * intros [->|(c & cell0 & ?)].
        -- exists 0%nat, cell. rewrite Hlink, Nat.add_0_r. by repeat split.
        -- by exists (S c), cell0.
      * intros ([|c] & cell0 & H1 & H2 & H3).
        -- simpl in H1. injection H1 as <-. left.
           by rewrite H3, Hlink, Nat.add_0_r.
        -- right. by exists c, cell0.
Qed.

Lemma rowEntries_sorted (colIndex : nat) (cells : list Dom.Cell) :
  StronglySorted Z.lt (depth <$> rowEntries colIndex cells).
Proof.
  revert colIndex. induction cells as [|cell rest IH]; intros colIndex; simpl.
  - constructor.
  - destruct (Dom.findA cell) as [|a link] eqn:Hlink; [apply IH|].
    rewrite fmap_cons. constructor; [apply IH|].
    apply Forall_forall. intros d (e & -> & He)%list_elem_of_fmap.
    apply elem_of_rowEntries in He as (c & cell0 & _ & _ & ->). simpl. lia.
Qed.

(** *** The scraper as a whole *)

Lemma labels_truthy (ths : list string) :
  Forall (λ p, Js.truthy p = true) (filter PositionLabel (Js.trim <$> ths)).
Proof.
  apply Forall_forall. intros p [[Hp _] _]%list_elem_of_filter.
  by destruct p.
Qed.

Lemma scrape_ok (w : Runtime.World) (teamAbbr : string) (io : Runtime.Io)
    (table : Dom.Page) :
  Runtime.fetch w (length (Runtime.requests io)) (depthUrl teamAbbr) = Some table →
  table ≠ [] →
  scrapeESPNDepthChart w teamAbbr io =
  (inr {| team := Js.toUpperCase teamAbbr;
          timestamp := Runtime.clock w (Runtime.clockReads io);
          positions :=
            foldl rowStep JsObject.empty
              (zip (filter PositionLabel (Js.trim <$> Dom.firstHeaderCells table))
                   (Dom.bodyRows table)) |},
   {| Runtime.clockReads := S (Runtime.clockReads io);
      Runtime.requests := Runtime.requests io ++ [depthUrl teamAbbr] |}).
Proof.
  intros Hfetch Hne.
  unfold scrapeESPNDepthChart, Runtime.bind, Runtime.axiosGet, Runtime.now, Runtime.ret.
  simpl. rewrite Hfetch. destruct table as [|t table]; [done|].
  rewrite eachTh_filter, app_nil_l.
  rewrite eachTr_foldl by apply labels_truthy. by rewrite drop_0.
Qed.

Lemma scrape_inv (w : Runtime.World) (teamAbbr : string) (io io' : Runtime.Io)
    (chart : DepthChart) :
  scrapeESPNDepthChart w teamAbbr io = (inr chart, io') →
  ∃ table,
    Runtime.fetch w (length (Runtime.requests io)) (depthUrl teamAbbr) = Some table ∧
    table ≠ [].
Proof.
  unfold scrapeESPNDepthChart, Runtime.bind, Runtime.axiosGet, Runtime.now, Runtime.ret.
  simpl. destruct (Runtime.fetch _ _ _) as [[|t table]|]; try done.
  intros _. by eexists.
Qed.

(** Every sequence of a parsed chart is the list of entries of one body
    row of the document. *)
Lemma chart_entries_origin (w : Runtime.World) (teamAbbr : string)
    (io io' : Runtime.Io) (chart : DepthChart) (pos : string)
    (es : list DepthEntry) :
  scrapeESPNDepthChart w teamAbbr io = (inr chart, io') →
  JsObject.get (positions chart) pos = Some es →
  ∃ table row,
    Runtime.fetch w (length (Runtime.requests io)) (depthUrl teamAbbr) = Some table ∧
    row ∈ Dom.bodyRows table ∧
    es = rowEntries 0 row.
Proof.
  intros Hs Hget. destruct (scrape_inv _ _ _ _ _ Hs) as (table & Hfetch & Hne).
  rewrite (scrape_ok _ _ _ _ Hfetch Hne) in Hs. injection Hs as <- _.
  simpl in Hget. apply get_foldl_rowStep in Hget; [|done].
  destruct Hget as [Hget|(r & row & Hr & ->)]; [done|].
  exists table, row. repeat split; auto.
  apply lookup_zip_Some in Hr as [_ Hr]. by eapply list_elem_of_lookup_2.
Qed.

(** C1 (as the code has it). In every parsed chart, the entries of a
    position come from one body row: there is exactly one entry for each
    cell of that row that holds a link, its depth is the 1-based column of
    that cell among all cells of the row, and the entries are in cell
    order, so the depths are strictly increasing, without duplicates and
    at least 1. A cell without a link leaves its rank unused. *)
Theorem depth_is_column_index (w : Runtime.World) (teamAbbr : string)
    (io io' : Runtime.Io) (chart : DepthChart) (pos : string)
    (es : list DepthEntry) :
  scrapeESPNDepthChart w teamAbbr io = (inr chart, io') →
  JsObject.get (positions chart) pos = Some es →
  ∃ table row,
    Runtime.fetch w (length (Runtime.requests io)) (depthUrl teamAbbr) = Some table ∧
    row ∈ Dom.bodyRows table ∧
    StronglySorted Z.lt (depth <$> es) ∧
    (∀ e, e ∈ es → (1 ≤ depth e ≤ Z.of_nat (length row))%Z) ∧
    (∀ e, e ∈ es ↔
          ∃ c cell, row !! c = Some cell ∧ Dom.findA cell ≠ [] ∧
                    e = playerOfCell c cell (Dom.findA cell) ∧
                    depth e = (Z.of_nat c + 1)%Z).
Proof.
  intros Hs Hget.
  destruct (chart_entries_origin _ _ _ _ _ _ _ Hs Hget)
    as (table & row & Hfetch & Hrow & ->).
  exists table, row. split; [done|]. split; [done|].
  split; [apply rowEntries_sorted|]. split.
  - intros e (c & cell & Hc & _ & ->)%elem_of_rowEntries. simpl.
    apply lookup_lt_Some in Hc. lia.
  - intros e. rewrite elem_of_rowEntries. split.
    + intros (c & cell & Hc & Hl & ->). exists c, cell. by repeat split.
    + intros (c & cell & Hc & Hl & -> & _). exists c, cell. by repeat split.
Qed.

Lemma depth_is_column_index_witness :
  ∃ chart io' es,
    scrapeESPNDepthChart (steadyWorld 0 (Some gapPage)) "atl" freshIo
      = (inr chart, io') ∧
    JsObject.get (positions chart) "PG" = Some es ∧
    ∃ table row,
      Runtime.fetch (steadyWorld 0 (Some gapPage))
        (length (Runtime.requests freshIo)) (depthUrl "atl") = Some table ∧
      row ∈ Dom.bodyRows table ∧
      StronglySorted Z.lt (depth <$> es) ∧
      (∀ e, e ∈ es → (1 ≤ depth e ≤ Z.of_nat (length row))%Z) ∧
      (∀ e, e ∈ es ↔
            ∃ c cell, row !! c = Some cell ∧ Dom.findA cell ≠ [] ∧
                      e = playerOfCell c cell (Dom.findA cell) ∧
                      depth e = (Z.of_nat c + 1)%Z).
Proof.
  eexists _, _, _. split; [vm_compute; reflexivity|].
  split; [vm_compute; reflexivity|].
  eapply (depth_is_column_index (steadyWorld 0 (Some gapPage)) "atl" freshIo
            _ _ "PG"); vm_compute; reflexivity.
Defined.

(** C1 (as stated) fails: a row whose second slot is empty is parsed to
    the depths 1 and 3, which are not the consecutive ranks 1 and 2. *)
Lemma depth_gap_counterexample :
  ∃ chart io' es,
    scrapeESPNDepthChart (steadyWorld 0 (Some gapPage)) "atl" freshIo
      = (inr chart, io') ∧
    JsObject.get (positions chart) "PG" = Some es ∧
    depth <$> es = [1; 3]%Z ∧
    ¬ ConsecutiveFromOne es.
Proof.
  eexists _, _, _. split; [vm_compute; reflexivity|].
  split; [vm_compute; reflexivity|].
  split; [vm_compute; reflexivity|].
  unfold ConsecutiveFromOne. vm_compute. discriminate.
Qed.



(** C7. When the document has no element of class [Table], the scraper
    throws [Could not find depth chart table] and returns no chart. *)
Theorem missing_table_fails (w : Runtime.World) (teamAbbr : string)
    (io : Runtime.Io) :
  Runtime.fetch w (length (Runtime.requests io)) (depthUrl teamAbbr) = Some [] →
  (scrapeESPNDepthChart w teamAbbr io).1
  = inl (Error "Could not find depth chart table").
Proof.
  intros Hfetch.
  unfold scrapeESPNDepthChart, Runtime.bind, Runtime.axiosGet, Runtime.now, Runtime.ret.
  simpl. by rewrite Hfetch.
Qed.

Lemma missing_table_fails_witness :
  Runtime.fetch (steadyWorld 0 (Some []))
    (length (Runtime.requests freshIo)) (depthUrl "atl") = Some [] ∧
  (scrapeESPNDepthChart (steadyWorld 0 (Some [])) "atl" freshIo).1
  = inl (Error "Could not find depth chart table").
Proof.
  split; [reflexivity|].
  apply (missing_table_fails (steadyWorld 0 (Some [])) "atl" freshIo).
  reflexivity.
Defined.

(** The status of an entry, read off the text of its cell. *)
Lemma playerOfCell_status (c : nat) (cell : Dom.Cell)
    (link : list (option string * string)) :
  let e := playerOfCell c cell link in
  (injuryStatus e = Some "OUT" ↔ Substring "O" (Dom.cellText cell)) ∧
  (injuryStatus e = Some "DAY-TO-DAY" ↔
     ¬ Substring "O" (Dom.cellText cell) ∧ Substring "DD" (Dom.cellText cell)) ∧
  (injuryStatus e = None ↔
     ¬ Substring "O" (Dom.cellText cell) ∧ ¬ Substring "DD" (Dom.cellText cell)).
Proof.
  simpl. rewrite <- !includes_spec.
  destruct (Js.includes (Dom.cellText cell) "O");
    destruct (Js.includes (Dom.cellText cell) "DD"); intuition congruence.
Qed.

(** C8. Every entry of a parsed chart comes from a cell that holds a
    link, and its [injuryStatus] is [OUT] when the text of that cell
    contains [O]; otherwise [DAY-TO-DAY] when the text contains [DD];
    otherwise [null]. *)
Theorem injury_status_by_substring (w : Runtime.World) (teamAbbr : string)
    (io io' : Runtime.Io) (chart : DepthChart) (pos : string)
    (es : list DepthEntry) (e : DepthEntry) :
  scrapeESPNDepthChart w teamAbbr io = (inr chart, io') →
  JsObject.get (positions chart) pos = Some es →
  e ∈ es →
  ∃ table row c cell,
    Runtime.fetch w (length (Runtime.requests io)) (depthUrl teamAbbr) = Some table ∧
    row ∈ Dom.bodyRows table ∧
    row !! c = Some cell ∧
    Dom.findA cell ≠ [] ∧
    e = playerOfCell c cell (Dom.findA cell) ∧
    (injuryStatus e = Some "OUT" ↔ Substring "O" (Dom.cellText cell)) ∧
    (injuryStatus e = Some "DAY-TO-DAY" ↔
       ¬ Substring "O" (Dom.cellText cell) ∧ Substring "DD" (Dom.cellText cell)) ∧
    (injuryStatus e = None ↔
       ¬ Substring "O" (Dom.cellText cell) ∧ ¬ Substring "DD" (Dom.cellText cell)).
Proof.
  intros Hs Hget He.
  destruct (chart_entries_origin _ _ _ _ _ _ _ Hs Hget)
    as (table & row & Hfetch & Hrow & ->).
  apply elem_of_rowEntries in He as (c & cell & Hc & Hl & ->).
  exists table, row, c, cell. do 5 (split; [done|]).
  apply playerOfCell_status.
Qed.

Lemma injury_status_by_substring_witness :
  ∃ chart io' es e,
    scrapeESPNDepthChart (steadyWorld 0 (Some gapPage)) "atl" freshIo
      = (inr chart, io') ∧
    JsObject.get (positions chart) "PG" = Some es ∧
    e ∈ es ∧
    ∃ table row c cell,
      Runtime.fetch (steadyWorld 0 (Some gapPage))
        (length (Runtime.requests freshIo)) (depthUrl "atl") = Some table ∧
      row ∈ Dom.bodyRows table ∧
      row !! c = Some cell ∧
      Dom.findA cell ≠ [] ∧
      e = playerOfCell c cell (Dom.findA cell) ∧
      (injuryStatus e = Some "OUT" ↔ Substring "O" (Dom.cellText cell)) ∧
      (injuryStatus e = Some "DAY-TO-DAY" ↔
         ¬ Substring "O" (Dom.cellText cell) ∧ Substring "DD" (Dom.cellText cell)) ∧
      (injuryStatus e = None ↔
         ¬ Substring "O" (Dom.cellText cell) ∧ ¬ Substring "DD" (Dom.cellText cell)).
Proof.
  eexists _, _, _, _. split; [vm_compute; reflexivity|].
  split; [vm_compute; reflexivity|].
  split; [apply list_elem_of_here|].
  eapply (injury_status_by_substring (steadyWorld 0 (Some gapPage)) "atl" freshIo
            _ _ "PG").
  - vm_compute; reflexivity.
  - vm_compute; reflexivity.
  - apply list_elem_of_here.
Defined.

Lemma backup_selection_witness :
  let r := {| position := "PG";
              injuredPlayer := Some (entryOf 1 "Dyson Daniels");
              primaryBackup := Some (entryOf 2 "Keaton Wallace");
              allBackups := [entryOf 2 "Keaton Wallace"; entryOf 5 "Trae Young"] |} in
  getBackupForPlayer sampleChart "dyson" = Some r ∧
  ∃ players i e,
    (position r, players) ∈ JsObject.entries (positions sampleChart) ∧
    players !! i = Some e ∧
    injuredPlayer r = Some e ∧
    Matches "dyson" e ∧
    (∀ j e', (j < i)%nat → players !! j = Some e' → ¬ Matches "dyson" e') ∧
    primaryBackup r = players !! (i + 1)%nat ∧
    (∀ k, allBackups r !! k
          = if decide (k < 3)%nat then players !! (i + 1 + k)%nat else None) ∧
    primaryBackup r = allBackups r !! 0%nat ∧
    (length (allBackups r) ≤ 3)%nat ∧
    (length (allBackups r) ≤ length players - (i + 1))%nat.
Proof.
  intros r. split; [reflexivity|].
  apply (backup_selection sampleChart "dyson" r). reflexivity.
Defined.

(** ** The cache *)

Import Integration.

Lemma scrape_requests (w : Runtime.World) (teamAbbr : string) (i : Runtime.Io) :
  Runtime.requests (scrapeESPNDepthChart w teamAbbr i).2
  = Runtime.requests i ++ [depthUrl teamAbbr].
Proof.
  unfold scrapeESPNDepthChart, Runtime.bind, Runtime.axiosGet, Runtime.now, Runtime.ret.
  simpl. destruct (Runtime.fetch _ _ _) as [[|t table]|]; reflexivity.
Qed.

Lemma scrape_error_kinds (w : Runtime.World) (teamAbbr : string)
    (i i' : Runtime.Io) (err : JsError) :
  scrapeESPNDepthChart w teamAbbr i = (inl err, i') →
  err = RequestFailed ∨ err = Error "Could not find depth chart table".
Proof.
  unfold scrapeESPNDepthChart, Runtime.bind, Runtime.axiosGet, Runtime.now, Runtime.ret.
  simpl. destruct (Runtime.fetch _ _ _) as [[|t table]|]; intros [= <- _]; auto.
Qed.

(** The miss branch, by the outcome of the scraper. *)
Lemma refresh_eq (w : Runtime.World) (espnCode : string) (s : Proc) :
  refresh w espnCode s =
  match scrapeESPNDepthChart w espnCode (io s) with
  | (inr chart, i) =>
      (Some chart,
       {| depthChartCache :=
            <[espnCode := {| data := chart;
                             timestamp := Runtime.clock w (Runtime.clockReads i) |}]>
              (depthChartCache s);
          io := afterClockRead i |})
  | (inl _, i) => (None, {| depthChartCache := depthChartCache s; io := i |})
  end.
Proof.
  unfold refresh, liftIo, Runtime.bind, Runtime.ret, cacheSet.
  destruct (scrapeESPNDepthChart w espnCode (io s)) as [[err|chart] i]; reflexivity.
Qed.

(** The lookup of a key that has a record. *)
Lemma getTeamDepthChart_cached (w : Runtime.World) (teamId : Z)
    (espnCode : string) (c : CacheRecord) (s : Proc) :
  TEAM_ID_TO_ESPN teamId = Some espnCode →
  depthChartCache s !! espnCode = Some c →
  getTeamDepthChart w teamId s =
  let s1 := {| depthChartCache := depthChartCache s;
               io := afterClockRead (io s) |} in
  if (Runtime.clock w (Runtime.clockReads (io s)) - timestamp c <? CACHE_TTL)%Z
  then (Some (data c), s1)
  else refresh w espnCode s1.
Proof.
  intros Hid Hc. unfold getTeamDepthChart. rewrite Hid.
  unfold Runtime.bind, cacheGet, liftIo, Runtime.now, Runtime.ret. rewrite Hc.
  simpl. by destruct (_ <? _)%Z.
Qed.

(** C4. The window is 6 hours (21,600,000 ms). For a key that has a
    record: while the clock reads less than the window after the record's
    timestamp, the call returns the recorded chart, requests nothing and
    leaves the cache as it is; once the window has elapsed, the call
    makes exactly one request, and when the scraper succeeds it returns
    the new chart and stores it with the reading of the clock taken after
    the scrape. *)
Theorem cache_freshness (w : Runtime.World) (teamId : Z) (espnCode : string)
    (c : CacheRecord) (s : Proc) :
  TEAM_ID_TO_ESPN teamId = Some espnCode →
  depthChartCache s !! espnCode = Some c →
  let t := Runtime.clock w (Runtime.clockReads (io s)) in
  let out := getTeamDepthChart w teamId s in
  CACHE_TTL = 21600000%Z ∧
  ((t - timestamp c < CACHE_TTL)%Z →
     out.1 = Some (data c) ∧
     Runtime.requests (io out.2) = Runtime.requests (io s) ∧
     depthChartCache out.2 = depthChartCache s) ∧
  ((CACHE_TTL ≤ t - timestamp c)%Z →
     Runtime.requests (io out.2) = Runtime.requests (io s) ++ [depthUrl espnCode] ∧
     ∀ chart i,
       scrapeESPNDepthChart w espnCode (afterClockRead (io s)) = (inr chart, i) →
       out.1 = Some chart ∧
       depthChartCache out.2
       = <[espnCode := {| data := chart;
                          timestamp := Runtime.clock w (Runtime.clockReads i) |}]>
           (depthChartCache s)).
Proof.
  intros Hid Hc t out. split; [reflexivity|].
  unfold out. rewrite (getTeamDepthChart_cached _ _ _ _ _ Hid Hc). fold t.
  split.
  - intros Hfresh. apply Z.ltb_lt in Hfresh. by rewrite Hfresh.
  - intros Hstale. apply Z.ltb_ge in Hstale. rewrite Hstale, refresh_eq. simpl.
    pose proof (scrape_requests w espnCode (afterClockRead (io s))) as Hreq.
    destruct (scrapeESPNDepthChart w espnCode (afterClockRead (io s)))
      as [[err|chart'] i'] eqn:Hs; simpl in *.
    + split; [done|]. intros chart i [=].
    + split; [done|]. by intros chart i [= <- <-].
Qed.

(** C5. When a key has a record whose window has elapsed and the scraper
    throws, whether because the request failed or because the table was
    not found, the call returns [null] and the cache is what it was. *)
Theorem failed_refresh_keeps_record (w : Runtime.World) (teamId : Z)
    (espnCode : string) (c : CacheRecord) (s : Proc) (err : JsError)
    (i : Runtime.Io) :
  TEAM_ID_TO_ESPN teamId = Some espnCode →
  depthChartCache s !! espnCode = Some c →
  (CACHE_TTL ≤ Runtime.clock w (Runtime.clockReads (io s)) - timestamp c)%Z →
  scrapeESPNDepthChart w espnCode (afterClockRead (io s)) = (inl err, i) →
  (err = RequestFailed ∨ err = Error "Could not find depth chart table") ∧
  (getTeamDepthChart w teamId s).1 = None ∧
  depthChartCache (getTeamDepthChart w teamId s).2 = depthChartCache s ∧
  depthChartCache (getTeamDepthChart w teamId s).2 !! espnCode = Some c.
Proof.
  intros Hid Hc Hstale Hs. split; [by eapply scrape_error_kinds|].
  rewrite (getTeamDepthChart_cached _ _ _ _ _ Hid Hc).
  apply Z.ltb_ge in Hstale. rewrite Hstale, refresh_eq. simpl. by rewrite Hs.
Qed.

(** C10. A team id that the table [TEAM_ID_TO_ESPN] does not map yields
    [null] at once: nothing is requested, the clock is not read and the
    cache is not touched. *)
Theorem unmapped_team_unavailable (w : Runtime.World) (teamId : Z) (s : Proc) :
  TEAM_ID_TO_ESPN teamId = None →
  getTeamDepthChart w teamId s = (None, s).
Proof. intros Hid. unfold getTeamDepthChart. by rewrite Hid. Qed.

Lemma unmapped_team_unavailable_witness :
  TEAM_ID_TO_ESPN 31 = None ∧
  getTeamDepthChart (steadyWorld 0 (Some gapPage)) 31 cachedProc
  = (None, cachedProc).
Proof.
  split; [reflexivity|].
  apply (unmapped_team_unavailable (steadyWorld 0 (Some gapPage)) 31 cachedProc).
  reflexivity.
Defined.

Lemma cache_freshness_witness :
  let c := {| data := sampleChart; timestamp := 1000 |} in
  let early := steadyWorld (1000 + 21599999) (Some gapPage) in
  let late := steadyWorld (1000 + 21600000) (Some gapPage) in
  TEAM_ID_TO_ESPN 1 = Some "atl" ∧
  depthChartCache cachedProc !! "atl" = Some c ∧
  ((getTeamDepthChart early 1 cachedProc).1 = Some sampleChart ∧
   Runtime.requests (io (getTeamDepthChart early 1 cachedProc).2) = [] ∧
   depthChartCache (getTeamDepthChart early 1 cachedProc).2
   = depthChartCache cachedProc) ∧
  (Runtime.requests (io (getTeamDepthChart late 1 cachedProc).2)
   = [depthUrl "atl"] ∧
   ∀ chart i,
     scrapeESPNDepthChart late "atl" (afterClockRead (io cachedProc)) = (inr chart, i) →
     (getTeamDepthChart late 1 cachedProc).1 = Some chart ∧
     depthChartCache (getTeamDepthChart late 1 cachedProc).2
     = <[ "atl" := {| data := chart;
                      timestamp := Runtime.clock late (Runtime.clockReads i) |}]>
         (depthChartCache cachedProc)).
Proof.
  intros c early late.
  assert (Hid : TEAM_ID_TO_ESPN 1 = Some "atl") by reflexivity.
  assert (Hc : depthChartCache cachedProc !! "atl" = Some c) by reflexivity.
  split; [exact Hid|]. split; [exact Hc|]. split.
  - apply (cache_freshness early 1 "atl" c cachedProc Hid Hc). reflexivity.
  - apply (cache_freshness late 1 "atl" c cachedProc Hid Hc). discriminate.
Defined.

Lemma failed_refresh_keeps_record_witness :
  let c := {| data := sampleChart; timestamp := 1000 |} in
  let offline := steadyWorld (1000 + 21600000) None in
  let changed := steadyWorld (1000 + 21600000) (Some []) in
  let i := {| Runtime.clockReads := 1; Runtime.requests := [depthUrl "atl"] |} in
  let i' := {| Runtime.clockReads := 2; Runtime.requests := [depthUrl "atl"] |} in
  (scrapeESPNDepthChart offline "atl" (afterClockRead (io cachedProc))
   = (inl RequestFailed, i) ∧
   (RequestFailed = RequestFailed ∨
    RequestFailed = Error "Could not find depth chart table") ∧
   (getTeamDepthChart offline 1 cachedProc).1 = None ∧
   depthChartCache (getTeamDepthChart offline 1 cachedProc).2
   = depthChartCache cachedProc ∧
   depthChartCache (getTeamDepthChart offline 1 cachedProc).2 !! "atl" = Some c) ∧
  (scrapeESPNDepthChart changed "atl" (afterClockRead (io cachedProc))
   = (inl (Error "Could not find depth chart table"), i') ∧
   (Error "Could not find depth chart table" = RequestFailed ∨
    Error "Could not find depth chart table"
    = Error "Could not find depth chart table") ∧
   (getTeamDepthChart changed 1 cachedProc).1 = None ∧
   depthChartCache (getTeamDepthChart changed 1 cachedProc).2
   = depthChartCache cachedProc ∧
   depthChartCache (getTeamDepthChart changed 1 cachedProc).2 !! "atl" = Some c).
Proof.
  intros c offline changed i i'.
  assert (Hid : TEAM_ID_TO_ESPN 1 = Some "atl") by reflexivity.
  assert (Hc : depthChartCache cachedProc !! "atl" = Some c) by reflexivity.
  split.
  - assert (Hs : scrapeESPNDepthChart offline "atl" (afterClockRead (io cachedProc))
                 = (inl RequestFailed, i)) by reflexivity.
    split; [exact Hs|].
    apply (failed_refresh_keeps_record offline 1 "atl" c cachedProc
             RequestFailed i Hid Hc); [discriminate | exact Hs].
  - assert (Hs : scrapeESPNDepthChart changed "atl" (afterClockRead (io cachedProc))
                 = (inl (Error "Could not find depth chart table"), i'))
      by reflexivity.
    split; [exact Hs|].
    apply (failed_refresh_keeps_record changed 1 "atl" c cachedProc
             (Error "Could not find depth chart table") i' Hid Hc);
      [discriminate | exact Hs].
Defined.

(** ** Worked cases *)

(** The end-to-end scenarios: a lower-case partial name finds Trae Young,
    who is last in his position and so has no backup, although his depth
    is 5 and the position has three entries. *)
Example resolve_partial_lowercase :
  getBackupForPlayer sampleChart "trae"
  = Some {| position := "PG";
            injuredPlayer := Some (entryOf 5 "Trae Young");
            primaryBackup := None;
            allBackups := [] |}.
Proof. reflexivity. Qed.

Example resolve_unknown_name :
  getBackupForPlayer sampleChart "LeBron James" = None.
Proof. reflexivity. Qed.

(** The first position wins when a name occurs in more than one. *)
Example resolve_first_position_wins :
  position <$> getBackupForPlayer sampleChart "a" = Some "PG".
Proof. reflexivity. Qed.

Example parse_gap_page :
  (scrapeESPNDepthChart (steadyWorld 7 (Some gapPage)) "atl" freshIo).1
  = inr {| team := "ATL";
           Scraper.timestamp := 7;
           positions :=
             [("PG",
               [{| depth := 1; name := "Dyson Daniels";
                   espnId := IdString "4869342"; injuryStatus := None |};
                {| depth := 3; name := "Keaton Wallace";
                   espnId := IdString "4279118"; injuryStatus := None |}])] |}.
Proof. vm_compute. reflexivity. Qed.

(** A capital O anywhere in the cell, the name included, reads as OUT. *)
Example status_from_name :
  injuryStatus
    (playerOfCell 0 (playerCell "4431680" "Onyeka Okongwu")
       (Dom.findA (playerCell "4431680" "Onyeka Okongwu")))
  = Some "OUT".
Proof. reflexivity. Qed.

Example trim_label : Js.trim "  PG  " = "PG".
Proof. reflexivity. Qed.

Example matchId_leftmost : Js.matchId "/id/12x/id/7/" = Some "7".
Proof. reflexivity. Qed.

(** Keys that are array indices come first in [Object.entries], in
    numeric order. *)
Example entries_index_keys_first :
  JsObject.entries
    (JsObject.set (JsObject.set (JsObject.set JsObject.empty "PG" 1) "10" 2) "2" 3)
  = [("2", 3); ("10", 2); ("PG", 1)].
Proof. reflexivity. Qed.

(** Without such keys, [Object.entries] is the creation order. *)
Lemma entries_creation_order {V} (o : JsObject.t V) :
  Forall (λ kv, JsObject.arrayIndex kv.1 = None) o →
  JsObject.entries o = o.
Proof.
  intros Ho. unfold JsObject.entries.
  assert (Hidx : JsObject.indexProps o = []).
  { induction Ho as [|[k v] o Hk _ IH]; simpl in *; [done|]. by rewrite Hk. }
  rewrite Hidx. simpl.
  induction Ho as [|[k v] o Hk Ho IH]; simpl in *; [done|].
  rewrite Hk in *. f_equal. by apply IH.
Qed.

(** * Further properties *)

(** ** Objects: keys and enumeration *)

Section ObjectKeys.
Context {V : Type}.
Implicit Types (o : JsObject.t V) (k : string) (v : V).

Lemma elem_of_define o k v (x : string * V) :
  x ∈ JsObject.define o k v → x = (k, v) ∨ x ∈ o.
Proof.
  induction o as [|[k0 v0] o IH]; simpl.
  - intros ?%list_elem_of_singleton. by left.
  - case_decide as Hk.
    + subst. intros [->|?]%elem_of_cons; [by left|]. right. by apply elem_of_cons; right.
    + intros [->|Hx]%elem_of_cons.
      * right. apply elem_of_cons. by left.
      * destruct (IH Hx) as [->|?]; [by left|]. right. apply elem_of_cons. by right.
Qed.

Lemma elem_of_set o k v (x : string * V) :
  x ∈ JsObject.set o k v → x = (k, v) ∨ x ∈ o.
Proof.
  unfold JsObject.set. case_decide; [by right | apply elem_of_define].
Qed.

Lemma get_None_keys o k : JsObject.get o k = None ↔ k ∉ o.*1.
Proof.
  induction o as [|[k0 v0] o IH]; simpl.
  - split; [intros _ ?%elem_of_nil; done | done].
  - rewrite not_elem_of_cons. case_decide as Hk.
    + subst. split; [done | by intros [? _]].
    + rewrite IH. split; [by intros ? | by intros [_ ?]].
Qed.

Lemma get_Some_elem o k v : JsObject.get o k = Some v → (k, v) ∈ o.
Proof.
  induction o as [|[k0 v0] o IH]; simpl; [done|].
  case_decide as Hk.
  - subst. intros [= ->]. apply elem_of_cons. by left.
  - intros H. apply elem_of_cons. right. auto.
Qed.

Lemma elem_get_NoDup o k v :
  NoDup o.*1 → (k, v) ∈ o → JsObject.get o k = Some v.
Proof.
  induction o as [|[k0 v0] o IH]; simpl.
  - by intros _ ?%elem_of_nil.
  - intros [Hk0 Hnd]%NoDup_cons [[= -> ->]|Hin]%elem_of_cons.
    + by rewrite decide_True.
    + rewrite decide_False; [by apply IH|].
      intros ->. apply Hk0. apply list_elem_of_fmap. by exists (k, v).
Qed.

Lemma define_absent o k v :
  k ∉ o.*1 → JsObject.define o k v = o ++ [(k, v)].
Proof.
  induction o as [|[k0 v0] o IH]; simpl; [done|].
  intros [Hne Hk]%not_elem_of_cons.
  rewrite decide_False by done. by rewrite IH.
Qed.

Lemma keys_define_present o k v :
  k ∈ o.*1 → (JsObject.define o k v).*1 = o.*1.
Proof.
  induction o as [|[k0 v0] o IH]; simpl.
  - by intros ?%elem_of_nil.
  - case_decide as Hk; [done|].
    intros [->|Hin]%elem_of_cons; [done|]. by rewrite !fmap_cons, IH.
Qed.

Lemma NoDup_keys_set o k v : NoDup o.*1 → NoDup (JsObject.set o k v).*1.
Proof.
  intros Hnd. unfold JsObject.set. case_decide; [done|].
  destruct (decide (k ∈ o.*1)) as [Hin|Hout].
  - by rewrite keys_define_present.
  - rewrite define_absent, fmap_app by done. simpl.
    apply NoDup_app. repeat split; [done| |apply NoDup_singleton].
    intros x Hx ->%list_elem_of_singleton. done.
Qed.

Lemma insertByIndex_perm (n : N) (kv : string * V) (l : list (N * (string * V))) :
  JsObject.insertByIndex n kv l ≡ₚ (n, kv) :: l.
Proof.
  induction l as [|[m kv'] l IH]; simpl; [done|].
  destruct (n <? m)%N; [done|]. rewrite IH. apply Permutation_swap.
Qed.

(** [Object.entries] lists every own property once. *)
Lemma entries_perm o : JsObject.entries o ≡ₚ o.
Proof.
  unfold JsObject.entries. induction o as [|[k v] o IH]; simpl; [done|].
  destruct (JsObject.arrayIndex k) as [n|].
  - rewrite insertByIndex_perm. simpl. by rewrite IH.
  - rewrite <- Permutation_middle. by rewrite IH.
Qed.

End ObjectKeys.

(** ** The parser: which rows a chart keeps *)

Lemma rowStep_NoDup (o : JsObject.t (list DepthEntry)) (lr : string * list Dom.Cell) :
  JsObject.get o "__proto__" = None → NoDup o.*1 → NoDup (rowStep o lr).*1.
Proof. intros Hp Hnd. rewrite rowStep_set by done. by apply NoDup_keys_set. Qed.

Lemma foldl_rowStep_NoDup (l : list (string * list Dom.Cell))
    (o : JsObject.t (list DepthEntry)) :
  JsObject.get o "__proto__" = None → NoDup o.*1 → NoDup (foldl rowStep o l).*1.
Proof.
  revert o. induction l as [|lr l IH]; intros o Hp Hnd; simpl; [done|].
  apply IH; [by apply rowStep_proto | by apply rowStep_NoDup].
Qed.

(** A position holds what the last row read under its label wrote. *)
Lemma get_foldl_last (l : list (string * list Dom.Cell)) (pos : string)
    (es : list DepthEntry) :
  JsObject.get (foldl rowStep JsObject.empty l) pos = Some es ↔
  pos ≠ "__proto__" ∧
  ∃ r row, l !! r = Some (pos, row) ∧ es = rowEntries 0 row ∧
           ∀ r' row', (r < r')%nat → l !! r' ≠ Some (pos, row').
Proof.
  destruct (decide (pos = "__proto__")) as [->|Hpos].
  { rewrite foldl_rowStep_proto by done. split; [done | by intros [? _]]. }
  induction l as [|[p row] l IH] using rev_ind.
  - simpl. split; [done | intros (_ & r & row & Hr & _); by rewrite lookup_nil in Hr].
  - rewrite foldl_snoc, rowStep_set, get_set by (by apply foldl_rowStep_proto).
    simpl. case_decide as Hd.
    + destruct Hd as [-> _]. split.
      * intros [= <-]. split; [done|]. exists (length l), row.
        rewrite list_lookup_middle by done. repeat split; auto.
        intros r' row' Hr' Hl. apply lookup_lt_Some in Hl.
        rewrite length_app in Hl. simpl in Hl. lia.
      * intros (_ & r & row0 & Hr & -> & Hlast).
        destruct (decide (r = length l)) as [->|Hne].
        -- rewrite list_lookup_middle in Hr by done. by injection Hr as <-.
        -- exfalso. apply (Hlast (length l) row).
           ++ apply lookup_lt_Some in Hr. rewrite length_app in Hr. simpl in Hr. lia.
           ++ by apply list_lookup_middle.
    + assert (Hp : p ≠ pos) by (intros ->; apply Hd; done).
      rewrite IH. split.
      * intros (_ & r & row0 & Hr & -> & Hlast). split; [done|].
        exists r, row0. repeat split; [by apply lookup_app_l_Some|].
        intros r' row' Hr' Hl. apply lookup_app_Some in Hl as [Hl|[_ Hl]].
        -- by eapply Hlast.
        -- apply list_lookup_singleton_Some in Hl as [_ [= ? _]]. done.
      * intros (_ & r & row0 & Hr & -> & Hlast). split; [done|].
        apply lookup_app_Some in Hr as [Hr|[_ Hr]].
        -- exists r, row0. repeat split; [done|].
           intros r' row' Hr' Hl. eapply Hlast; [done|]. by apply lookup_app_l_Some.
        -- apply list_lookup_singleton_Some in Hr as [_ [= ? _]]. done.
Qed.

Lemma scrape_positions (w : Runtime.World) (teamAbbr : string)
    (io io' : Runtime.Io) (chart : DepthChart) (table : Dom.Page) :
  scrapeESPNDepthChart w teamAbbr io = (inr chart, io') →
  Runtime.fetch w (length (Runtime.requests io)) (depthUrl teamAbbr) = Some table →
  positions chart = foldl rowStep JsObject.empty (labelledRows table).
Proof.
  intros Hs Hfetch. destruct (scrape_inv _ _ _ _ _ Hs) as (table' & Hfetch' & Hne).
  rewrite Hfetch in Hfetch'. injection Hfetch' as <-.
  rewrite (scrape_ok _ _ _ _ Hfetch Hne) in Hs. by injection Hs as <- _.
Qed.

(** X1. A position of a parsed chart holds the entries of the last body
    row read under its label: an earlier row with the same label is
    overwritten, a labelled row without links leaves an empty sequence,
    and a label that no row reaches (or the label [__proto__]) is absent. *)
Theorem position_last_row_wins (w : Runtime.World) (teamAbbr : string)
    (io io' : Runtime.Io) (chart : DepthChart) (table : Dom.Page)
    (pos : string) (es : list DepthEntry) :
  scrapeESPNDepthChart w teamAbbr io = (inr chart, io') →
  Runtime.fetch w (length (Runtime.requests io)) (depthUrl teamAbbr) = Some table →
  (JsObject.get (positions chart) pos = Some es ↔
   pos ≠ "__proto__" ∧
   ∃ r row, labelledRows table !! r = Some (pos, row) ∧
            es = rowEntries 0 row ∧
            ∀ r' row', (r < r')%nat → labelledRows table !! r' ≠ Some (pos, row')).
Proof.
  intros Hs Hfetch. rewrite (scrape_positions _ _ _ _ _ _ Hs Hfetch).
  apply get_foldl_last.
Qed.

Lemma position_last_row_wins_witness :
  let w := steadyWorld 0 (Some repeatedLabelPage) in
  ∃ chart io',
    scrapeESPNDepthChart w "atl" freshIo = (inr chart, io') ∧
    Runtime.fetch w (length (Runtime.requests freshIo)) (depthUrl "atl")
      = Some repeatedLabelPage ∧
    JsObject.get (positions chart) "PG"
      = Some (rowEntries 0 [playerCell "4277905" "Trae Young"]) ∧
    JsObject.get (positions chart) "C" = Some [].
Proof.
  intros w.
  assert (HL : labelledRows repeatedLabelPage
               = [("PG", gapRow); ("C", [[]; []]);
                  ("PG", [playerCell "4277905" "Trae Young"])])
    by (vm_compute; reflexivity).
  eexists _, _. split; [vm_compute; reflexivity|].
  split; [reflexivity|]. split.
  - eapply (position_last_row_wins w "atl" freshIo _ _ repeatedLabelPage "PG");
      [vm_compute; reflexivity | reflexivity |].
    rewrite HL.
    split; [discriminate|]. exists 2%nat, [playerCell "4277905" "Trae Young"].
    repeat split. intros [|[|[|r']]] row' Hr' Hl; try lia; discriminate.
  - eapply (position_last_row_wins w "atl" freshIo _ _ repeatedLabelPage "C");
      [vm_compute; reflexivity | reflexivity |].
    rewrite HL.
    split; [discriminate|]. exists 1%nat, [[]; []].
    repeat split. intros [|[|[|r']]] row' Hr' Hl; try lia; discriminate.
Defined.

(** X2. No position label occurs twice in a parsed chart, neither among
    its own properties nor in [Object.entries], and [Object.entries]
    lists exactly the pairs that a lookup by label returns. *)
Theorem parsed_positions_distinct (w : Runtime.World) (teamAbbr : string)
    (io io' : Runtime.Io) (chart : DepthChart) :
  scrapeESPNDepthChart w teamAbbr io = (inr chart, io') →
  NoDup (positions chart).*1 ∧
  NoDup (JsObject.entries (positions chart)).*1 ∧
  ∀ pos es, (pos, es) ∈ JsObject.entries (positions chart) ↔
            JsObject.get (positions chart) pos = Some es.
Proof.
  intros Hs. destruct (scrape_inv _ _ _ _ _ Hs) as (table & Hfetch & _).
  rewrite (scrape_positions _ _ _ _ _ _ Hs Hfetch).
  assert (Hnd : NoDup (foldl rowStep JsObject.empty (labelledRows table)).*1).
  { apply foldl_rowStep_NoDup; [done | constructor]. }
  split; [done|]. split; [by rewrite entries_perm|].
  intros pos es. rewrite entries_perm. split.
  - by apply elem_get_NoDup.
  - apply get_Some_elem.
Qed.

Lemma parsed_positions_distinct_witness :
  ∃ chart io',
    scrapeESPNDepthChart (steadyWorld 0 (Some repeatedLabelPage)) "atl" freshIo
      = (inr chart, io') ∧
    NoDup (positions chart).*1 ∧
    NoDup (JsObject.entries (positions chart)).*1 ∧
    ∀ pos es, (pos, es) ∈ JsObject.entries (positions chart) ↔
              JsObject.get (positions chart) pos = Some es.
Proof.
  eexists _, _. split; [vm_compute; reflexivity|].
  eapply (parsed_positions_distinct (steadyWorld 0 (Some repeatedLabelPage))
            "atl" freshIo).
  vm_compute; reflexivity.
Defined.

Lemma foldl_rowStep_distinct (l : list (string * list Dom.Cell))
    (o : JsObject.t (list DepthEntry)) :
  JsObject.get o "__proto__" = None →
  NoDup l.*1 →
  (∀ k, k ∈ l.*1 → (k ∉ o.*1) ∧ k ≠ "__proto__") →
  foldl rowStep o l = o ++ ((λ lr, (lr.1, rowEntries 0 lr.2)) <$> l).
Proof.
  revert o. induction l as [|[p row] l IH]; intros o Hp Hnd Hk; simpl.
  - by rewrite app_nil_r.
  - apply NoDup_cons in Hnd as [Hpl Hnd].
    destruct (Hk p) as [Hpo Hpp]; [apply elem_of_cons; by left|].
    rewrite rowStep_set by done. simpl. unfold JsObject.set.
    rewrite decide_False by done. rewrite define_absent by done.
    rewrite IH; [by rewrite <- app_assoc| |done|].
    + apply get_None_keys. rewrite fmap_app. simpl.
      intros [Hin|Hin%list_elem_of_singleton]%elem_of_app; [|done].
      by apply get_None_keys in Hp.
    + intros k Hkl. destruct (Hk k) as [Hko Hkp]; [apply elem_of_cons; by right|].
      split; [|done]. rewrite fmap_app. simpl.
      intros [Hin|Hin%list_elem_of_singleton]%elem_of_app; [done|].
      by subst.
Qed.

(** X3. When the labels that reach a row are pairwise distinct and none
    of them is an array index or [__proto__], [Object.entries] of the
    parsed chart follows the table: one pair per labelled row, in row
    order, holding the entries of that row. *)
Theorem entries_in_row_order (w : Runtime.World) (teamAbbr : string)
    (io io' : Runtime.Io) (chart : DepthChart) (table : Dom.Page) :
  scrapeESPNDepthChart w teamAbbr io = (inr chart, io') →
  Runtime.fetch w (length (Runtime.requests io)) (depthUrl teamAbbr) = Some table →
  NoDup (labelledRows table).*1 →
  Forall (λ lr, JsObject.arrayIndex lr.1 = None ∧ lr.1 ≠ "__proto__")
         (labelledRows table) →
  JsObject.entries (positions chart)
  = (λ lr, (lr.1, rowEntries 0 lr.2)) <$> labelledRows table.
Proof.
  intros Hs Hfetch Hnd Hall. rewrite (scrape_positions _ _ _ _ _ _ Hs Hfetch).
  rewrite foldl_rowStep_distinct; [|done|done|].
  - simpl. apply entries_creation_order.
    apply Forall_fmap. eapply Forall_impl; [exact Hall|]. by intros lr [? _].
  - intros k (lr & -> & Hin)%list_elem_of_fmap. split.
    + simpl. by intros ?%elem_of_nil.
    + by apply (proj1 (Forall_forall _ _) Hall lr Hin).
Qed.

Lemma entries_in_row_order_witness :
  let w := steadyWorld 0 (Some twoPositionPage) in
  ∃ chart io',
    scrapeESPNDepthChart w "atl" freshIo = (inr chart, io') ∧
    JsObject.entries (positions chart)
    = (λ lr, (lr.1, rowEntries 0 lr.2)) <$> labelledRows twoPositionPage.
Proof.
  intros w. eexists _, _. split; [vm_compute; reflexivity|].
  eapply (entries_in_row_order w "atl" freshIo _ _ twoPositionPage).
  - vm_compute; reflexivity.
  - reflexivity.
  - vm_compute. apply NoDup_cons. split.
    + intros [?|?%elem_of_nil]%elem_of_cons; [discriminate | done].
    + apply NoDup_singleton.
  - replace (labelledRows twoPositionPage)
      with [("PG", gapRow);
            ("SG", [playerCell "4278039" "Nickeil Alexander-Walker"])]
      by (vm_compute; reflexivity).
    repeat (constructor; [split; [reflexivity | discriminate]|]). constructor.
Defined.

(** ** The parser: identifiers and statuses *)

Lemma spanDigits_spec (s d r : string) :
  Js.spanDigits s = (d, r) → s = d +:+ r ∧ allDigits d = true.
Proof.
  revert d r. induction s as [|a s IH]; intros d r; simpl.
  - by intros [= <- <-].
  - destruct (Js.isDigit a) eqn:Ha.
    + destruct (Js.spanDigits s) as [d' r'] eqn:Hs. intros [= <- <-].
      destruct (IH d' r' eq_refl) as [-> Hd].
      split; [done|]. simpl. by rewrite Ha.
    + by intros [= <- <-].
Qed.

Lemma spanDigits_slash (d b : string) :
  allDigits d = true →
  Js.spanDigits (d +:+ "/" +:+ b) = (d, "/" +:+ b).
Proof.
  induction d as [|a d IH]; [reflexivity|]. cbn [allDigits].
  intros [Ha Hd]%andb_true_iff. rewrite append_cons. cbn [Js.spanDigits].
  by rewrite Ha, IH.
Qed.

Lemma matchIdAt_sound (s d : string) :
  Js.matchIdAt s = Some d →
  d ≠ "" ∧ allDigits d = true ∧ ∃ b, s = "/id/" +:+ d +:+ "/" +:+ b.
Proof.
  unfold Js.matchIdAt. destruct (Js.startsWith s "/id/") eqn:Hid; [|done].
  apply startsWith_spec in Hid as [rest ->].
  change (Js.dropChars 4 ("/id/" +:+ rest)) with rest.
  destruct (Js.spanDigits rest) as [d' r] eqn:Hs.
  apply spanDigits_spec in Hs as [-> Hd].
  destruct d' as [|a d']; [done|].
  destruct (Js.startsWith r "/") eqn:Hr; [|done].
  apply startsWith_spec in Hr as [b ->]. intros [= <-].
  split; [done|]. split; [done|]. by exists b.
Qed.

Lemma matchIdAt_complete (d b : string) :
  d ≠ "" → allDigits d = true →
  Js.matchIdAt ("/id/" +:+ d +:+ "/" +:+ b) = Some d.
Proof.
  intros Hne Hd. unfold Js.matchIdAt.
  change (Js.startsWith ("/id/" +:+ d +:+ "/" +:+ b) "/id/") with true.
  change (Js.dropChars 4 ("/id/" +:+ d +:+ "/" +:+ b)) with (d +:+ "/" +:+ b).
  rewrite spanDigits_slash by done. by destruct d.
Qed.

Lemma matchId_sound (s d : string) :
  Js.matchId s = Some d →
  d ≠ "" ∧ allDigits d = true ∧ Substring ("/id/" +:+ d +:+ "/") s.
Proof.
  induction s as [|a s IH]; cbn [Js.matchId].
  - done.
  - destruct (Js.matchIdAt (String a s)) as [d'|] eqn:Hm.
    + intros [= ->]. apply matchIdAt_sound in Hm as (? & ? & b & ->).
      split; [done|]. split; [done|]. exists "", b.
      by rewrite append_empty_l, append_assoc, append_assoc.
    + intros (? & ? & x & y & ->)%IH. split; [done|]. split; [done|].
      by exists (String a x), y.
Qed.

Lemma matchId_complete (s d : string) :
  d ≠ "" → allDigits d = true → Substring ("/id/" +:+ d +:+ "/") s →
  is_Some (Js.matchId s).
Proof.
  intros Hne Hd (x & y & ->). rewrite !append_assoc.
  induction x as [|a x IH].
  - rewrite append_empty_l.
    assert (Hm := matchIdAt_complete d y Hne Hd).
    change ("/id/" +:+ d +:+ "/" +:+ y)
      with (String "/" ("id/" +:+ d +:+ "/" +:+ y)) in *.
    cbn [Js.matchId]. by rewrite Hm.
  - rewrite append_cons. cbn [Js.matchId].
    destruct (Js.matchIdAt _); [done | exact IH].
Qed.

(** X4. The [espnId] of an entry is [null] exactly when the first link
    of the cell has no [href] or an empty one. When it is a string, it is
    a non-empty run of decimal digits that stands in the [href] between
    [/id/] and a slash; and whenever the [href] holds such a run, the
    [espnId] is a string. *)
Theorem espn_id_of_link (colIndex : nat) (cell : Dom.Cell)
    (link : list (option string * string)) :
  let e := playerOfCell colIndex cell link in
  (espnId e = IdNull ↔
     Dom.attrHref link = None ∨ Dom.attrHref link = Some "") ∧
  (∀ d, espnId e = IdString d →
        d ≠ "" ∧ allDigits d = true ∧
        ∃ u, Dom.attrHref link = Some u ∧ Substring ("/id/" +:+ d +:+ "/") u) ∧
  (∀ u d, Dom.attrHref link = Some u →
          d ≠ "" → allDigits d = true → Substring ("/id/" +:+ d +:+ "/") u →
          ∃ d', espnId e = IdString d').
Proof.
  intros e. subst e. unfold playerOfCell. cbn [espnId].
  destruct (Dom.attrHref link) as [[|a u]|] eqn:Hhref; cbn [Js.truthy].
  - split; [split; [intros _; by right | done]|]. split; [done|].
    intros u d [= <-] Hne Hd (x & y & Hxy).
    destruct x; rewrite ?append_cons in Hxy; discriminate.
  - destruct (Js.matchId (String a u)) as [d0|] eqn:Hm.
    + split; [split; [done | intros [?|?]; done]|]. split.
      * intros d [= <-]. apply matchId_sound in Hm as (? & ? & ?).
        split; [done|]. split; [done|]. by eexists.
      * intros. by eexists.
    + split; [split; [done | intros [?|?]; done]|]. split; [done|].
      intros u' d [= <-] Hne Hd Hsub.
      destruct (matchId_complete _ _ Hne Hd Hsub) as [d' Hd']. congruence.
  - split; [split; [intros _; by left | done]|]. split; done.
Qed.

Lemma includes_char (c : ascii) (s : string) :
  Js.includes s (String c "") = hasChar c s.
Proof.
  induction s as [|a s IH]; simpl; [done|].
  by rewrite andb_true_r, IH.
Qed.

Lemma hasChar_app (c : ascii) (s t : string) :
  hasChar c (s +:+ t) = hasChar c s || hasChar c t.
Proof.
  induction s as [|a s IH]; [done|].
  rewrite append_cons. simpl. by rewrite IH, orb_assoc.
Qed.

Lemma hasChar_trim (c : ascii) (s : string) :
  hasChar c (Js.trim s) = true → hasChar c s = true.
Proof.
  destruct (trim_spec s) as [(pre & post & Hs & _) _]. intros H.
  rewrite Hs, !hasChar_app, H. by rewrite orb_true_r.
Qed.

Lemma hasChar_linkText (c : ascii) (cell : Dom.Cell) :
  hasChar c (Dom.linkText (Dom.findA cell)) = true →
  hasChar c (Dom.cellText cell) = true.
Proof.
  induction cell as [|[s|h s] cell IH]; simpl; [done| |];
    rewrite !hasChar_app, !orb_true_iff; tauto.
Qed.

(** X5. In a parsed chart, an entry whose name contains a capital O has
    the status [OUT], whatever else the cell says: the name is part of
    the text in which the status is looked up. *)
Theorem capital_O_in_name_reads_out (w : Runtime.World) (teamAbbr : string)
    (io io' : Runtime.Io) (chart : DepthChart) (pos : string)
    (es : list DepthEntry) (e : DepthEntry) :
  scrapeESPNDepthChart w teamAbbr io = (inr chart, io') →
  JsObject.get (positions chart) pos = Some es →
  e ∈ es →
  Substring "O" (name e) →
  injuryStatus e = Some "OUT".
Proof.
  intros Hs Hget He HO.
  destruct (chart_entries_origin _ _ _ _ _ _ _ Hs Hget)
    as (table & row & _ & _ & ->).
  apply elem_of_rowEntries in He as (c & cell & _ & _ & ->).
  apply includes_spec in HO. simpl in *.
  rewrite includes_char in HO. apply hasChar_trim, hasChar_linkText in HO.
  by rewrite includes_char, HO.
Qed.

Lemma capital_O_in_name_reads_out_witness :
  let w := steadyWorld 0 (Some capitalOPage) in
  ∃ chart io' es e,
    scrapeESPNDepthChart w "atl" freshIo = (inr chart, io') ∧
    JsObject.get (positions chart) "C" = Some es ∧
    e ∈ es ∧
    name e = "Onyeka Okongwu" ∧
    Substring "O" (name e) ∧
    injuryStatus e = Some "OUT".
Proof.
  intros w. eexists _, _, _, _. split; [vm_compute; reflexivity|].
  split; [vm_compute; reflexivity|]. split; [apply list_elem_of_here|].
  split; [reflexivity|].
  assert (HO : Substring "O" "Onyeka Okongwu") by (by exists "", "nyeka Okongwu").
  split; [exact HO|].
  eapply (capital_O_in_name_reads_out w "atl" freshIo _ _ "C").
  - vm_compute; reflexivity.
  - vm_compute; reflexivity.
  - apply list_elem_of_here.
  - exact HO.
Defined.

(** ** The resolver: further properties *)

Lemma includes_refl (s : string) : Js.includes s s = true.
Proof.
  apply includes_spec. exists "", "". rewrite append_empty_l.
  induction s as [|a s IH]; [done|]. by rewrite append_cons, <- IH.
Qed.

(** Where a result of the resolver comes from. *)
Lemma resolve_Some_split (chart : DepthChart) (q : string) (r : BackupInfo) :
  getBackupForPlayer chart q = Some r →
  ∃ players earlier e later,
    (position r, players) ∈ JsObject.entries (positions chart) ∧
    players = earlier ++ e :: later ∧
    injuredPlayer r = Some e ∧
    nameMatches q e = true ∧
    primaryBackup r = head later ∧
    allBackups r = take 3 later.
Proof.
  unfold getBackupForPlayer. intros Hr.
  apply scanEntries_Some in Hr
    as (bf & players & af & i & Hes & _ & Hi & Hinj & Hpb & Hall).
  apply findIndex_Some in Hi as (ea & e & la & -> & <- & He & _).
  exists (ea ++ e :: la), ea, e, la. rewrite Hes, Hinj, Hpb, Hall.
  split; [apply elem_of_app; right; apply elem_of_cons; by left|].
  split; [done|]. split; [by rewrite list_lookup_middle|]. split; [done|].
  split.
  - rewrite head_lookup, lookup_app_r by lia.
    by replace (length ea + 1 - length ea)%nat with 1%nat by lia.
  - unfold slice. replace (length ea + 4 - (length ea + 1))%nat with 3%nat by lia.
    f_equal. rewrite drop_app_ge by lia.
    by replace (length ea + 1 - length ea)%nat with 1%nat by lia.
Qed.

(** X6. A name that stands on the chart is always found: resolving the
    exact name of any listed entry returns a result, whose matched entry
    contains that name. *)
Theorem listed_name_is_found (chart : DepthChart) (pos : string)
    (players : list DepthEntry) (e : DepthEntry) :
  (pos, players) ∈ JsObject.entries (positions chart) →
  e ∈ players →
  ∃ r e',
    getBackupForPlayer chart (name e) = Some r ∧
    injuredPlayer r = Some e' ∧
    Matches (name e) e'.
Proof.
  intros Hpos He.
  destruct (getBackupForPlayer chart (name e)) as [r|] eqn:Hr.
  - destruct (resolve_Some_split _ _ _ Hr) as (pl & ea & e' & la & _ & _ & Hinj & Hm & _).
    exists r, e'. repeat split; [done|]. by apply nameMatches_true.
  - unfold getBackupForPlayer in Hr.
    pose proof (scanEntries_None _ _ Hr pos players e Hpos He) as Hno.
    unfold nameMatches in Hno. by rewrite includes_refl in Hno.
Qed.

Lemma listed_name_is_found_witness :
  (("SG", [entryOf 1 "Nickeil Alexander-Walker"])
     ∈ JsObject.entries (positions sampleChart)) ∧
  ∃ r e',
    getBackupForPlayer sampleChart (name (entryOf 1 "Nickeil Alexander-Walker"))
      = Some r ∧
    injuredPlayer r = Some e' ∧
    Matches (name (entryOf 1 "Nickeil Alexander-Walker")) e'.
Proof.
  assert (Hin : ("SG", [entryOf 1 "Nickeil Alexander-Walker"])
                  ∈ JsObject.entries (positions sampleChart)).
  { apply elem_of_cons. right. apply list_elem_of_here. }
  split; [exact Hin|].
  apply (listed_name_is_found sampleChart "SG"
           [entryOf 1 "Nickeil Alexander-Walker"]
           (entryOf 1 "Nickeil Alexander-Walker") Hin).
  apply list_elem_of_here.
Defined.

Lemma scanEntries_ext (es : list (string * list DepthEntry)) (q q' : string) :
  Js.toLowerCase q = Js.toLowerCase q' →
  scanEntries es q = scanEntries es q'.
Proof.
  intros Hq. induction es as [|[pos players] es IH]; simpl; [done|].
  assert (Hf : findIndex (nameMatches q) players = findIndex (nameMatches q') players).
  { clear IH. induction players as [|p players IHp]; simpl; [done|].
    unfold nameMatches at 1 3. by rewrite Hq, IHp. }
  by rewrite Hf, IH.
Qed.

(** X7. The case of the ASCII letters of a query does not matter: a
    query of ASCII characters gets the same result as its upper-cased
    form, its lower-cased form, and any other ASCII query that differs
    from it only in the case of letters. *)
Theorem query_case_is_ignored (chart : DepthChart) (q : string) :
  isAscii q = true →
  getBackupForPlayer chart (Js.toUpperCase q) = getBackupForPlayer chart q ∧
  getBackupForPlayer chart (Js.toLowerCase q) = getBackupForPlayer chart q ∧
  ∀ q', isAscii q' = true →
        mapChars lowerChar q' = mapChars lowerChar q →
        getBackupForPlayer chart q' = getBackupForPlayer chart q.
Proof.
  intros Hq. unfold getBackupForPlayer.
  assert (Hup : isAscii (mapChars upperChar q) = true)
    by (by apply isAscii_mapChars; [apply upperChar_ascii|]).
  assert (Hlo : isAscii (mapChars lowerChar q) = true)
    by (by apply isAscii_mapChars; [apply lowerChar_ascii|]).
  split; [|split].
  - apply scanEntries_ext.
    rewrite (toUpperCase_ascii q Hq), (toLowerCase_ascii q Hq),
      (toLowerCase_ascii _ Hup).
    clear. induction q as [|a q IH]; [done|]. cbn [mapChars].
    by rewrite lower_upper_char, IH.
  - apply scanEntries_ext.
    rewrite (toLowerCase_ascii q Hq), (toLowerCase_ascii _ Hlo).
    clear. induction q as [|a q IH]; [done|]. cbn [mapChars].
    by rewrite lower_lower_char, IH.
  - intros q' Hq' Heq. apply scanEntries_ext.
    by rewrite !toLowerCase_ascii.
Qed.

Lemma query_case_is_ignored_witness :
  isAscii "Keaton Wallace" = true ∧
  getBackupForPlayer sampleChart (Js.toUpperCase "Keaton Wallace")
  = getBackupForPlayer sampleChart "Keaton Wallace" ∧
  getBackupForPlayer sampleChart (Js.toLowerCase "Keaton Wallace")
  = getBackupForPlayer sampleChart "Keaton Wallace" ∧
  ∀ q', isAscii q' = true →
        mapChars lowerChar q' = mapChars lowerChar "Keaton Wallace" →
        getBackupForPlayer sampleChart q'
        = getBackupForPlayer sampleChart "Keaton Wallace".
Proof.
  split; [reflexivity|].
  apply (query_case_is_ignored sampleChart "Keaton Wallace"). reflexivity.
Defined.

Lemma parsed_entries_row (w : Runtime.World) (teamAbbr : string)
    (io io' : Runtime.Io) (chart : DepthChart) (pos : string)
    (es : list DepthEntry) :
  scrapeESPNDepthChart w teamAbbr io = (inr chart, io') →
  (pos, es) ∈ JsObject.entries (positions chart) →
  ∃ row, es = rowEntries 0 row.
Proof.
  intros Hs Hin. rewrite entries_perm in Hin.
  destruct (scrape_inv _ _ _ _ _ Hs) as (table & Hfetch & _).
  assert (Hnd : NoDup (positions chart).*1).
  { rewrite (scrape_positions _ _ _ _ _ _ Hs Hfetch).
    apply foldl_rowStep_NoDup; [done | constructor]. }
  apply elem_get_NoDup in Hin; [|done].
  destruct (chart_entries_origin _ _ _ _ _ _ _ Hs Hin) as (_ & row & _ & _ & ->).
  by exists row.
Qed.

Lemma sorted_take {A} (R : relation A) (l : list A) (n : nat) :
  StronglySorted R l → StronglySorted R (take n l).
Proof.
  intros Hl. revert n. induction Hl as [|z l Hl IHl Hz]; intros [|n]; simpl;
    try constructor; auto. by apply Forall_take.
Qed.

Lemma sorted_after {A} (R : relation A) (earlier later : list A) (x : A) (n : nat) :
  StronglySorted R (earlier ++ x :: later) →
  StronglySorted R (x :: take n later).
Proof.
  induction earlier as [|y earlier IH]; simpl.
  - intros H. inversion H as [|? ? Hl Hx]; subst. constructor.
    + by apply sorted_take.
    + by apply Forall_take.
  - intros H. inversion H; subst. auto.
Qed.

(** X8. On a chart that the scraper produced, the matched player and the
    backups after him are in strictly increasing depth: every backup is
    deeper than the player, and the primary backup is the shallowest one. *)
Theorem backups_are_deeper (w : Runtime.World) (teamAbbr : string)
    (io io' : Runtime.Io) (chart : DepthChart) (playerName : string)
    (r : BackupInfo) :
  scrapeESPNDepthChart w teamAbbr io = (inr chart, io') →
  getBackupForPlayer chart playerName = Some r →
  ∃ e,
    injuredPlayer r = Some e ∧
    StronglySorted Z.lt (depth <$> e :: allBackups r) ∧
    (∀ b, b ∈ allBackups r → (depth e < depth b)%Z) ∧
    (∀ p b, primaryBackup r = Some p → b ∈ allBackups r → (depth p ≤ depth b)%Z).
Proof.
  intros Hs Hr.
  destruct (resolve_Some_split _ _ _ Hr)
    as (players & ea & e & la & Hin & -> & Hinj & _ & Hpb & Hall).
  destruct (parsed_entries_row _ _ _ _ _ _ _ Hs Hin) as (row & Hrow).
  pose proof (rowEntries_sorted 0 row) as Hsorted. rewrite <- Hrow in Hsorted.
  rewrite fmap_app, fmap_cons in Hsorted.
  apply (sorted_after _ _ _ _ 3) in Hsorted. rewrite <- fmap_take, <- Hall in Hsorted.
  exists e. split; [done|]. split; [done|].
  inversion Hsorted as [|? ? Hrest Hlt]; subst. split.
  - intros b Hb. apply (proj1 (Forall_forall _ _) Hlt).
    by apply list_elem_of_fmap_2.
  - intros p b Hp Hb. rewrite Hpb in Hp. rewrite Hall in *.
    destruct la as [|p' la]; [done|]. injection Hp as ->. simpl in *.
    apply elem_of_cons in Hb as [->|Hb]; [lia|].
    inversion Hrest as [|? ? _ Hlt']; subst.
    apply Z.lt_le_incl, (proj1 (Forall_forall _ _) Hlt').
    by apply list_elem_of_fmap_2.
Qed.

Lemma backups_are_deeper_witness :
  let w := steadyWorld 0 (Some gapPage) in
  let r := {| position := "PG";
              injuredPlayer := Some gapStarter;
              primaryBackup := Some gapThird;
              allBackups := [gapThird] |} in
  scrapeESPNDepthChart w "atl" freshIo = (inr gapChart, oneScrapeIo) ∧
  getBackupForPlayer gapChart "dyson" = Some r ∧
  depth <$> allBackups r = [3%Z] ∧
  ∃ e,
    injuredPlayer r = Some e ∧
    StronglySorted Z.lt (depth <$> e :: allBackups r) ∧
    (∀ b, b ∈ allBackups r → (depth e < depth b)%Z) ∧
    (∀ p b, primaryBackup r = Some p → b ∈ allBackups r →
            (depth p ≤ depth b)%Z).
Proof.
  intros w r.
  assert (Hs : scrapeESPNDepthChart w "atl" freshIo = (inr gapChart, oneScrapeIo))
    by (vm_compute; reflexivity).
  assert (Hr : getBackupForPlayer gapChart "dyson" = Some r)
    by (vm_compute; reflexivity).
  split; [exact Hs|]. split; [exact Hr|]. split; [reflexivity|].
  exact (backups_are_deeper w "atl" freshIo oneScrapeIo gapChart "dyson" r Hs Hr).
Defined.

(** ** The cache: further properties *)

Lemma getTeamDepthChart_absent (w : Runtime.World) (teamId : Z)
    (espnCode : string) (s : Proc) :
  TEAM_ID_TO_ESPN teamId = Some espnCode →
  depthChartCache s !! espnCode = None →
  getTeamDepthChart w teamId s = refresh w espnCode s.
Proof.
  intros Hid Hc. unfold getTeamDepthChart. rewrite Hid.
  unfold Runtime.bind, cacheGet. by rewrite Hc.
Qed.

(** Every call is one of three: no code, a fresh hit, or a refresh after
    at most one reading of the clock. *)
Lemma getTeamDepthChart_cases (w : Runtime.World) (teamId : Z) (s : Proc) :
  (TEAM_ID_TO_ESPN teamId = None ∧ getTeamDepthChart w teamId s = (None, s)) ∨
  (∃ espnCode c,
     TEAM_ID_TO_ESPN teamId = Some espnCode ∧
     depthChartCache s !! espnCode = Some c ∧
     getTeamDepthChart w teamId s
     = (Some (data c),
        {| depthChartCache := depthChartCache s; io := afterClockRead (io s) |})) ∨
  (∃ espnCode s0,
     TEAM_ID_TO_ESPN teamId = Some espnCode ∧
     depthChartCache s0 = depthChartCache s ∧
     Runtime.requests (io s0) = Runtime.requests (io s) ∧
     getTeamDepthChart w teamId s = refresh w espnCode s0).
Proof.
  destruct (TEAM_ID_TO_ESPN teamId) as [code|] eqn:Hid.
  - destruct (depthChartCache s !! code) as [c|] eqn:Hc.
    + rewrite (getTeamDepthChart_cached _ _ _ _ _ Hid Hc). cbv zeta.
      destruct (_ <? _)%Z.
      * right. left. by exists code, c.
      * right. right.
        by exists code, {| depthChartCache := depthChartCache s;
                           io := afterClockRead (io s) |}.
    + right. right. exists code, s.
      by rewrite (getTeamDepthChart_absent _ _ _ _ Hid Hc).
  - left. split; [done|]. unfold getTeamDepthChart. by rewrite Hid.
Qed.

(** X9. For a team whose key has no record, the call makes exactly one
    request, for the depth page of the team's ESPN code. When the scraper
    succeeds the chart is returned and recorded with the reading of the
    clock taken after the scrape; when it throws, the call returns [null]
    and no record is created. *)
Theorem first_call_fetches_once (w : Runtime.World) (teamId : Z)
    (espnCode : string) (s : Proc) :
  TEAM_ID_TO_ESPN teamId = Some espnCode →
  depthChartCache s !! espnCode = None →
  let out := getTeamDepthChart w teamId s in
  Runtime.requests (io out.2) = Runtime.requests (io s) ++ [depthUrl espnCode] ∧
  match scrapeESPNDepthChart w espnCode (io s) with
  | (inr chart, i) =>
      out.1 = Some chart ∧
      depthChartCache out.2
      = <[espnCode := {| data := chart;
                         timestamp := Runtime.clock w (Runtime.clockReads i) |}]>
          (depthChartCache s)
  | (inl _, _) =>
      out.1 = None ∧
      depthChartCache out.2 = depthChartCache s ∧
      depthChartCache out.2 !! espnCode = None
  end.
Proof.
  intros Hid Hc out. unfold out.
  rewrite (getTeamDepthChart_absent _ _ _ _ Hid Hc), refresh_eq.
  pose proof (scrape_requests w espnCode (io s)) as Hreq.
  destruct (scrapeESPNDepthChart w espnCode (io s)) as [[err|chart] i]; simpl in *;
    by repeat split.
Qed.

Lemma first_call_fetches_once_witness :
  let w := steadyWorld 0 (Some gapPage) in
  TEAM_ID_TO_ESPN 1 = Some "atl" ∧
  depthChartCache freshProc !! "atl" = None ∧
  scrapeESPNDepthChart w "atl" (io freshProc) = (inr gapChart, oneScrapeIo) ∧
  getTeamDepthChart w 1 freshProc = (Some gapChart, gapProc) ∧
  Runtime.requests (io (getTeamDepthChart w 1 freshProc).2)
  = Runtime.requests (io freshProc) ++ [depthUrl "atl"].
Proof.
  intros w.
  assert (Hid : TEAM_ID_TO_ESPN 1 = Some "atl") by reflexivity.
  assert (Hc : depthChartCache freshProc !! "atl" = None) by reflexivity.
  split; [exact Hid|]. split; [exact Hc|].
  split; [vm_compute; reflexivity|]. split; [reflexivity|].
  apply (first_call_fetches_once w 1 "atl" freshProc Hid Hc).
Defined.

Lemma refresh_frame (w : Runtime.World) (espnCode k : string) (s : Proc) :
  espnCode ≠ k →
  depthChartCache (refresh w espnCode s).2 !! k = depthChartCache s !! k.
Proof.
  intros Hne. rewrite refresh_eq.
  destruct (scrapeESPNDepthChart w espnCode (io s)) as [[err|chart] i]; simpl;
    [done|]. by rewrite lookup_insert_ne.
Qed.

(** X10. A call never touches the record of another key: whatever the
    outcome, the cache holds under every key other than the team's own
    ESPN code what it held before. *)
Theorem other_keys_untouched (w : Runtime.World) (teamId : Z) (s : Proc)
    (k : string) :
  TEAM_ID_TO_ESPN teamId ≠ Some k →
  depthChartCache (getTeamDepthChart w teamId s).2 !! k = depthChartCache s !! k.
Proof.
  intros Hk.
  destruct (getTeamDepthChart_cases w teamId s)
    as [[_ ->]|[(code & c & _ & _ & ->)|(code & s0 & Hid & Hcache & _ & ->)]];
    [done|done|].
  rewrite refresh_frame, Hcache; [done|]. intros ->. by apply Hk.
Qed.

Lemma other_keys_untouched_witness :
  let w := steadyWorld 0 (Some gapPage) in
  let stale := steadyWorld (1000 + 21600000) (Some gapPage) in
  TEAM_ID_TO_ESPN 2 ≠ Some "atl" ∧
  depthChartCache cachedProc !! "atl"
  = Some {| data := sampleChart; timestamp := 1000 |} ∧
  depthChartCache (getTeamDepthChart stale 2 cachedProc).2 !! "atl"
  = depthChartCache cachedProc !! "atl".
Proof.
  intros w stale.
  assert (Hk : TEAM_ID_TO_ESPN 2 ≠ Some "atl") by discriminate.
  split; [exact Hk|]. split; [reflexivity|].
  apply (other_keys_untouched stale 2 cachedProc "atl" Hk).
Defined.

(** What a call returns and what it leaves in the cache. *)
Lemma returned_chart_is_recorded_aux (w : Runtime.World) (teamId : Z) (s : Proc) :
  let out := getTeamDepthChart w teamId s in
  match out.1 with
  | Some chart =>
      ∃ espnCode c,
        TEAM_ID_TO_ESPN teamId = Some espnCode ∧
        depthChartCache out.2 !! espnCode = Some c ∧
        data c = chart
  | None => depthChartCache out.2 = depthChartCache s
  end.
Proof.
  cbv zeta.
  destruct (getTeamDepthChart_cases w teamId s)
    as [[_ ->]|[(code & c & Hid & Hc & ->)|(code & s0 & Hid & Hcache & _ & ->)]];
    simpl; [done | by exists code, c |].
  rewrite refresh_eq.
  destruct (scrapeESPNDepthChart w code (io s0)) as [[err|chart] i]; simpl; [done|].
  eexists code, _. split; [done|]. split; [apply lookup_insert_eq | done].
Qed.

(** X11. A chart that a call returns is the chart recorded under the
    team's code when the call ends, and a call that returns [null]
    leaves the cache as it was. *)
Theorem returned_chart_is_recorded (w : Runtime.World) (teamId : Z) (s : Proc) :
  let out := getTeamDepthChart w teamId s in
  match out.1 with
  | Some chart =>
      ∃ espnCode c,
        TEAM_ID_TO_ESPN teamId = Some espnCode ∧
        depthChartCache out.2 !! espnCode = Some c ∧
        data c = chart
  | None => depthChartCache out.2 = depthChartCache s
  end.
Proof. apply returned_chart_is_recorded_aux. Qed.

(** X12. A call that follows a successful one for the same team, and
    reads the clock less than the window after the recorded timestamp,
    returns the same chart and makes no request. *)
Theorem repeated_call_is_served (w : Runtime.World) (teamId : Z)
    (s s1 : Proc) (chart : DepthChart) :
  getTeamDepthChart w teamId s = (Some chart, s1) →
  (∀ espnCode c,
     TEAM_ID_TO_ESPN teamId = Some espnCode →
     depthChartCache s1 !! espnCode = Some c →
     (Runtime.clock w (Runtime.clockReads (io s1)) - timestamp c < CACHE_TTL)%Z) →
  getTeamDepthChart w teamId s1
  = (Some chart,
     {| depthChartCache := depthChartCache s1; io := afterClockRead (io s1) |}).
Proof.
  intros Hcall Hfresh.
  pose proof (returned_chart_is_recorded_aux w teamId s) as Hrec.
  rewrite Hcall in Hrec. simpl in Hrec.
  destruct Hrec as (code & c & Hid & Hc & <-).
  rewrite (getTeamDepthChart_cached _ _ _ _ _ Hid Hc). cbv zeta.
  specialize (Hfresh code c Hid Hc). apply Z.ltb_lt in Hfresh. by rewrite Hfresh.
Qed.

Lemma repeated_call_is_served_witness :
  let w := steadyWorld 0 (Some gapPage) in
  getTeamDepthChart w 1 freshProc = (Some gapChart, gapProc) ∧
  getTeamDepthChart w 1 gapProc
  = (Some gapChart,
     {| depthChartCache := depthChartCache gapProc;
        io := afterClockRead (io gapProc) |}).
Proof.
  intros w.
  assert (H1 : getTeamDepthChart w 1 freshProc = (Some gapChart, gapProc))
    by reflexivity.
  split; [exact H1|].
  apply (repeated_call_is_served w 1 freshProc gapProc gapChart H1).
  intros code c [= <-] Hc.
  assert (Hl : depthChartCache gapProc !! "atl"
               = Some {| data := gapChart; timestamp := 1 |}) by reflexivity.
  rewrite Hl in Hc. injection Hc as <-. reflexivity.
Defined.

Lemma scrape_chart_wf (w : Runtime.World) (espnCode : string)
    (i i' : Runtime.Io) (chart : DepthChart) :
  scrapeESPNDepthChart w espnCode i = (inr chart, i') →
  team chart = Js.toUpperCase espnCode ∧ SortedChart chart.
Proof.
  intros Hs. destruct (scrape_inv _ _ _ _ _ Hs) as (table & Hfetch & Hne).
  split.
  - rewrite (scrape_ok _ _ _ _ Hfetch Hne) in Hs. by injection Hs as <- _.
  - intros pos es Hin.
    assert (Hnd : NoDup (positions chart).*1).
    { rewrite (scrape_positions _ _ _ _ _ _ Hs Hfetch).
      apply foldl_rowStep_NoDup; [done | constructor]. }
    apply elem_get_NoDup in Hin; [|done].
    destruct (chart_entries_origin _ _ _ _ _ _ _ Hs Hin) as (_ & row & _ & _ & ->).
    apply rowEntries_sorted.
Qed.

Lemma cache_invariant (w : Runtime.World) (teamId : Z) (s : Proc) :
  CacheOfScrapes (depthChartCache s) →
  CacheOfScrapes (depthChartCache (getTeamDepthChart w teamId s).2) ∧
  ∀ chart, (getTeamDepthChart w teamId s).1 = Some chart →
           SortedChart chart ∧
           ∃ espnCode, TEAM_ID_TO_ESPN teamId = Some espnCode ∧
                       team chart = Js.toUpperCase espnCode.
Proof.
  intros Hinv.
  destruct (getTeamDepthChart_cases w teamId s)
    as [[_ ->]|[(code & c & Hid & Hc & ->)|(code & s0 & Hid & Hcache & _ & ->)]];
    simpl.
  - split; [done|]. by intros chart [=].
  - split; [done|]. intros chart [= <-]. destruct (Hinv _ _ Hc) as [Ht Hsorted].
    split; [done|]. by exists code.
  - rewrite refresh_eq.
    destruct (scrapeESPNDepthChart w code (io s0)) as [[err|chart] i] eqn:Hs; simpl.
    + rewrite Hcache. split; [done|]. by intros chart [=].
    + destruct (scrape_chart_wf _ _ _ _ _ Hs) as [Ht Hsorted]. split.
      * intros k c. rewrite Hcache. destruct (decide (code = k)) as [<-|Hne].
        -- rewrite lookup_insert_eq. by intros [= <-].
        -- rewrite lookup_insert_ne by done. apply Hinv.
      * intros chart' [= <-]. split; [done|]. by exists code.
Qed.

(** X13. If every record of the cache holds a chart of its own team with
    strictly increasing depths, as the records written by the cache
    itself do, then so does every record after a call, and so does the
    chart that the call returns. The empty cache is such a cache. *)
Theorem cache_holds_scraped_charts (w : Runtime.World) (teamId : Z) (s : Proc) :
  CacheOfScrapes (depthChartCache s) →
  CacheOfScrapes (depthChartCache (getTeamDepthChart w teamId s).2) ∧
  ∀ chart, (getTeamDepthChart w teamId s).1 = Some chart →
           SortedChart chart ∧
           ∃ espnCode, TEAM_ID_TO_ESPN teamId = Some espnCode ∧
                       team chart = Js.toUpperCase espnCode.
Proof. apply cache_invariant. Qed.

Lemma cache_holds_scraped_charts_witness :
  let w := steadyWorld 0 (Some gapPage) in
  CacheOfScrapes (depthChartCache freshProc) ∧
  CacheOfScrapes (depthChartCache (getTeamDepthChart w 1 freshProc).2) ∧
  ∀ chart, (getTeamDepthChart w 1 freshProc).1 = Some chart →
           SortedChart chart ∧
           ∃ espnCode, TEAM_ID_TO_ESPN 1 = Some espnCode ∧
                       team chart = Js.toUpperCase espnCode.
Proof.
  intros w.
  assert (H0 : CacheOfScrapes (depthChartCache freshProc)).
  { intros k c Hk. simpl in Hk. by rewrite lookup_empty in Hk. }
  split; [exact H0|].
  apply (cache_holds_scraped_charts w 1 freshProc H0).
Defined.

(** ** The backup lookup for a player *)

(** X14. A player without a team id, with the team id 0, or with a team
    id that [TEAM_ID_TO_ESPN] does not map gets [null], and nothing
    happens: no clock reading, no request, no change to the cache. *)
Theorem no_team_no_lookup (w : Runtime.World) (player : Backups.Player)
    (s : Proc) :
  Backups.team_id player = None ∨
  Backups.team_id player = Some 0%Z ∨
  (∃ teamId, Backups.team_id player = Some teamId ∧
             TEAM_ID_TO_ESPN teamId = None) →
  Backups.getBackupsFromDepthChart w player s = (None, s).
Proof.
  unfold Backups.getBackupsFromDepthChart.
  intros [->| [->|(teamId & -> & Hid)]]; [done|done|].
  destruct (teamId =? 0)%Z; [done|].
  unfold Runtime.bind, getTeamDepthChart. by rewrite Hid.
Qed.

Lemma no_team_no_lookup_witness :
  let player := {| Backups.team_id := Some 31%Z;
                   Backups.first_name := "Trae";
                   Backups.last_name := "Young" |} in
  (Backups.team_id player = None ∨
   Backups.team_id player = Some 0%Z ∨
   (∃ teamId, Backups.team_id player = Some teamId ∧
              TEAM_ID_TO_ESPN teamId = None)) ∧
  Backups.getBackupsFromDepthChart (steadyWorld 0 (Some gapPage)) player cachedProc
  = (None, cachedProc).
Proof.
  intros player.
  assert (H : Backups.team_id player = None ∨
              Backups.team_id player = Some 0%Z ∨
              (∃ teamId, Backups.team_id player = Some teamId ∧
                         TEAM_ID_TO_ESPN teamId = None)).
  { right. right. by exists 31%Z. }
  split; [exact H|].
  apply (no_team_no_lookup (steadyWorld 0 (Some gapPage)) player cachedProc H).
Defined.

(** How a summary comes about. *)
Lemma summary_inv (w : Runtime.World) (player : Backups.Player)
    (s s' : Proc) (sm : Backups.Summary) :
  Backups.getBackupsFromDepthChart w player s = (Some sm, s') →
  ∃ teamId chart r e,
    Backups.team_id player = Some teamId ∧
    teamId ≠ 0%Z ∧
    getTeamDepthChart w teamId s = (Some chart, s') ∧
    getBackupForPlayer chart (fullName player) = Some r ∧
    injuredPlayer r = Some e ∧
    sm = {| Backups.position := position r;
            Backups.injuredDepth := depth e;
            Backups.primaryBackup := Backups.refOf <$> primaryBackup r;
            Backups.allBackups := Backups.refOf <$> allBackups r |}.
Proof.
  unfold Backups.getBackupsFromDepthChart, fullName.
  destruct (Backups.team_id player) as [teamId|]; [|done].
  destruct (teamId =? 0)%Z eqn:Hz; [done|]. apply Z.eqb_neq in Hz.
  unfold Runtime.bind, Runtime.ret.
  destruct (getTeamDepthChart w teamId s) as [[chart|] s1] eqn:Hcall; [|done].
  destruct (getBackupForPlayer chart _) as [r|] eqn:Hr; [|done].
  destruct (injuredPlayer r) as [e|] eqn:He; [|done].
  intros [= <- <-]. by exists teamId, chart, r, e.
Qed.

(** X15. A summary is built from the result of the resolver on the chart
    that the cache returned for the player's team, queried with the first
    and the last name joined by one space: the matched entry contains
    that full name, the summary carries its position and depth, its
    [primaryBackup] is the head of its [allBackups], and [allBackups] has
    at most three elements. *)
Theorem backup_summary_shape (w : Runtime.World) (player : Backups.Player)
    (s s' : Proc) (sm : Backups.Summary) :
  Backups.getBackupsFromDepthChart w player s = (Some sm, s') →
  ∃ teamId chart r e,
    Backups.team_id player = Some teamId ∧
    getTeamDepthChart w teamId s = (Some chart, s') ∧
    getBackupForPlayer chart (fullName player) = Some r ∧
    injuredPlayer r = Some e ∧
    Matches (fullName player) e ∧
    Backups.position sm = position r ∧
    Backups.injuredDepth sm = depth e ∧
    Backups.allBackups sm = Backups.refOf <$> allBackups r ∧
    Backups.primaryBackup sm = head (Backups.allBackups sm) ∧
    (length (Backups.allBackups sm) ≤ 3)%nat.
Proof.
  intros (teamId & chart & r & e & Hteam & _ & Hcall & Hr & He & ->)%summary_inv.
  exists teamId, chart, r, e. simpl. do 4 (split; [done|]).
  destruct (resolve_Some_split _ _ _ Hr)
    as (players & ea & e' & la & _ & _ & He' & Hm & Hpb & Hall).
  rewrite He in He'. injection He' as <-.
  split; [by apply nameMatches_true|]. do 3 (split; [done|]).
  rewrite Hpb, Hall. split.
  - by destruct la.
  - rewrite length_fmap, length_take. lia.
Qed.

Lemma backup_summary_shape_witness :
  let w := steadyWorld 0 (Some gapPage) in
  Backups.getBackupsFromDepthChart w dysonDaniels freshProc
  = (Some dysonSummary, gapProc) ∧
  ∃ teamId chart r e,
    Backups.team_id dysonDaniels = Some teamId ∧
    getTeamDepthChart w teamId freshProc = (Some chart, gapProc) ∧
    getBackupForPlayer chart (fullName dysonDaniels) = Some r ∧
    injuredPlayer r = Some e ∧
    Matches (fullName dysonDaniels) e ∧
    Backups.position dysonSummary = position r ∧
    Backups.injuredDepth dysonSummary = depth e ∧
    Backups.allBackups dysonSummary = Backups.refOf <$> allBackups r ∧
    Backups.primaryBackup dysonSummary = head (Backups.allBackups dysonSummary) ∧
    (length (Backups.allBackups dysonSummary) ≤ 3)%nat.
Proof.
  intros w.
  assert (H : Backups.getBackupsFromDepthChart w dysonDaniels freshProc
              = (Some dysonSummary, gapProc)) by reflexivity.
  split; [exact H|].
  exact (backup_summary_shape w dysonDaniels freshProc gapProc dysonSummary H).
Defined.

(** X16. When the cache holds charts of the scraper, every backup of a
    summary is deeper than the player: the depth of the player and the
    depths of [allBackups] are strictly increasing in that order. *)
Theorem summary_backups_are_deeper (w : Runtime.World)
    (player : Backups.Player) (s s' : Proc) (sm : Backups.Summary) :
  CacheOfScrapes (depthChartCache s) →
  Backups.getBackupsFromDepthChart w player s = (Some sm, s') →
  StronglySorted Z.lt
    (Backups.injuredDepth sm :: (Backups.depth <$> Backups.allBackups sm)) ∧
  ∀ b, b ∈ Backups.allBackups sm →
       (Backups.injuredDepth sm < Backups.depth b)%Z.
Proof.
  intros Hinv (teamId & chart & r & e & _ & _ & Hcall & Hr & He & ->)%summary_inv.
  simpl.
  destruct (cache_invariant w teamId s Hinv) as [_ Hchart].
  rewrite Hcall in Hchart. destruct (Hchart chart eq_refl) as [Hsorted _].
  destruct (resolve_Some_split _ _ _ Hr)
    as (players & ea & e' & la & Hin & -> & He' & _ & _ & Hall).
  rewrite He in He'. injection He' as <-.
  rewrite entries_perm in Hin. apply Hsorted in Hin.
  rewrite fmap_app, fmap_cons in Hin.
  apply (sorted_after _ _ _ _ 3) in Hin. rewrite <- fmap_take, <- Hall in Hin.
  assert (Hd : Backups.depth <$> (Backups.refOf <$> allBackups r)
               = depth <$> allBackups r).
  { rewrite <- list_fmap_compose. done. }
  rewrite Hd. split; [done|].
  intros b (b0 & -> & Hb)%list_elem_of_fmap. simpl.
  inversion Hin as [|? ? _ Hlt]; subst.
  apply (proj1 (Forall_forall _ _) Hlt). by apply list_elem_of_fmap_2.
Qed.

Lemma summary_backups_are_deeper_witness :
  let w := steadyWorld 0 (Some gapPage) in
  CacheOfScrapes (depthChartCache freshProc) ∧
  Backups.getBackupsFromDepthChart w dysonDaniels freshProc
  = (Some dysonSummary, gapProc) ∧
  StronglySorted Z.lt
    (Backups.injuredDepth dysonSummary
       :: (Backups.depth <$> Backups.allBackups dysonSummary)) ∧
  ∀ b, b ∈ Backups.allBackups dysonSummary →
       (Backups.injuredDepth dysonSummary < Backups.depth b)%Z.
Proof.
  intros w.
  assert (H0 : CacheOfScrapes (depthChartCache freshProc)).
  { intros k c Hk. simpl in Hk. by rewrite lookup_empty in Hk. }
  assert (H : Backups.getBackupsFromDepthChart w dysonDaniels freshProc
              = (Some dysonSummary, gapProc)) by reflexivity.
  split; [exact H0|]. split; [exact H|].
  exact (summary_backups_are_deeper w dysonDaniels freshProc gapProc
           dysonSummary H0 H).
Defined.

(** ** The bulk run over all teams *)

Lemma set_absent {V} (o : JsObject.t V) (k : string) (v : V) :
  k ∉ o.*1 → k ≠ "__proto__" → JsObject.set o k v = o ++ [(k, v)].
Proof.
  intros Hk Hp. unfold JsObject.set. rewrite decide_False by done.
  by apply define_absent.
Qed.

(** The loop over any list of teams with distinct, fresh abbreviations:
    one outcome per team, appended in order. *)
Lemma eachTeam_spec (w : Runtime.World) (teams : list (string * string))
    (o : JsObject.t (JsError + DepthChart)) (s : Bulk) :
  NoDup teams.*1 →
  (∀ k, k ∈ teams.*1 → (k ∉ o.*1) ∧ k ≠ "__proto__") →
  ∃ outcomes,
    (eachTeam w teams o s).1 = o ++ zip teams.*1 outcomes ∧
    length outcomes = length teams ∧
    Runtime.requests (bulkIo (eachTeam w teams o s).2)
    = Runtime.requests (bulkIo s) ++ (depthUrl <$> teams.*2) ∧
    timers (eachTeam w teams o s).2
    = timers s ++ replicate (length (chartsOf outcomes)) 2000%Z ∧
    Forall2 (λ t v, match v with
                    | inr chart =>
                        team chart = Js.toUpperCase t.2 ∧ SortedChart chart
                    | inl e =>
                        e = RequestFailed ∨
                        e = Error "Could not find depth chart table"
                    end) teams outcomes.
Proof.
  revert o s. induction teams as [|[abbr code] teams IH]; intros o s Hnd Hk.
  - exists []. simpl. rewrite !app_nil_r. repeat split. constructor.
  - apply NoDup_cons in Hnd as [Habbr Hnd].
    destruct (Hk abbr) as [Ho Hp]; [apply elem_of_cons; by left|].
    assert (Hk' : ∀ v k, k ∈ teams.*1 →
                         (k ∉ (o ++ [(abbr, v)]).*1) ∧ k ≠ "__proto__").
    { intros v k Hin. destruct (Hk k) as [Hko Hkp]; [apply elem_of_cons; by right|].
      split; [|done]. rewrite fmap_app. simpl.
      intros [?|Hx%list_elem_of_singleton]%elem_of_app; [done|].
      by subst. }
    cbn [eachTeam]. unfold Runtime.bind, liftBulk, sleep.
    pose proof (scrape_requests w code (bulkIo s)) as Hreq.
    destruct (scrapeESPNDepthChart w code (bulkIo s)) as [[err|chart] i] eqn:Hs;
      simpl in Hreq; rewrite set_absent by done;
      cbn [bulkIo timers fst snd].
    + destruct (IH (o ++ [(abbr, inl err)]) {| bulkIo := i; timers := timers s |}
                  Hnd (Hk' _)) as (outs & Hobj & Hlen & Hrq & Htm & Hall).
      exists (inl err :: outs). rewrite Hobj, Hrq, Htm. simpl. rewrite Hreq, Hlen.
      rewrite <- !app_assoc. repeat split; try done.
      constructor; [|done]. by eapply scrape_error_kinds.
    + destruct (IH (o ++ [(abbr, inr chart)])
                  {| bulkIo := i; timers := timers s ++ [2000%Z] |}
                  Hnd (Hk' _)) as (outs & Hobj & Hlen & Hrq & Htm & Hall).
      exists (inr chart :: outs). rewrite Hobj, Hrq, Htm. simpl. rewrite Hreq, Hlen.
      rewrite <- !app_assoc. repeat split; try done.
      constructor; [|done]. by eapply scrape_chart_wf.
Qed.

Lemma TEAMS_keys_NoDup : NoDup TEAMS.*1.
Proof. apply (bool_decide_unpack (NoDup TEAMS.*1)). vm_compute. exact I. Qed.

Lemma TEAMS_codes_NoDup : NoDup TEAMS.*2.
Proof. apply (bool_decide_unpack (NoDup TEAMS.*2)). vm_compute. exact I. Qed.

Lemma scrapeAllTeams_spec (w : Runtime.World) (s : Bulk) :
  ∃ outcomes,
    (scrapeAllTeams w s).1 = zip TEAMS.*1 outcomes ∧
    length outcomes = 30%nat ∧
    Runtime.requests (bulkIo (scrapeAllTeams w s).2)
    = Runtime.requests (bulkIo s) ++ (depthUrl <$> TEAMS.*2) ∧
    timers (scrapeAllTeams w s).2
    = timers s ++ replicate (length (chartsOf outcomes)) 2000%Z ∧
    Forall2 (λ t v, match v with
                    | inr chart =>
                        team chart = Js.toUpperCase t.2 ∧ SortedChart chart
                    | inl e =>
                        e = RequestFailed ∨
                        e = Error "Could not find depth chart table"
                    end) TEAMS outcomes.
Proof.
  unfold scrapeAllTeams.
  change (JsObject.entries TEAMS) with TEAMS.
  destruct (eachTeam_spec w TEAMS JsObject.empty s TEAMS_keys_NoDup)
    as (outs & Hobj & Hlen & Hrq & Htm & Hall).
  - intros k Hin. split; [by intros ?%elem_of_nil|]. intros ->.
    revert Hin. apply (bool_decide_unpack (_ ∉ _)). vm_compute. exact I.
  - exists outs. by rewrite Hobj.
Qed.

(** X17. A bulk run yields one outcome for each team of [TEAMS], under
    the team's abbreviation and in the order of the table, whether the
    scrapes succeed or throw: a failure neither ends the run nor drops a
    team. *)
Theorem bulk_run_covers_every_team (w : Runtime.World) (s : Bulk) :
  (scrapeAllTeams w s).1.*1 = TEAMS.*1 ∧
  (JsObject.entries (scrapeAllTeams w s).1).*1 = TEAMS.*1 ∧
  length (scrapeAllTeams w s).1 = 30%nat.
Proof.
  destruct (scrapeAllTeams_spec w s) as (outs & Hobj & Hlen & _).
  assert (Hkeys : (scrapeAllTeams w s).1.*1 = TEAMS.*1).
  { rewrite Hobj. apply fst_zip. rewrite Hlen. vm_compute. lia. }
  split; [done|]. split.
  - rewrite entries_creation_order; [done|].
    apply Forall_forall. intros [k v] Hin. simpl.
    assert (Hk : k ∈ TEAMS.*1).
    { rewrite <- Hkeys. apply list_elem_of_fmap. by exists (k, v). }
    revert Hk. generalize k.
    apply (proj1 (Forall_forall (λ k, JsObject.arrayIndex k = None) TEAMS.*1)).
    apply (bool_decide_unpack
             (Forall (λ k, JsObject.arrayIndex k = None) TEAMS.*1)).
    vm_compute. exact I.
  - rewrite Hobj, length_zip, Hlen. vm_compute. lia.
Qed.

(** X18. A bulk run makes exactly thirty requests, one per team and in
    the order of [TEAMS], each for the depth page of the team's ESPN
    code. *)
Theorem bulk_run_requests (w : Runtime.World) (s : Bulk) :
  Runtime.requests (bulkIo (scrapeAllTeams w s).2)
  = Runtime.requests (bulkIo s) ++ (depthUrl <$> TEAMS.*2) ∧
  length (depthUrl <$> TEAMS.*2) = 30%nat.
Proof.
  destruct (scrapeAllTeams_spec w s) as (outs & _ & _ & Hrq & _).
  split; [done | reflexivity].
Qed.

(** X19. The delay of 2000 ms is awaited once after every scrape that
    succeeded and never after one that threw: the delays of a bulk run
    are as many as the charts in its result. *)
Theorem bulk_run_delays (w : Runtime.World) (s : Bulk) :
  timers (scrapeAllTeams w s).2
  = timers s ++ replicate (length (chartsOf (scrapeAllTeams w s).1.*2)) 2000%Z.
Proof.
  destruct (scrapeAllTeams_spec w s) as (outs & Hobj & Hlen & _ & Htm & _).
  rewrite Htm, Hobj, snd_zip; [done|]. rewrite Hlen. vm_compute. lia.
Qed.

(** X20. In the result of a bulk run, a chart stored under an
    abbreviation is a chart of that team's ESPN code: its [team] is the
    upper-cased code (so [GS] under [GSW]), and its depths are strictly
    increasing; an error stored there is one of the two that the scraper
    throws. *)
Theorem bulk_run_outcomes (w : Runtime.World) (s : Bulk) (abbr : string)
    (v : JsError + DepthChart) :
  JsObject.get (scrapeAllTeams w s).1 abbr = Some v →
  ∃ espnCode,
    JsObject.get TEAMS abbr = Some espnCode ∧
    match v with
    | inr chart => team chart = Js.toUpperCase espnCode ∧ SortedChart chart
    | inl e => e = RequestFailed ∨ e = Error "Could not find depth chart table"
    end.
Proof.
  destruct (scrapeAllTeams_spec w s) as (outs & Hobj & Hlen & _ & _ & Hall).
  rewrite Hobj. intros Hget%get_Some_elem.
  apply list_elem_of_lookup in Hget as [i Hi].
  apply lookup_zip_Some in Hi as [Hk Hv].
  apply list_lookup_fmap_Some in Hk as ([abbr' code] & -> & Ht). cbn [fst].
  exists code. split.
  - apply elem_get_NoDup; [apply TEAMS_keys_NoDup|]. by eapply list_elem_of_lookup_2.
  - by apply (Forall2_lookup_lr _ _ _ _ _ _ Hall Ht Hv).
Qed.

Lemma bulk_run_outcomes_witness :
  let w := steadyWorld 0 (Some gapPage) in
  JsObject.get (scrapeAllTeams w freshBulk).1 "GSW" = Some (inr goldenStateChart) ∧
  ∃ espnCode,
    JsObject.get TEAMS "GSW" = Some espnCode ∧
    team goldenStateChart = Js.toUpperCase espnCode ∧
    SortedChart goldenStateChart.
Proof.
  intros w.
  assert (H : JsObject.get (scrapeAllTeams w freshBulk).1 "GSW"
              = Some (inr goldenStateChart)) by (vm_compute; reflexivity).
  split; [exact H|].
  exact (bulk_run_outcomes w freshBulk "GSW" (inr goldenStateChart) H).
Defined.

(** When every scrape throws, a bulk run awaits no delay at all. *)
Example bulk_run_offline :
  timers (scrapeAllTeams (steadyWorld 0 None) freshBulk).2 = [] ∧
  length (Runtime.requests (bulkIo (scrapeAllTeams (steadyWorld 0 None) freshBulk).2))
  = 30%nat.
Proof. split; vm_compute; reflexivity. Qed.

(** ** The two team tables *)

Lemma TEAM_ID_range (teamId : Z) :
  is_Some (TEAM_ID_TO_ESPN teamId) → (1 ≤ teamId ≤ 30)%Z.
Proof.
  destruct teamId as [|p|p]; [by intros [? [=]] | | by intros [? [=]]].
  do 6 (try destruct p as [p|p|]); simpl; intros [x Hx]; try discriminate; lia.
Qed.

Lemma TEAM_ID_lookup (teamId : Z) :
  (1 ≤ teamId ≤ 30)%Z →
  TEAM_ID_TO_ESPN teamId = TEAMS.*2 !! Z.to_nat (teamId - 1).
Proof.
  intros H.
  assert (Hcases : Exists (λ n, teamId = Z.of_nat n) (seq 1 30)).
  { apply Exists_exists. exists (Z.to_nat teamId). split; [|lia].
    apply elem_of_seq. lia. }
  repeat (apply Exists_cons in Hcases as [->|Hcases]; [reflexivity|]).
  by apply Exists_nil in Hcases.
Qed.

(** X21. The table of the integration agrees with the table of the
    scraper: team id [n] is mapped exactly when [1 <= n <= 30], to the
    ESPN code of the [n]-th team of [TEAMS]; and two different team ids
    never share a code, hence never a cache key. *)
Theorem team_tables_agree (teamId : Z) :
  (is_Some (TEAM_ID_TO_ESPN teamId) ↔ (1 ≤ teamId ≤ 30)%Z) ∧
  TEAM_ID_TO_ESPN teamId
  = (if decide (1 ≤ teamId)%Z then TEAMS.*2 !! Z.to_nat (teamId - 1) else None) ∧
  ∀ other espnCode,
    TEAM_ID_TO_ESPN teamId = Some espnCode →
    TEAM_ID_TO_ESPN other = Some espnCode →
    other = teamId.
Proof.
  assert (Hlen : length TEAMS.*2 = 30%nat) by reflexivity.
  split; [|split].
  - split; [apply TEAM_ID_range|]. intros H. rewrite TEAM_ID_lookup by done.
    apply lookup_lt_is_Some. rewrite Hlen. lia.
  - destruct (decide (1 ≤ teamId ≤ 30)%Z) as [Hin|Hout].
    + rewrite decide_True by lia. by apply TEAM_ID_lookup.
    + destruct (TEAM_ID_TO_ESPN teamId) as [c|] eqn:Hc.
      { exfalso. apply Hout, TEAM_ID_range. by rewrite Hc. }
      case_decide; [|done]. symmetry. apply lookup_ge_None. rewrite Hlen. lia.
  - intros other code H1 H2.
    assert (R1 : (1 ≤ teamId ≤ 30)%Z) by (apply TEAM_ID_range; by rewrite H1).
    assert (R2 : (1 ≤ other ≤ 30)%Z) by (apply TEAM_ID_range; by rewrite H2).
    rewrite TEAM_ID_lookup in H1, H2 by done.
    pose proof (NoDup_lookup _ _ _ _ TEAMS_codes_NoDup H1 H2). lia.
Qed.

(** X22. One call makes at most one request: the trace of requests is
    either unchanged or longer by the depth page of the team's ESPN
    code. *)
Theorem at_most_one_request (w : Runtime.World) (teamId : Z) (s : Proc) :
  Runtime.requests (io (getTeamDepthChart w teamId s).2) = Runtime.requests (io s) ∨
  ∃ espnCode,
    TEAM_ID_TO_ESPN teamId = Some espnCode ∧
    Runtime.requests (io (getTeamDepthChart w teamId s).2)
    = Runtime.requests (io s) ++ [depthUrl espnCode].
Proof.
  destruct (getTeamDepthChart_cases w teamId s)
    as [[_ ->]|[(code & c & _ & _ & ->)|(code & s0 & Hid & _ & Hreq & ->)]];
    [by left | by left |].
  right. exists code. split; [done|]. rewrite refresh_eq.
  pose proof (scrape_requests w code (io s0)) as Hs.
  destruct (scrapeESPNDepthChart w code (io s0)) as [[err|chart] i];
    simpl in *; by rewrite Hs, Hreq.
Qed.

(** ** Worked cases of the string primitives *)

Example trim_no_break_space :
  Js.trim (nbsp +:+ " Trae Young" +:+ tab +:+ nbsp) = "Trae Young".
Proof. vm_compute. reflexivity. Qed.

Example trim_keeps_inner_space : Js.trim " Starter  2nd " = "Starter  2nd".
Proof. vm_compute. reflexivity. Qed.

Example lower_case_outside_ascii : Js.toLowerCase "DONČIĆ" = "dončić".
Proof. vm_compute. reflexivity. Qed.

Example lower_case_final_sigma : Js.toLowerCase "ΟΔΥΣΣΕΥΣ" = "οδυσσευς".
Proof. vm_compute. reflexivity. Qed.

Example upper_case_sharp_s : Js.toUpperCase "weiß" = "WEISS".
Proof. vm_compute. reflexivity. Qed.

(** Outside ASCII, upper-casing a query can lose the match. *)
Example upper_case_can_lose_a_match :
  let chart := {| team := "BER"; Scraper.timestamp := 0;
                  positions := [("C", [entryOf 1 "Max Weiß"])] |} in
  injuredPlayer <$> getBackupForPlayer chart "max weiß"
  = Some (Some (entryOf 1 "Max Weiß")) ∧
  getBackupForPlayer chart (Js.toUpperCase "max weiß") = None.
Proof. split; vm_compute; reflexivity. Qed.
